(** * ngp-mtls: reverse tunnel with a PQC mTLS control channel

    A shallow embedding of the frame codec ([internal/proto/proto.go]), the
    PQC transport wrapper ([internal/pqctls/pqc_tls_openssl.go]), the two
    server engines and the client engine ([internal/tunnel]), followed by
    the properties of the specification that are stated about them.

    Conventions of the embedding.
    - A Go [byte] is [Init.Byte.byte]; a [[]byte] is a [list byte].  A nil
      slice and an empty slice are both the empty list (Go's [len] and
      [bytes.Equal] do not tell them apart either).
    - A [uint32] is a [Z] in [0, 2^32); arithmetic on it writes the
      reduction modulo [2^32] out.  A Go [int] is a 64-bit [Z].
    - A Go [string] is a [String.string] (a sequence of 8-bit characters).
    - An [io.Reader] over a byte stream is the list of the bytes that are
      still to come, followed by end-of-stream.
    - A [sync.Map] keyed by [uint32] is a [gmap Z _].
    - Sockets, TLS sessions and goroutines are names; what the code does to
      them is recorded as a trace of effects in program order. *)

From Stdlib Require Import ZArith Lia List String Ascii.
From coqutil Require Import Byte Z.bitblast.
From stdpp Require Import base list gmap strings.

Local Open Scope Z_scope.

(** ** Errors and results *)

(** The error values the modelled code produces.  [ErrSyntax] and
    [ErrRange] are the two causes of a [strconv.NumError]; [ErrorString]
    stands for [errors.New] and [fmt.Errorf], with the formatted text;
    [ErrorWrap msg e] for [fmt.Errorf("msg: %v", e)]. *)
Inductive error : Type :=
  | EOF
  | ErrUnexpectedEOF
  | ErrSyntax
  | ErrRange
  | ErrorString (msg : string)
  | ErrorWrap (msg : string) (cause : error).

Inductive result (A : Type) : Type :=
  | Ok (a : A)
  | Err (e : error).
Arguments Ok {A} a.
Arguments Err {A} e.

Definition is_ok {A} (r : result A) : bool :=
  match r with Ok _ => true | Err _ => false end.

(** ** Go library functions used by the codec *)

Module GoLib.

(** [make([]byte, n)]: [n] zero bytes. *)
Definition make (n : nat) : list byte := replicate n Byte.x00.

(** The conversion [uint32(x)] of an [int]. *)
Definition uint32 (x : Z) : Z := x mod 2 ^ 32.

(** [binary.BigEndian.PutUint32(b[off:off+4], v)]:
    [b[0] = byte(v >> 24); b[1] = byte(v >> 16); b[2] = byte(v >> 8);
     b[3] = byte(v)], written into the buffer the slice aliases. *)
Definition PutUint32 (b : list byte) (off : nat) (v : Z) : list byte :=
  let b := <[off := byte.of_Z (Z.shiftr v 24)]> b in
  let b := <[(off + 1)%nat := byte.of_Z (Z.shiftr v 16)]> b in
  let b := <[(off + 2)%nat := byte.of_Z (Z.shiftr v 8)]> b in
  <[(off + 3)%nat := byte.of_Z v]> b.

(** [binary.BigEndian.Uint32(b[off:off+4])]:
    [uint32(b[3]) | uint32(b[2])<<8 | uint32(b[1])<<16 | uint32(b[0])<<24]. *)
Definition Uint32 (b : list byte) (off : nat) : Z :=
  let at_ (i : nat) := byte.unsigned (nth (off + i) b Byte.x00) in
  Z.lor (Z.lor (Z.lor (at_ 3%nat) (Z.shiftl (at_ 2%nat) 8))
               (Z.shiftl (at_ 1%nat) 16))
        (Z.shiftl (at_ 0%nat) 24).

(** [copy(dst[off:], src)]: overwrites as many bytes as fit. *)
Definition copy (dst : list byte) (off : nat) (src : list byte) : list byte :=
  list_inserts off src dst.

(** [io.ReadFull(r, buf)] with [len(buf) = n], on a reader that delivers
    the bytes [r] and then end-of-stream: the [n] bytes read and the rest
    of the stream, [io.EOF] when nothing could be read and
    [io.ErrUnexpectedEOF] when the stream ended part-way. *)
Definition ReadFull (r : list byte) (n : nat) : result (list byte * list byte) :=
  if (n <=? length r)%nat then Ok (take n r, drop n r)
  else match r with
       | [] => Err EOF
       | _ :: _ => Err ErrUnexpectedEOF
       end.

(** *** Strings and numbers *)

(** The code of a character. *)
Definition code (c : ascii) : Z := Z.of_N (N_of_ascii c).

(** ['0' <= c && c <= '9']. *)
Definition is_digit (c : ascii) : bool := (48 <=? code c) && (code c <=? 57).

(** [byte('0' + d)]. *)
Definition digit_char (d : Z) : ascii := ascii_of_N (Z.to_N (48 + d)).

(** The bounds of a Go [int] on the 64-bit platforms the program is
    built for. *)
Definition min_int : Z := - 2 ^ 63.
Definition max_int : Z := 2 ^ 63 - 1.
Definition in_int (z : Z) : bool := (min_int <=? z) && (z <=? max_int).

(** [strconv.formatBits] in base ten: the digits of [u] are written in
    front of [a], the least significant first.  The recursion is bounded
    by the size of the buffer. *)
Fixpoint formatBits (fuel : nat) (u : Z) (a : string) : string :=
  match fuel with
  | O => a
  | S fuel =>
      if 10 <=? u
      then formatBits fuel (u / 10) (String (digit_char (u mod 10)) a)
      else String (digit_char u) a
  end.

(** [strconv.Itoa], which is also the verb [%d] of [fmt.Sprintf] on an
    [int]: a minus sign for a negative number, then the digits of its
    magnitude (at most 20 of them for a 64-bit number). *)
Definition Itoa (i : Z) : string :=
  if i <? 0 then String "-" (formatBits 20 (- i) "")
  else formatBits 20 i "".

(** The digit loop of [strconv.ParseUint(s, 10, 64)]: a character that is
    not a digit is a syntax error, a value that leaves [uint64] a range
    error, whichever comes first. *)
Fixpoint ParseUint_loop (s : string) (n : Z) : result Z :=
  match s with
  | EmptyString => Ok n
  | String c s =>
      if is_digit c then
        let n1 := n * 10 + (code c - 48) in
        if 2 ^ 64 <=? n1 then Err ErrRange else ParseUint_loop s n1
      else Err ErrSyntax
  end.

(** [strconv.Atoi(s)], that is [ParseInt(s, 10, 0)]: an optional sign,
    at least one digit, and a value that fits an [int]. *)
Definition Atoi (s : string) : result Z :=
  match s with
  | EmptyString => Err ErrSyntax
  | String c rest =>
      let neg := Ascii.eqb c "-" in
      let s := if Ascii.eqb c "+" || neg then rest else s in
      match s with
      | EmptyString => Err ErrSyntax
      | _ =>
          match ParseUint_loop s 0 with
          | Err e => Err e
          | Ok un =>
              if negb neg && (2 ^ 63 <=? un) then Err ErrRange
              else if neg && (2 ^ 63 <? un) then Err ErrRange
              else Ok (if neg then - un else un)
          end
      end
  end.

(** [strings.Cut(s, string(sep))]: the text before and after the first
    [sep], if there is one. *)
Fixpoint Cut (sep : ascii) (s : string) : option (string * string) :=
  match s with
  | EmptyString => None
  | String c s =>
      if Ascii.eqb c sep then Some (EmptyString, s)
      else match Cut sep s with
           | Some (before, after) => Some (String c before, after)
           | None => None
           end
  end.

(** [strings.SplitN(s, string(sep), 2)]: split at the first [sep] only. *)
Definition SplitN2 (s : string) (sep : ascii) : list string :=
  match Cut sep s with
  | Some (before, after) => [before; after]
  | None => [s]
  end.

End GoLib.

(** ** internal/proto/proto.go *)

Module Proto.
Import GoLib.

(** [type FrameType byte] and its four constants. *)
Definition FrameType := byte.
Definition FrameTypeNEW_CONN : FrameType := Byte.x01.
Definition FrameTypeDATA : FrameType := Byte.x02.
Definition FrameTypeCLOSE : FrameType := Byte.x03.
Definition FrameTypeINIT : FrameType := Byte.x04.

Record Frame : Type := mkFrame {
  Type_ : FrameType;
  ConnID : Z;
  Payload : list byte
}.

(** The invariant the Go types give a frame for free ([ConnID] is a
    [uint32]) together with the specification's bound on the payload. *)
Definition well_formed (f : Frame) : Prop :=
  0 <= ConnID f < 2 ^ 32 /\ Z.of_nat (length (Payload f)) <= 2 ^ 32 - 1.

(** [EncodeFrame]; the argument is a pointer, [None] is [nil]. *)
Definition EncodeFrame (f : option Frame) : result (list byte) :=
  match f with
  | None => Err ErrUnexpectedEOF
  | Some f =>
      let payloadLen := length (Payload f) in
      let totalLen := (1 + 4 + 4 + payloadLen)%nat in
      let buf := make totalLen in
      let offset := 0%nat in
      let buf := <[offset := Type_ f]> buf in
      let offset := (offset + 1)%nat in
      let buf := PutUint32 buf offset (ConnID f) in
      let offset := (offset + 4)%nat in
      let buf := PutUint32 buf offset (uint32 (Z.of_nat payloadLen)) in
      let offset := (offset + 4)%nat in
      let buf := if (0 <? payloadLen)%nat then copy buf offset (Payload f)
                 else buf in
      Ok buf
  end.

(** [DecodeFrame]: the frame read and what is left of the stream. *)
Definition DecodeFrame (r : list byte) : result (Frame * list byte) :=
  match ReadFull r 9 with
  | Err e => Err e
  | Ok (header, r) =>
      let frameType := nth 0 header Byte.x00 in
      let connID := Uint32 header 1 in
      let payloadLen := Uint32 header 5 in
      if 0 <? payloadLen then
        match ReadFull r (Z.to_nat payloadLen) with
        | Err e => Err e
        | Ok (payload, r) => Ok (mkFrame frameType connID payload, r)
        end
      else Ok (mkFrame frameType connID [], r)
  end.

(** [Uint32] on four explicit bytes. *)
Definition combine4 (a b c d : byte) : Z :=
  Z.lor (Z.lor (Z.lor (byte.unsigned d) (Z.shiftl (byte.unsigned c) 8))
               (Z.shiftl (byte.unsigned b) 16))
        (Z.shiftl (byte.unsigned a) 24).

(** The value of a byte string read as a big-endian number. *)
Definition be_value (bs : list byte) : Z :=
  fold_left (fun acc b => acc * 256 + byte.unsigned b) bs 0.

(** [InitConfig]; [RemotePort] is an [int]. *)
Record InitConfig : Type := mkInitConfig {
  RemotePort : Z;
  LocalAddr : string
}.

(** [EncodeInitConfig]: [[]byte(fmt.Sprintf("%d:%s", RemotePort, LocalAddr))]. *)
Definition EncodeInitConfig (config : InitConfig) : list byte :=
  list_byte_of_string
    (Itoa (RemotePort config) +:+ String ":" (LocalAddr config)).

(** [DecodeInitConfig]. *)
Definition DecodeInitConfig (data : list byte) : result InitConfig :=
  let parts := SplitN2 (string_of_list_byte data) ":" in
  if negb (length parts =? 2)%nat
  then Err (ErrorString "invalid init config format")
  else
    match Atoi (nth 0 parts EmptyString) with
    | Err err => Err (ErrorWrap "invalid remote port" err)
    | Ok remotePort =>
        Ok {| RemotePort := remotePort; LocalAddr := nth 1 parts EmptyString |}
    end.

End Proto.

(** ** The vocabulary of the specification for the INIT payload *)

Module InitText.
Import GoLib.

(** Whether the text contains a colon. *)
Fixpoint has_colon (s : string) : bool :=
  match s with
  | EmptyString => false
  | String c s => Ascii.eqb c ":" || has_colon s
  end.

Fixpoint all_digits (s : string) : bool :=
  match s with
  | EmptyString => true
  | String c s => is_digit c && all_digits s
  end.

(** The number the digits [s] denote when they follow digits worth [n]. *)
Fixpoint value_from (s : string) (n : Z) : Z :=
  match s with
  | EmptyString => n
  | String c s => value_from s (n * 10 + (code c - 48))
  end.

(** The sign of a text and what follows the sign. *)
Definition strip_sign (s : string) : bool * string :=
  match s with
  | EmptyString => (false, s)
  | String c rest =>
      if Ascii.eqb c "-" then (true, rest)
      else if Ascii.eqb c "+" then (false, rest)
      else (false, s)
  end.

(** A decimal integer: an optional sign and one or more decimal digits. *)
Definition is_decimal_integer (s : string) : bool :=
  let (_, ds) := strip_sign s in
  negb (String.eqb ds EmptyString) && all_digits ds.

(** The integer such a text denotes. *)
Definition decimal_value (s : string) : Z :=
  let (neg, ds) := strip_sign s in
  if neg then - value_from ds 0 else value_from ds 0.

End InitText.

(** ** internal/pqctls/pqc_tls_openssl.go *)

Module PQCTLS.
Import GoLib.

(** The [SSL_ERROR_*] codes the file defines. *)
Definition SSL_ERROR_NONE : Z := 0.
Definition SSL_ERROR_SSL : Z := 1.
Definition SSL_ERROR_WANT_READ : Z := 2.
Definition SSL_ERROR_WANT_WRITE : Z := 3.
Definition SSL_ERROR_WANT_X509_LOOKUP : Z := 4.
Definition SSL_ERROR_SYSCALL : Z := 5.
Definition SSL_ERROR_ZERO_RETURN : Z := 6.

(** C's [strstr(haystack, needle)]: the part of [haystack] that starts at
    the first occurrence of [needle]; [None] is [NULL]. *)
Fixpoint strstr (haystack needle : string) : option string :=
  if String.prefix needle haystack then Some haystack
  else match haystack with
       | EmptyString => None
       | String _ rest => strstr rest needle
       end.

Definition is_NULL {A} (p : option A) : bool :=
  match p with None => true | Some _ => false end.

(** What the TLS library reports about a session whose handshake is
    over: [SSL_get_negotiated_group] and [SSL_get0_group_name]. *)
Record SSL : Type := mkSSL {
  SSL_get_negotiated_group : Z;
  SSL_get0_group_name : option string
}.

(** [verify_pqc_algorithms]: 1 when the key exchange is accepted, 0 when
    the connection has to be refused. *)
Definition verify_pqc_algorithms (ssl : SSL) : Z :=
  let group_id := SSL_get_negotiated_group ssl in
  if group_id <=? 0 then 0
  else
    match SSL_get0_group_name ssl with
    | None => 0
    | Some group_name =>
        if is_NULL (strstr group_name "MLKEM") &&
           is_NULL (strstr group_name "ML-KEM") &&
           is_NULL (strstr group_name "KYBER") &&
           is_NULL (strstr group_name "mlkem") &&
           is_NULL (strstr group_name "ml-kem")
        then 0
        else 1
    end.

(** One call into the library ([SSL_accept], [SSL_connect], [SSL_read] or
    [SSL_write]): its return value and, for a return value that is not
    positive, what [SSL_get_error] says about it. *)
Record LibCall : Type := mkLibCall {
  ret : Z;
  SSL_get_error : Z
}.

Definition want (errCode : Z) : bool :=
  (errCode =? SSL_ERROR_WANT_READ) || (errCode =? SSL_ERROR_WANT_WRITE).

(** Sockets are names. *)
Definition Conn := nat.

(** What the operating system and the library answer while one
    connection is set up. *)
Record Env : Type := mkEnv {
  (** [l.listener.Accept()], respectively [net.Dial(network, address)] *)
  base_conn : result Conn;
  (** the error of [tcpConn.SyscallConn()], if any *)
  SyscallConn_err : option error;
  (** the error of [rawConn.Control], if any *)
  Control_err : option error;
  (** whether [SSL_new] returns a session *)
  SSL_new_ok : bool;
  (** the return value of [SSL_set_fd] *)
  SSL_set_fd : Z;
  (** the successive calls of [SSL_accept], respectively [SSL_connect] *)
  handshake_calls : list LibCall;
  (** the session as it is once the handshake has succeeded *)
  session : SSL;
  (** the texts [ERR_error_string_n] gives for the entries of the error
      queue, in the order [ERR_get_error] returns them *)
  error_queue : list string
}.

(** [PQCConn]; [ssl] is [None] once the session is freed. *)
Record PQCConn : Type := mkPQCConn {
  conn : Conn;
  ssl : option SSL
}.

(** What the code does to the session and the socket. *)
Inductive Effect : Type :=
  | SSL_free
  | conn_Close (c : Conn).

(** The text left in [errBuf] after the error queue has been drained:
    each entry overwrites the one before, in a buffer of 512 bytes. *)
Definition errMsg (queue : list string) : string :=
  let buf := match last queue with
             | Some s => String.substring 0 511 s
             | None => EmptyString
             end in
  if String.eqb buf EmptyString then "unknown error"%string else buf.

Definition non_pqc_message : string :=
  "handshake succeeded but non-PQC algorithms were negotiated, connection rejected".

(** The handshake loop of [Accept] and of [Dial]; [what] is ["accept"] or
    ["connect"].  The loop goes on for as long as the library wants more
    I/O: [None] is a loop that is still turning when the calls that
    are given are used up. *)
Fixpoint handshake (what : string) (c : Conn) (env : Env)
    (calls : list LibCall) : option (result PQCConn * list Effect) :=
  match calls with
  | [] => None
  | call :: calls =>
      if 0 <? ret call then
        if verify_pqc_algorithms (session env) =? 0 then
          Some (Err (ErrorString non_pqc_message), [SSL_free; conn_Close c])
        else
          Some (Ok (mkPQCConn c (Some (session env))), [])
      else
        let errCode := SSL_get_error call in
        if want errCode then handshake what c env calls
        else
          Some (Err (ErrorString
                       ("SSL " +:+ what +:+ " failed: error code " +:+
                        Itoa errCode +:+ ", " +:+ errMsg (error_queue env))),
                [SSL_free; conn_Close c])
  end.

(** What [Accept] and [Dial] do between getting the socket and the
    handshake, and the handshake. *)
Definition establish (what : string) (env : Env)
    : option (result PQCConn * list Effect) :=
  match base_conn env with
  | Err err => Some (Err err, [])
  | Ok c =>
      match SyscallConn_err env with
      | Some err =>
          Some (Err (ErrorWrap "failed to get raw connection" err),
                [conn_Close c])
      | None =>
          match Control_err env with
          | Some err =>
              Some (Err (ErrorWrap "failed to get file descriptor" err),
                    [conn_Close c])
          | None =>
              if negb (SSL_new_ok env) then
                Some (Err (ErrorString "failed to create SSL object"),
                      [conn_Close c])
              else if SSL_set_fd env <=? 0 then
                Some (Err (ErrorString "failed to set SSL file descriptor"),
                      [SSL_free; conn_Close c])
              else handshake what c env (handshake_calls env)
          end
      end
  end.

(** [PQCListener.Accept]. *)
Definition Accept (env : Env) : option (result PQCConn * list Effect) :=
  establish "accept" env.

(** [PQCDialer.Dial]. *)
Definition Dial (env : Env) : option (result PQCConn * list Effect) :=
  establish "connect" env.

(** [PQCConn.Read] and [PQCConn.Write] have the same body around
    [SSL_read], respectively [SSL_write]; [what] is ["read"] or
    ["write"], [len_b] the length of the buffer, and [calls] the calls
    into the library that are still to come.  The result is [(n, err)]
    and the calls that were not made; [None] is a call into the library
    that has not returned. *)
Definition transfer (what : string) (c : PQCConn) (len_b : nat)
    (calls : list LibCall) : option ((Z * option error) * list LibCall) :=
  match ssl c with
  | None =>
      Some ((0, Some (ErrorString "SSL connection not established")), calls)
  | Some _ =>
      if (len_b =? 0)%nat then Some ((0, None), calls)
      else
        match calls with
        | [] => None
        | call :: calls =>
            let n := ret call in
            if n <=? 0 then
              let errCode := SSL_get_error call in
              if errCode =? SSL_ERROR_ZERO_RETURN
              then Some ((0, Some EOF), calls)
              else if want errCode then Some ((0, None), calls)
              else
                Some ((0, Some (ErrorString
                                  ("SSL " +:+ what +:+ " error: " +:+
                                   Itoa errCode))),
                      calls)
            else Some ((n, None), calls)
        end
  end.

Definition Read (c : PQCConn) (len_b : nat) (calls : list LibCall) :=
  transfer "read" c len_b calls.

Definition Write (c : PQCConn) (len_b : nat) (calls : list LibCall) :=
  transfer "write" c len_b calls.

(** *** The vocabulary of the specification *)

(** The pattern [/^(ML-?KEM|mlkem|ml-kem|KYBER)/] of the specification:
    the name begins with one of the five spellings. *)
Definition matches_pqc_pattern (name : string) : bool :=
  String.prefix "MLKEM" name || String.prefix "ML-KEM" name ||
  String.prefix "mlkem" name || String.prefix "ml-kem" name ||
  String.prefix "KYBER" name.

(** One of the spellings occurs somewhere in the name. *)
Definition contains_pqc_name (name : string) : bool :=
  negb (is_NULL (strstr name "MLKEM") && is_NULL (strstr name "ML-KEM") &&
        is_NULL (strstr name "KYBER") && is_NULL (strstr name "mlkem") &&
        is_NULL (strstr name "ml-kem")).

(** A session with a key-exchange group number and a group name in
    which one of the spellings occurs. *)
Definition pqc_accepted (s : SSL) : bool :=
  (0 <? SSL_get_negotiated_group s) &&
  match SSL_get0_group_name s with
  | Some name => contains_pqc_name name
  | None => false
  end.

(** The handshake is over after some calls that want more I/O and one
    call that succeeds. *)
Definition completes (calls : list LibCall) : Prop :=
  exists wants done_ rest,
    calls = wants ++ done_ :: rest /\
    Forall (fun call => ret call <= 0 /\ want (SSL_get_error call) = true) wants /\
    0 < ret done_.

(** Everything before the handshake went well. *)
Definition set_up (env : Env) (c : Conn) : Prop :=
  base_conn env = Ok c /\ SyscallConn_err env = None /\
  Control_err env = None /\ SSL_new_ok env = true /\ 0 < SSL_set_fd env.

(** An environment in which the set-up goes well, the library wants to
    read once and then finishes the handshake with the given group. *)
Definition env_with (group : Z) (name : string) : Env :=
  mkEnv (Ok 3%nat) None None true 1
        [mkLibCall (-1) SSL_ERROR_WANT_READ; mkLibCall 1 SSL_ERROR_NONE]
        (mkSSL group (Some name)) [].

End PQCTLS.

(** ** Go library functions used by the tunnel engines *)

Module GoRuntime.

(** Sockets, listeners and control connections are names. *)
Definition Sock := nat.

(** [atomic.AddUint32(&x, delta)]: the new value, reduced to 32 bits. *)
Definition AddUint32 (x delta : Z) : Z := (x + delta) mod 2 ^ 32.

(** [strings.Contains(s, substr)]. *)
Fixpoint Contains (s substr : string) : bool :=
  String.prefix substr s ||
  match s with
  | EmptyString => false
  | String _ rest => Contains rest substr
  end.

(** [time.Second], in the nanoseconds a [time.Duration] counts. *)
Definition Second : Z := 1000000000.

(** What a [Read] on a socket into a buffer of 4096 bytes returns: the
    bytes read, [io.EOF], or another error with its text. *)
Inductive ReadResult : Type :=
  | ReadOk (bs : list byte)
  | ReadEOF
  | ReadErr (msg : string).

End GoRuntime.

(** ** Traces of effects *)

Module Trace.
Import GoRuntime Proto.

(** What an engine does, in program order.  [EvWrite conn data ok] is one
    call [conn.Write(data)] and whether it returned without error;
    [EvDial addr timeout] is [net.DialTimeout("tcp", addr, timeout)];
    [EvGo connID sock] starts the task that reads [sock] for the stream
    [connID]; the [sync.Map] operations are [EvStore], [EvLoad] (with what
    it found), [EvDelete] and [EvLoadAndDelete]. *)
Inductive Event : Type :=
  | EvAddUint32 (new : Z)
  | EvWrite (conn : Sock) (data : list byte) (ok : bool)
  | EvStore (connID : Z) (sock : Sock)
  | EvLoad (connID : Z) (found : bool)
  | EvDelete (connID : Z)
  | EvLoadAndDelete (connID : Z) (found : bool)
  | EvRead (sock : Sock)
  | EvClose (sock : Sock)
  | EvListen (addr : string) (ok : bool)
  | EvDial (addr : string) (timeout : Z)
  | EvGo (connID : Z) (sock : Sock).

(** Every event [e] with [Q e] has an event with [P] before it. *)
Definition preceded_by (P Q : Event -> Prop) (evs : list Event) : Prop :=
  forall i e, evs !! i = Some e -> Q e ->
    exists j e', (j < i)%nat /\ evs !! j = Some e' /\ P e'.

(** A successful write of the frame [f] to the connection [conn]. *)
Definition wrote (conn : Sock) (f : Frame) (e : Event) : Prop :=
  exists data, EncodeFrame (Some f) = Ok data /\ e = EvWrite conn data true.

(** A write, successful or not, of a DATA frame of stream [connID]. *)
Definition writes_data (conn : Sock) (connID : Z) (e : Event) : Prop :=
  exists payload data ok,
    EncodeFrame (Some (mkFrame FrameTypeDATA connID payload)) = Ok data /\
    e = EvWrite conn data ok.

(** A write of the NEW_CONN frame of stream [connID], to any connection. *)
Definition wrote_new_conn (connID : Z) (e : Event) : Prop :=
  exists conn, wrote conn (mkFrame FrameTypeNEW_CONN connID []) e.

(** A write of a DATA frame of stream [connID], to any connection. *)
Definition wrote_data (connID : Z) (e : Event) : Prop :=
  exists conn, writes_data conn connID e.

(** The stream ids a trace allocates, in order. *)
Fixpoint allocated (evs : list Event) : list Z :=
  match evs with
  | [] => []
  | EvAddUint32 new :: evs => new :: allocated evs
  | _ :: evs => allocated evs
  end.

End Trace.

(** ** internal/tunnel/server.go: the server for many clients *)

Module Server.
Import GoLib GoRuntime Proto Trace.

(** [ClientInfo].  [Conn] is set by [registerClient], the only place that
    builds a [ClientInfo], and is never cleared. *)
Record ClientInfo : Type := mkClientInfo {
  ID : string;
  Conn : Sock;
  ConnMap : gmap Z Sock;
  NextConnID : Z;
  LocalAddr : string;
  RemotePort : Z;
  PublicListener : option Sock
}.

(** The part of [Server] the modelled methods use. *)
Record Server : Type := mkServer {
  publicListenAddr : string;
  clients : gmap string ClientInfo;
  nextClientID : Z
}.

(** The [ClientInfo] that [registerClient] builds. *)
Definition new_session (clientID : string) (conn : Sock) : ClientInfo :=
  mkClientInfo clientID conn ∅ 0 EmptyString 0 None.

(** [registerClient]. *)
Definition registerClient (s : Server) (conn : Sock) : string * Server :=
  let n := AddUint32 (nextClientID s) 1 in
  let clientID := ("client-" +:+ Itoa n)%string in
  let clientInfo := new_session clientID conn in
  (clientID,
   mkServer (publicListenAddr s) (<[clientID := clientInfo]> (clients s)) n).

Definition set_ConnMap (ci : ClientInfo) (m : gmap Z Sock) : ClientInfo :=
  mkClientInfo (ID ci) (Conn ci) m (NextConnID ci) (LocalAddr ci)
               (RemotePort ci) (PublicListener ci).

Definition set_NextConnID (ci : ClientInfo) (n : Z) : ClientInfo :=
  mkClientInfo (ID ci) (Conn ci) (ConnMap ci) n (LocalAddr ci)
               (RemotePort ci) (PublicListener ci).

(** [sendCloseFrame]; [ci] is what the look-up of the client finds.  The
    CLOSE frame is written to the control connection; a failed write is
    only logged. *)
Definition sendCloseFrame (ci : option ClientInfo) (connID : Z)
    (write_ok : bool) : list Event :=
  match ci with
  | None => []
  | Some clientInfo =>
      match EncodeFrame (Some (mkFrame FrameTypeCLOSE connID [])) with
      | Err _ => []
      | Ok frameData => [EvWrite (Conn clientInfo) frameData write_ok]
      end
  end.

(** [handlePublicConnection], once the client has been found: the new
    session state, what was done, and whether the reader task was
    started.  [write_ok] says whether the write of NEW_CONN succeeds. *)
Definition session_public (ci : ClientInfo) (publicConn : Sock)
    (write_ok : bool) : ClientInfo * list Event * bool :=
  let connID := AddUint32 (NextConnID ci) 1 in
  let ci := set_NextConnID ci connID in
  match EncodeFrame (Some (mkFrame FrameTypeNEW_CONN connID [])) with
  | Err _ => (ci, [EvAddUint32 connID; EvClose publicConn], false)
  | Ok frameData =>
      if negb write_ok then
        (ci, [EvAddUint32 connID; EvWrite (Conn ci) frameData false;
              EvClose publicConn], false)
      else
        (set_ConnMap ci (<[connID := publicConn]> (ConnMap ci)),
         [EvAddUint32 connID; EvWrite (Conn ci) frameData true;
          EvStore connID publicConn; EvGo connID publicConn], true)
  end.

(** [handlePublicConnection]. *)
Definition handlePublicConnection (s : Server) (publicConn : Sock)
    (clientID : string) (write_ok : bool) : Server * list Event * bool :=
  match clients s !! clientID with
  | None => (s, [EvClose publicConn], false)
  | Some clientInfo =>
      let '(ci, evs, started) := session_public clientInfo publicConn write_ok in
      (mkServer (publicListenAddr s) (<[clientID := ci]> (clients s))
                (nextClientID s), evs, started)
  end.

(** One turn of the loop of the reader task that [handlePublicConnection]
    starts.  The stream table is shared with the task that handles the
    frames of the client, so what the two [Load]s find is given, as are
    the cancellation of the context, the result of the [Read], whether
    [sendCloseFrame] still finds the client, and the success of the
    writes. *)
Record Turn : Type := mkTurn {
  ctx_done : bool;
  found_before : bool;
  read : ReadResult;
  found_after : bool;
  registered : bool;
  write_ok : bool
}.

(** The loop of the reader task: what it does, and whether it has
    returned ([false]: it is waiting in a turn that is not given). *)
Fixpoint reader_loop (ci : ClientInfo) (connID : Z) (publicConn : Sock)
    (turns : list Turn) : list Event * bool :=
  match turns with
  | [] => ([], false)
  | t :: turns =>
      if ctx_done t then ([], true)
      else if negb (found_before t) then ([EvLoad connID false], true)
      else
        match read t with
        | ReadErr msg =>
            if Contains msg "use of closed network connection"
            then ([EvLoad connID true; EvRead publicConn], true)
            else (EvLoad connID true :: EvRead publicConn ::
                  sendCloseFrame (if registered t then Some ci else None) connID
                    (write_ok t), true)
        | ReadEOF =>
            (EvLoad connID true :: EvRead publicConn ::
             sendCloseFrame (if registered t then Some ci else None) connID
                    (write_ok t), true)
        | ReadOk bs =>
            let payload := take 4096 bs in
            if (0 <? length payload)%nat then
              if negb (found_after t) then
                ([EvLoad connID true; EvRead publicConn; EvLoad connID false],
                 true)
              else
                match EncodeFrame (Some (mkFrame FrameTypeDATA connID payload)) with
                | Err _ =>
                    ([EvLoad connID true; EvRead publicConn;
                      EvLoad connID true], true)
                | Ok frameData =>
                    let evs := [EvLoad connID true; EvRead publicConn;
                                EvLoad connID true;
                                EvWrite (Conn ci) frameData (write_ok t)] in
                    if write_ok t then
                      let '(rest, returned) :=
                        reader_loop ci connID publicConn turns in
                      (evs ++ rest, returned)
                    else (evs, true)
                end
            else
              let '(rest, returned) := reader_loop ci connID publicConn turns in
              (EvLoad connID true :: EvRead publicConn :: rest, returned)
        end
  end.

(** The reader task with its deferred function, which runs when the loop
    returns: if the entry is still in the table ([found_at_exit]), the
    socket is closed and the entry deleted. *)
Definition reader (ci : ClientInfo) (connID : Z) (publicConn : Sock)
    (turns : list Turn) (found_at_exit : bool) : list Event :=
  let '(evs, returned) := reader_loop ci connID publicConn turns in
  if returned then
    evs ++ (if found_at_exit
            then [EvLoad connID true; EvClose publicConn; EvDelete connID]
            else [EvLoad connID false])
  else evs.

(** What is seen of one external socket: [handlePublicConnection] and then,
    if it was started, the reader task. *)
Definition external_socket (ci : ClientInfo) (publicConn : Sock)
    (new_conn_ok : bool) (turns : list Turn) (found_at_exit : bool)
    : list Event :=
  let '(ci', evs, started) := session_public ci publicConn new_conn_ok in
  if started
  then evs ++ reader ci' (AddUint32 (NextConnID ci) 1) publicConn turns
                     found_at_exit
  else evs.

(** [handleDataFrame], once the client has been found. *)
Definition session_data (ci : ClientInfo) (frame : Frame)
    (sock_write_ok close_write_ok : bool) : ClientInfo * list Event :=
  match ConnMap ci !! ConnID frame with
  | None => (ci, [EvLoad (ConnID frame) false])
  | Some publicConn =>
      if (0 <? length (Payload frame))%nat then
        if sock_write_ok then
          (ci, [EvLoad (ConnID frame) true;
                EvWrite publicConn (Payload frame) true])
        else
          (set_ConnMap ci (delete (ConnID frame) (ConnMap ci)),
           [EvLoad (ConnID frame) true;
            EvWrite publicConn (Payload frame) false;
            EvClose publicConn; EvDelete (ConnID frame)]
           ++ sendCloseFrame (Some ci) (ConnID frame) close_write_ok)
      else (ci, [EvLoad (ConnID frame) true])
  end.

(** [handleCloseFrame], once the client has been found. *)
Definition session_close (ci : ClientInfo) (frame : Frame)
    : ClientInfo * list Event :=
  match ConnMap ci !! ConnID frame with
  | None => (ci, [EvLoadAndDelete (ConnID frame) false])
  | Some publicConn =>
      (set_ConnMap ci (delete (ConnID frame) (ConnMap ci)),
       [EvLoadAndDelete (ConnID frame) true; EvClose publicConn])
  end.

(** [handleInitFrame], once the client has been found; [global] says
    whether the server has a public address of its own, [listen] is the
    listener [net.Listen] returns, if it returns one. *)
Definition session_init (global : bool) (ci : ClientInfo) (frame : Frame)
    (listen : option Sock) : ClientInfo * list Event :=
  if global then
    (mkClientInfo (ID ci) (Conn ci) (ConnMap ci) (NextConnID ci)
                  EmptyString 0 (PublicListener ci), [])
  else
    match DecodeInitConfig (Payload frame) with
    | Err _ => (ci, [])
    | Ok config =>
        let ci := mkClientInfo (ID ci) (Conn ci) (ConnMap ci) (NextConnID ci)
                    (Proto.LocalAddr config) (Proto.RemotePort config)
                    (PublicListener ci) in
        if 0 <? Proto.RemotePort config then
          match PublicListener ci with
          | Some _ => (ci, [])
          | None =>
              let publicAddr := (":" +:+ Itoa (Proto.RemotePort config))%string in
              match listen with
              | None => (ci, [EvListen publicAddr false])
              | Some l =>
                  (mkClientInfo (ID ci) (Conn ci) (ConnMap ci) (NextConnID ci)
                                (LocalAddr ci) (RemotePort ci) (Some l),
                   [EvListen publicAddr true])
              end
          end
        else (ci, [])
    end.

(** The deferred function of a reader task, on the table as it is when
    the task ends. *)
Definition session_reader_exit (ci : ClientInfo) (connID : Z)
    (publicConn : Sock) : ClientInfo * list Event :=
  match ConnMap ci !! connID with
  | None => (ci, [EvLoad connID false])
  | Some _ =>
      (set_ConnMap ci (delete connID (ConnMap ci)),
       [EvLoad connID true; EvClose publicConn; EvDelete connID])
  end.

(** What happens to a session between [registerClient] and
    [unregisterClient]. *)
Inductive Action : Type :=
  | APublic (publicConn : Sock) (write_ok : bool)
  | AData (frame : Frame) (sock_write_ok close_write_ok : bool)
  | AClose (frame : Frame)
  | AInit (global : bool) (frame : Frame) (listen : option Sock)
  | AReaderExit (connID : Z) (publicConn : Sock).

Definition step (ci : ClientInfo) (a : Action) : ClientInfo * list Event :=
  match a with
  | APublic publicConn write_ok =>
      let '(ci, evs, _) := session_public ci publicConn write_ok in (ci, evs)
  | AData frame sock_write_ok close_write_ok =>
      session_data ci frame sock_write_ok close_write_ok
  | AClose frame => session_close ci frame
  | AInit global frame listen => session_init global ci frame listen
  | AReaderExit connID publicConn => session_reader_exit ci connID publicConn
  end.

Fixpoint run (ci : ClientInfo) (actions : list Action)
    : ClientInfo * list Event :=
  match actions with
  | [] => (ci, [])
  | a :: actions =>
      let '(ci, evs) := step ci a in
      let '(ci, evs') := run ci actions in
      (ci, evs ++ evs')
  end.

(** The number of external sockets among the actions. *)
Fixpoint publics (actions : list Action) : nat :=
  match actions with
  | [] => 0%nat
  | APublic _ _ :: actions => S (publics actions)
  | _ :: actions => publics actions
  end.

(** The session after [n] external sockets, each announced with success. *)
Definition after_publics (n : N) (ci : ClientInfo) (publicConn : Sock)
    : ClientInfo :=
  N.iter n (fun ci => (session_public ci publicConn true).1.1) ci.

(** The counter and the table of a session in which [n] ids have been
    allocated and none has wrapped around. *)
Definition session_inv (n : nat) (ci : ClientInfo) : Prop :=
  NextConnID ci = Z.of_nat n /\
  forall k, is_Some (ConnMap ci !! k) -> 1 <= k <= Z.of_nat n.

End Server.

(** ** internal/tunnel: the server for a single client *)

Module ServerSingle.
Import GoLib GoRuntime Proto Trace.

(** The part of [Server] the modelled methods use; [controlConn] is [None]
    while no client is connected. *)
Record Server : Type := mkServer {
  controlConn : option Sock;
  connMap : gmap Z Sock;
  nextConnID : Z
}.

(** The three lines [publicConn.Close(); s.connMap.Delete(connID); return]
    of the failure paths of [handlePublicConnection]. *)
Definition close_and_delete (s : Server) (connID : Z) (publicConn : Sock)
    (evs : list Event) : Server * list Event * bool :=
  (mkServer (controlConn s) (delete connID (connMap s)) (nextConnID s),
   evs ++ [EvClose publicConn; EvDelete connID], false).

(** [handlePublicConnection]: the new state, what was done, and whether the
    reader task was started. *)
Definition handlePublicConnection (s : Server) (publicConn : Sock)
    (write_ok : bool) : Server * list Event * bool :=
  let connID := AddUint32 (nextConnID s) 1 in
  let s := mkServer (controlConn s) (<[connID := publicConn]> (connMap s))
                    connID in
  let evs := [EvAddUint32 connID; EvStore connID publicConn] in
  match controlConn s with
  | None => close_and_delete s connID publicConn evs
  | Some controlConn =>
      match EncodeFrame (Some (mkFrame FrameTypeNEW_CONN connID [])) with
      | Err _ => close_and_delete s connID publicConn evs
      | Ok frameData =>
          if negb write_ok then
            close_and_delete s connID publicConn
                    (evs ++ [EvWrite controlConn frameData false])
          else
            (s, evs ++ [EvWrite controlConn frameData true;
                        EvGo connID publicConn], true)
      end
  end.

(** [sendCloseFrame]; [ctrl] is the control connection at that time. *)
Definition sendCloseFrame (ctrl : option Sock) (connID : Z) (write_ok : bool)
    : list Event :=
  match ctrl with
  | None => []
  | Some controlConn =>
      match EncodeFrame (Some (mkFrame FrameTypeCLOSE connID [])) with
      | Err _ => []
      | Ok frameData => [EvWrite controlConn frameData write_ok]
      end
  end.

(** One turn of the loop of the reader task: the cancellation of the
    context, the result of the [Read], the control connection the task
    finds, and the success of its write. *)
Record Turn : Type := mkTurn {
  ctx_done : bool;
  read : ReadResult;
  ctrl : option Sock;
  write_ok : bool
}.

(** The loop of the reader task: what it does, and whether it has
    returned. *)
Fixpoint reader_loop (connID : Z) (publicConn : Sock) (turns : list Turn)
    : list Event * bool :=
  match turns with
  | [] => ([], false)
  | t :: turns =>
      if ctx_done t then ([], true)
      else
        match read t with
        | ReadErr _ | ReadEOF =>
            (EvRead publicConn :: sendCloseFrame (ctrl t) connID (write_ok t),
             true)
        | ReadOk bs =>
            let payload := take 4096 bs in
            if (0 <? length payload)%nat then
              match EncodeFrame (Some (mkFrame FrameTypeDATA connID payload)) with
              | Err _ => ([EvRead publicConn], true)
              | Ok frameData =>
                  match ctrl t with
                  | None => ([EvRead publicConn], true)
                  | Some ctrlConn =>
                      let evs := [EvRead publicConn;
                                  EvWrite ctrlConn frameData (write_ok t)] in
                      if write_ok t then
                        let '(rest, returned) :=
                          reader_loop connID publicConn turns in
                        (evs ++ rest, returned)
                      else (evs, true)
                  end
              end
            else
              let '(rest, returned) := reader_loop connID publicConn turns in
              (EvRead publicConn :: rest, returned)
        end
  end.

(** The reader task with its deferred function. *)
Definition reader (connID : Z) (publicConn : Sock) (turns : list Turn)
    : list Event :=
  let '(evs, returned) := reader_loop connID publicConn turns in
  if returned then evs ++ [EvClose publicConn; EvDelete connID] else evs.

(** What is seen of one external socket. *)
Definition external_socket (s : Server) (publicConn : Sock)
    (new_conn_ok : bool) (turns : list Turn) : list Event :=
  let '(_, evs, started) := handlePublicConnection s publicConn new_conn_ok in
  if started
  then evs ++ reader (AddUint32 (nextConnID s) 1) publicConn turns
  else evs.

End ServerSingle.

(** ** internal/tunnel/client.go *)

Module Client.
Import GoLib GoRuntime Proto Trace.

(** The part of [Client] the modelled methods use. *)
Record Client : Type := mkClient {
  localAddr : string;
  controlConn : option Sock;
  connMap : gmap Z Sock
}.

Definition set_connMap (c : Client) (m : gmap Z Sock) : Client :=
  mkClient (localAddr c) (controlConn c) m.

(** [sendCloseFrame]; a failed write is only logged. *)
Definition sendCloseFrame (c : Client) (connID : Z) (write_ok : bool)
    : list Event :=
  match controlConn c with
  | None => []
  | Some controlConn =>
      match EncodeFrame (Some (mkFrame FrameTypeCLOSE connID [])) with
      | Err _ => []
      | Ok frameData => [EvWrite controlConn frameData write_ok]
      end
  end.

(** [handleNewConn]; [dial] is what [net.DialTimeout] returns. *)
Definition handleNewConn (c : Client) (frame : Frame) (dial : result Sock)
    (write_ok : bool) : Client * list Event * option error :=
  let evs := [EvDial (localAddr c) (5 * Second)] in
  match dial with
  | Err err =>
      (c, evs ++ sendCloseFrame c (ConnID frame) write_ok, Some err)
  | Ok localConn =>
      (set_connMap c (<[ConnID frame := localConn]> (connMap c)),
       evs ++ [EvStore (ConnID frame) localConn;
               EvGo (ConnID frame) localConn],
       None)
  end.

(** [handleDataFrame]; [sock_write] is the error of the write to the local
    socket, if any. *)
Definition handleDataFrame (c : Client) (frame : Frame)
    (sock_write : option error) (write_ok : bool)
    : Client * list Event * option error :=
  match connMap c !! ConnID frame with
  | None => (c, [EvLoad (ConnID frame) false], None)
  | Some localConn =>
      if (0 <? length (Payload frame))%nat then
        match sock_write with
        | None =>
            (c, [EvLoad (ConnID frame) true;
                 EvWrite localConn (Payload frame) true], None)
        | Some err =>
            (set_connMap c (delete (ConnID frame) (connMap c)),
             [EvLoad (ConnID frame) true;
              EvWrite localConn (Payload frame) false;
              EvClose localConn; EvDelete (ConnID frame)]
             ++ sendCloseFrame c (ConnID frame) write_ok,
             Some err)
        end
      else (c, [EvLoad (ConnID frame) true], None)
  end.

(** [handleCloseFrame]. *)
Definition handleCloseFrame (c : Client) (frame : Frame) (write_ok : bool)
    : Client * list Event * option error :=
  match connMap c !! ConnID frame with
  | None => (c, [EvLoadAndDelete (ConnID frame) false], None)
  | Some localConn =>
      (set_connMap c (delete (ConnID frame) (connMap c)),
       [EvLoadAndDelete (ConnID frame) true; EvClose localConn]
       ++ sendCloseFrame c (ConnID frame) write_ok,
       None)
  end.

(** What the environment answers while one frame is handled. *)
Record Answers : Type := mkAnswers {
  dial : result Sock;
  sock_write : option error;
  write_ok : bool
}.

(** [handleFrame]. *)
Definition handleFrame (c : Client) (frame : Frame) (a : Answers)
    : Client * list Event * option error :=
  if Byte.eqb (Type_ frame) FrameTypeNEW_CONN
  then handleNewConn c frame (dial a) (write_ok a)
  else if Byte.eqb (Type_ frame) FrameTypeDATA
  then handleDataFrame c frame (sock_write a) (write_ok a)
  else if Byte.eqb (Type_ frame) FrameTypeCLOSE
  then handleCloseFrame c frame (write_ok a)
  else (c, [], None).

End Client.

(** ** The frame loop *)

Module FrameLoop.
Import GoLib Proto.

(** The bytes [EncodeFrame] returns for a frame. *)
Definition frame_bytes (f : Frame) : list byte :=
  match EncodeFrame (Some f) with
  | Ok data => data
  | Err _ => []
  end.

(** The loop [for { frame, err := proto.DecodeFrame(conn); if err != nil
    { return }; ... }] of [handleFramesFromClient] and of the client's
    [handleConnection]: the frames it hands to the handlers, in order, and
    the error it stops with.  Every frame takes nine bytes or more from the
    stream, so [fuel] turns are enough for a stream of fewer than [fuel]
    bytes. *)
Fixpoint frame_loop_fuel (fuel : nat) (r : list byte) : list Frame * error :=
  match fuel with
  | O => ([], EOF)
  | S fuel =>
      match DecodeFrame r with
      | Err err => ([], err)
      | Ok (frame, r) =>
          let '(frames, err) := frame_loop_fuel fuel r in
          (frame :: frames, err)
      end
  end.

Definition frame_loop (r : list byte) : list Frame * error :=
  frame_loop_fuel (S (length r)) r.

End FrameLoop.

(** ** internal/pqctls/pqc_tls_openssl.go: contexts and the end of a
    connection *)

Module PQCContext.
Import GoLib PQCTLS.

(** [TLS1_3_VERSION], and the verification modes of [SSL_CTX_set_verify]. *)
Definition TLS1_3_VERSION : Z := 772.
Definition SSL_VERIFY_PEER : Z := 1.
Definition SSL_VERIFY_FAIL_IF_NO_PEER_CERT : Z := 2.

(** What is done to a context while it is built. *)
Inductive CtxEffect : Type :=
  | set_min_proto_version (v : Z)
  | set_max_proto_version (v : Z)
  | set1_groups_list (groups : string)
  | set1_sigalgs_list (sigalgs : string)
  | use_certificate_file (file : string)
  | use_PrivateKey_file (file : string)
  | check_private_key
  | load_verify_locations (file : string)
  | set_verify (mode : Z)
  | set_verify_depth (depth : Z)
  | SSL_CTX_free.

(** What the library answers while a context is built: whether
    [SSL_CTX_new] returns a context, and the return values of the calls
    that can fail. *)
Record CtxAnswers : Type := mkCtxAnswers {
  SSL_CTX_new_ok : bool;
  groups_ret : Z;
  sigalgs_ret : Z;
  certificate_ret : Z;
  PrivateKey_ret : Z;
  check_private_key_ret : Z;
  verify_locations_ret : Z
}.

(** The lines [ERR_print_errors_fp(stderr); SSL_CTX_free(ctx); return NULL]. *)
Definition fail (done_ : list CtxEffect) : bool * list CtxEffect :=
  (false, done_ ++ [SSL_CTX_free]).

(** [create_server_ctx]; [None] for [ca_file] is [NULL].  The result says
    whether a context is returned. *)
Definition create_server_ctx (cert_file key_file : string)
    (ca_file : option string) (a : CtxAnswers) : bool * list CtxEffect :=
  if negb (SSL_CTX_new_ok a) then (false, [])
  else
    let e := [set_min_proto_version TLS1_3_VERSION;
              set_max_proto_version TLS1_3_VERSION;
              set1_groups_list "MLKEM768:MLKEM512:MLKEM1024"] in
    if groups_ret a <=? 0 then fail e
    else
      let e := e ++ [set1_sigalgs_list "MLDSA65:MLDSA44:MLDSA87"] in
      if sigalgs_ret a <=? 0 then fail e
      else
        let e := e ++ [use_certificate_file cert_file] in
        if certificate_ret a <=? 0 then fail e
        else
          let e := e ++ [use_PrivateKey_file key_file] in
          if PrivateKey_ret a <=? 0 then fail e
          else
            let e := e ++ [check_private_key] in
            if check_private_key_ret a =? 0 then fail e
            else
              let after_ca (e : list CtxEffect) :=
                (true,
                 e ++ [set_verify (Z.lor SSL_VERIFY_PEER
                                         SSL_VERIFY_FAIL_IF_NO_PEER_CERT);
                       set_verify_depth 1]) in
              match ca_file with
              | Some ca =>
                  let e := e ++ [load_verify_locations ca] in
                  if verify_locations_ret a <=? 0 then fail e
                  else after_ca e
              | None => after_ca e
              end.

(** [create_client_ctx]; each of the three files may be [NULL]. *)
Definition create_client_ctx (cert_file key_file ca_file : option string)
    (a : CtxAnswers) : bool * list CtxEffect :=
  if negb (SSL_CTX_new_ok a) then (false, [])
  else
    let e := [set_min_proto_version TLS1_3_VERSION;
              set_max_proto_version TLS1_3_VERSION;
              set1_groups_list "MLKEM768:MLKEM512:MLKEM1024"] in
    if groups_ret a <=? 0 then fail e
    else
      let e := e ++ [set1_sigalgs_list "MLDSA65:MLDSA44:MLDSA87"] in
      if sigalgs_ret a <=? 0 then fail e
      else
        let e := match cert_file with
                 | Some f => e ++ [use_certificate_file f]
                 | None => e
                 end in
        if match cert_file with
           | Some _ => certificate_ret a <=? 0
           | None => false
           end then fail e
        else
          let e := match key_file with
                   | Some f => e ++ [use_PrivateKey_file f]
                   | None => e
                   end in
          if match key_file with
             | Some _ => PrivateKey_ret a <=? 0
             | None => false
             end then fail e
          else
            let both := match cert_file, key_file with
                        | Some _, Some _ => true
                        | _, _ => false
                        end in
            let e := if both then e ++ [check_private_key] else e in
            if both && (check_private_key_ret a =? 0) then fail e
            else
              let e := match ca_file with
                       | Some f => e ++ [load_verify_locations f]
                       | None => e
                       end in
              if match ca_file with
                 | Some _ => verify_locations_ret a <=? 0
                 | None => false
                 end then fail e
              else
                (true, e ++ [set_verify SSL_VERIFY_PEER; set_verify_depth 1]).

(** A path given as a Go string, passed to C: the empty string of the
    dialer's arguments stays [NULL]. *)
Definition c_path (file : string) : option string :=
  if String.eqb file EmptyString then None else Some file.

(** [NewPQCListenerOpenSSL]; [missing file] says whether [os.Stat] reports
    that [file] does not exist.  The result is whether a listener is
    returned, or the error. *)
Definition NewPQCListenerOpenSSL (missing : string -> bool)
    (certFile keyFile caFile : string) (a : CtxAnswers)
    : result unit * list CtxEffect :=
  if missing certFile
  then (Err (ErrorString ("certificate file not found: " +:+ certFile)), [])
  else if missing keyFile
  then (Err (ErrorString ("key file not found: " +:+ keyFile)), [])
  else if negb (String.eqb caFile EmptyString) && missing caFile
  then (Err (ErrorString ("CA file not found: " +:+ caFile)), [])
  else
    let '(ok, effs) := create_server_ctx certFile keyFile (c_path caFile) a in
    if ok then (Ok tt, effs)
    else (Err (ErrorString "failed to create SSL context for server"), effs).

(** [NewPQCDialerOpenSSL]. *)
Definition NewPQCDialerOpenSSL (missing : string -> bool)
    (certFile keyFile caFile : string) (a : CtxAnswers)
    : result unit * list CtxEffect :=
  if negb (String.eqb certFile EmptyString) && missing certFile
  then (Err (ErrorString ("certificate file not found: " +:+ certFile)), [])
  else if negb (String.eqb keyFile EmptyString) && missing keyFile
  then (Err (ErrorString ("key file not found: " +:+ keyFile)), [])
  else if negb (String.eqb caFile EmptyString) && missing caFile
  then (Err (ErrorString ("CA file not found: " +:+ caFile)), [])
  else
    let '(ok, effs) :=
      create_client_ctx (c_path certFile) (c_path keyFile) (c_path caFile) a in
    if ok then (Ok tt, effs)
    else (Err (ErrorString "failed to create SSL context for client"), effs).

(** What [Close] does to the session and to the socket. *)
Inductive CloseEffect : Type :=
  | SSL_shutdown
  | SSL_free_session
  | socket_Close (c : Conn).

(** [PQCConn.Close]; [err] is what [c.conn.Close()] returns. *)
Definition Close (c : PQCConn) (err : option error)
    : PQCConn * list CloseEffect * option error :=
  match ssl c with
  | Some _ =>
      (mkPQCConn (conn c) None,
       [SSL_shutdown; SSL_free_session; socket_Close (conn c)], err)
  | None => (c, [socket_Close (conn c)], err)
  end.

(** The four settings every context starts with. *)
Definition pqc_settings : list CtxEffect :=
  [set_min_proto_version TLS1_3_VERSION; set_max_proto_version TLS1_3_VERSION;
   set1_groups_list "MLKEM768:MLKEM512:MLKEM1024";
   set1_sigalgs_list "MLDSA65:MLDSA44:MLDSA87"].

End PQCContext.

(** ** internal/tunnel/server.go: the registry and the frames of a client *)

Module ServerFrames.
Import GoLib GoRuntime Proto Trace Server.

(** What the environment answers while one frame of the client is
    handled: whether the write to the external socket and the write of
    CLOSE succeed, and the listener [net.Listen] returns, if any. *)
Record FrameAnswers : Type := mkFrameAnswers {
  sock_write_ok : bool;
  close_write_ok : bool;
  listen : option Sock
}.

(** The [switch frame.Type] of [handleFramesFromClient], once the client
    has been found; [global] says whether the server has a public address
    of its own.  A frame of another type is logged and skipped. *)
Definition session_frame (global : bool) (ci : ClientInfo) (frame : Frame)
    (a : FrameAnswers) : ClientInfo * list Event :=
  if Byte.eqb (Type_ frame) FrameTypeINIT
  then session_init global ci frame (listen a)
  else if Byte.eqb (Type_ frame) FrameTypeDATA
  then session_data ci frame (sock_write_ok a) (close_write_ok a)
  else if Byte.eqb (Type_ frame) FrameTypeCLOSE
  then session_close ci frame
  else (ci, []).

(** The frames of a client handled one after the other; [answers i] are
    the answers for the frame at position [i + from]. *)
Fixpoint session_frames (global : bool) (ci : ClientInfo)
    (frames : list Frame) (answers : nat -> FrameAnswers) (from : nat)
    : ClientInfo * list Event :=
  match frames with
  | [] => (ci, [])
  | frame :: frames =>
      let '(ci, evs) := session_frame global ci frame (answers from) in
      let '(ci, evs') := session_frames global ci frames answers (S from) in
      (ci, evs ++ evs')
  end.

(** [handleFramesFromClient] on the bytes [r] the client sends before its
    connection ends: the frames are decoded and handled in order, and the
    control connection is closed when [DecodeFrame] fails. *)
Definition handleFramesFromClient (global : bool) (ci : ClientInfo)
    (r : list byte) (answers : nat -> FrameAnswers)
    : ClientInfo * list Event :=
  let '(frames, _) := FrameLoop.frame_loop r in
  let '(ci, evs) := session_frames global ci frames answers 0 in
  (ci, evs ++ [EvClose (Conn ci)]).

(** [unregisterClient].  The sockets of the stream table are closed and
    deleted in the order [Range] visits them, here the order of
    [map_to_list]. *)
Definition unregisterClient (s : Server.Server) (clientID : string)
    : Server.Server * list Event :=
  match clients s !! clientID with
  | None => (s, [])
  | Some clientInfo =>
      (mkServer (publicListenAddr s) (delete clientID (clients s))
                (nextClientID s),
       flat_map (fun kv => [EvClose kv.2; EvDelete kv.1])
                (map_to_list (ConnMap clientInfo))
       ++ match PublicListener clientInfo with
          | Some l => [EvClose l]
          | None => []
          end
       ++ [EvClose (Conn clientInfo)])
  end.

(** Several clients registered one after the other: their ids, and the
    server afterwards. *)
Fixpoint register_all (s : Server.Server) (conns : list Sock)
    : list string * Server.Server :=
  match conns with
  | [] => ([], s)
  | conn :: conns =>
      let '(clientID, s) := registerClient s conn in
      let '(ids, s) := register_all s conns in
      (clientID :: ids, s)
  end.

(** The number of successful [net.Listen] calls of a trace. *)
Fixpoint listeners_opened (evs : list Event) : nat :=
  match evs with
  | [] => 0%nat
  | EvListen _ true :: evs => S (listeners_opened evs)
  | _ :: evs => listeners_opened evs
  end.

(** The events that open a stream: the allocation of an id, the entry in
    the table, the start of a reader task. *)
Definition opens_stream (e : Event) : bool :=
  match e with
  | EvAddUint32 _ | EvStore _ _ | EvGo _ _ => true
  | _ => false
  end.

(** The events that find the entry of stream [connID] in the table. *)
Definition finds (connID : Z) (e : Event) : bool :=
  match e with
  | EvLoad k true | EvLoadAndDelete k true => k =? connID
  | _ => false
  end.

End ServerFrames.

(** ** What the reader tasks put on the control connection *)

Module Forwarding.
Import GoLib GoRuntime Proto Trace.

(** The payloads of the DATA frames of stream [connID] that a trace
    writes, in order. *)
Fixpoint data_payloads (connID : Z) (evs : list Event) : list (list byte) :=
  match evs with
  | [] => []
  | EvWrite _ data _ :: evs =>
      match DecodeFrame data with
      | Ok (f, []) =>
          if Byte.eqb (Type_ f) FrameTypeDATA && (ConnID f =? connID)
          then Payload f :: data_payloads connID evs
          else data_payloads connID evs
      | _ => data_payloads connID evs
      end
  | _ :: evs => data_payloads connID evs
  end.

(** The bytes a turn of a reader task reads into its buffer of 4096
    bytes. *)
Definition bytes_read (r : ReadResult) : list byte :=
  match r with
  | ReadOk bs => take 4096 bs
  | _ => []
  end.

(** A write of the CLOSE frame of stream [connID], successful or not. *)
Definition writes_close (connID : Z) (e : Event) : Prop :=
  exists conn data ok,
    EncodeFrame (Some (mkFrame FrameTypeCLOSE connID [])) = Ok data /\
    e = EvWrite conn data ok.

Definition is_write (e : Event) : Prop :=
  exists conn data ok, e = EvWrite conn data ok.

(** No event with [Q] comes after an event with [P]. *)
Definition nothing_after (P Q : Event -> Prop) (evs : list Event) : Prop :=
  forall i j e e', evs !! i = Some e -> P e -> (i < j)%nat ->
    evs !! j = Some e' -> ~ Q e'.

(** In-order forwarding: the payloads written for stream [connID] are
    chunks of 1 to 4096 bytes, and put end to end they are a prefix of the
    bytes read. *)
Definition forwards_in_order (connID : Z) (evs : list Event)
    (reads : list (list byte)) : Prop :=
  Forall (fun p => (1 <= length p <= 4096)%nat) (data_payloads connID evs) /\
  concat (data_payloads connID evs) `prefix_of` concat reads.

(** The bytes a trace writes with success to the connection [conn], in
    order. *)
Fixpoint written (conn : Sock) (evs : list Event) : list byte :=
  match evs with
  | [] => []
  | EvWrite c data true :: evs =>
      if (c =? conn)%nat then data ++ written conn evs else written conn evs
  | _ :: evs => written conn evs
  end.

(** How often a trace closes the socket [sock]. *)
Fixpoint closes (sock : Sock) (evs : list Event) : nat :=
  match evs with
  | [] => 0%nat
  | EvClose s :: evs =>
      ((if (s =? sock)%nat then 1 else 0) + closes sock evs)%nat
  | _ :: evs => closes sock evs
  end.

End Forwarding.

(** ** internal/tunnel/client.go: the tasks of the client *)

Module ClientTasks.
Import GoLib GoRuntime Proto Trace Client.

(** [sendInitConfig]; [remotePort] is the field of that name, [write] the
    error of the write to the control connection, if any. *)
Definition sendInitConfig (c : Client) (remotePort : Z) (write : option error)
    : list Event * option error :=
  if remotePort <=? 0 then ([], None)
  else
    match controlConn c with
    | None => ([], Some (ErrorString "控制连接不存在"))
    | Some controlConn =>
        let configData :=
          EncodeInitConfig (mkInitConfig remotePort (localAddr c)) in
        match EncodeFrame (Some (mkFrame FrameTypeINIT 0 configData)) with
        | Err err => ([], Some (ErrorWrap "编码 INIT 帧失败" err))
        | Ok frameData =>
            match write with
            | Some err =>
                ([EvWrite controlConn frameData false],
                 Some (ErrorWrap "发送 INIT 帧失败" err))
            | None => ([EvWrite controlConn frameData true], None)
            end
        end
    end.

(** One turn of the loop of [forwardLocalToServer]: the cancellation of
    the context, the result of the [Read], the control connection the task
    finds, and the success of its write. *)
Record Turn : Type := mkTurn {
  ctx_done : bool;
  read : ReadResult;
  ctrl : option Sock;
  write_ok : bool
}.

(** The loop of [forwardLocalToServer]: what it does, and whether it has
    returned. *)
Fixpoint forward_loop (c : Client) (connID : Z) (localConn : Sock)
    (turns : list Turn) : list Event * bool :=
  match turns with
  | [] => ([], false)
  | t :: turns =>
      let now := mkClient (localAddr c) (ctrl t) (connMap c) in
      if ctx_done t then (sendCloseFrame now connID (write_ok t), true)
      else
        match read t with
        | ReadErr _ | ReadEOF =>
            (EvRead localConn :: sendCloseFrame now connID (write_ok t), true)
        | ReadOk bs =>
            let payload := take 4096 bs in
            if (0 <? length payload)%nat then
              match EncodeFrame (Some (mkFrame FrameTypeDATA connID payload)) with
              | Err _ => ([EvRead localConn], true)
              | Ok frameData =>
                  match ctrl t with
                  | None => ([EvRead localConn], true)
                  | Some controlConn =>
                      let evs := [EvRead localConn;
                                  EvWrite controlConn frameData (write_ok t)] in
                      if write_ok t then
                        let '(rest, returned) :=
                          forward_loop c connID localConn turns in
                        (evs ++ rest, returned)
                      else (evs, true)
                  end
              end
            else
              let '(rest, returned) := forward_loop c connID localConn turns in
              (EvRead localConn :: rest, returned)
        end
  end.

(** [forwardLocalToServer] with its deferred function, which closes the
    local socket and deletes the entry when the loop returns. *)
Definition forwardLocalToServer (c : Client) (connID : Z) (localConn : Sock)
    (turns : list Turn) : list Event :=
  let '(evs, returned) := forward_loop c connID localConn turns in
  if returned then evs ++ [EvClose localConn; EvDelete connID] else evs.

(** The frames of the server handled one after the other, as the main
    loop of [handleConnection] does; [answers i] are the answers for the
    frame at position [i + from].  An error of [handleFrame] is logged. *)
Fixpoint handle_frames (c : Client) (frames : list Frame)
    (answers : nat -> Answers) (from : nat) : Client * list Event :=
  match frames with
  | [] => (c, [])
  | frame :: frames =>
      let '(c, evs, _) := handleFrame c frame (answers from) in
      let '(c, evs') := handle_frames c frames answers (S from) in
      (c, evs ++ evs')
  end.

(** The addresses a trace dials, with their timeouts, in order. *)
Fixpoint dials (evs : list Event) : list (string * Z) :=
  match evs with
  | [] => []
  | EvDial addr timeout :: evs => (addr, timeout) :: dials evs
  | _ :: evs => dials evs
  end.

(** The NEW_CONN frames among the frames. *)
Definition new_conns (frames : list Frame) : list Frame :=
  List.filter (fun f => Byte.eqb (Type_ f) FrameTypeNEW_CONN) frames.

End ClientTasks.

(** * Properties *)

Section Codec.
Import GoLib Proto.

Lemma unsigned_of_Z_land (z : Z) :
  byte.unsigned (byte.of_Z z) = Z.land z (Z.ones 8).
Proof.
  rewrite byte.unsigned_of_Z. unfold byte.wrap.
  by rewrite Z.land_ones by lia.
Qed.

Lemma unsigned_land (b : byte) :
  byte.unsigned b = Z.land (byte.unsigned b) (Z.ones 8).
Proof.
  rewrite Z.land_ones by lia.
  symmetry. apply Z.mod_small, byte.unsigned_range.
Qed.

Lemma uint32_land (v : Z) : 0 <= v < 2 ^ 32 -> v = Z.land v (Z.ones 32).
Proof. intros H. rewrite Z.land_ones by lia. by rewrite Z.mod_small. Qed.

Lemma inserts_over_zeros (k : list byte) :
  list_inserts 0 k (replicate (length k) Byte.x00) = k.
Proof.
  rewrite <- (app_nil_r (replicate _ _)).
  rewrite list_inserts_0_r by (by rewrite length_replicate).
  apply app_nil_r.
Qed.

(** The buffer [EncodeFrame] builds, as one list. *)
Lemma EncodeFrame_bytes (f : Frame) :
  EncodeFrame (Some f) =
    Ok (Type_ f
        :: [byte.of_Z (Z.shiftr (ConnID f) 24); byte.of_Z (Z.shiftr (ConnID f) 16);
            byte.of_Z (Z.shiftr (ConnID f) 8); byte.of_Z (ConnID f)]
        ++ (let n := uint32 (Z.of_nat (length (Payload f))) in
            [byte.of_Z (Z.shiftr n 24); byte.of_Z (Z.shiftr n 16);
             byte.of_Z (Z.shiftr n 8); byte.of_Z n])
        ++ Payload f).
Proof.
  unfold EncodeFrame, PutUint32, copy, make. f_equal.
  destruct (Payload f) as [|p ps] eqn:Hp; [reflexivity|].
  cbn [length Nat.ltb Nat.leb Nat.add replicate].
  cbn -[byte.of_Z Z.shiftr uint32 list_inserts].
  rewrite !list_inserts_cons. do 9 f_equal.
  apply (inserts_over_zeros (p :: ps)).
Qed.

Lemma combine4_split (v : Z) :
  0 <= v < 2 ^ 32 ->
  combine4 (byte.of_Z (Z.shiftr v 24)) (byte.of_Z (Z.shiftr v 16))
           (byte.of_Z (Z.shiftr v 8)) (byte.of_Z v) = v.
Proof.
  intros H. unfold combine4. rewrite !unsigned_of_Z_land.
  rewrite (uint32_land v H) at 5.
  Z.bitblast.
Qed.

Lemma split_combine4 (a b c d : byte) :
  let v := combine4 a b c d in
  byte.of_Z (Z.shiftr v 24) = a /\ byte.of_Z (Z.shiftr v 16) = b /\
  byte.of_Z (Z.shiftr v 8) = c /\ byte.of_Z v = d.
Proof.
  cbv zeta. unfold combine4.
  rewrite (unsigned_land a), (unsigned_land b), (unsigned_land c),
    (unsigned_land d).
  repeat split; apply byte.unsigned_inj; rewrite unsigned_of_Z_land.
  - rewrite (unsigned_land a) at 2. Z.bitblast.
  - rewrite (unsigned_land b) at 2. Z.bitblast.
  - rewrite (unsigned_land c) at 2. Z.bitblast.
  - rewrite (unsigned_land d) at 2. Z.bitblast.
Qed.

Lemma combine4_range (a b c d : byte) : 0 <= combine4 a b c d < 2 ^ 32.
Proof.
  assert (E : combine4 a b c d = Z.land (combine4 a b c d) (Z.ones 32)).
  { unfold combine4.
    rewrite (unsigned_land a), (unsigned_land b), (unsigned_land c),
      (unsigned_land d).
    Z.bitblast. }
  rewrite E, Z.land_ones by lia. apply Z.mod_pos_bound. lia.
Qed.

Lemma be_value_split (v : Z) :
  0 <= v < 2 ^ 32 ->
  be_value [byte.of_Z (Z.shiftr v 24); byte.of_Z (Z.shiftr v 16);
            byte.of_Z (Z.shiftr v 8); byte.of_Z v] = v.
Proof.
  intros H. unfold be_value. cbn [fold_left].
  rewrite !byte.unsigned_of_Z. unfold byte.wrap.
  rewrite !Z.shiftr_div_pow2 by lia.
  change (2 ^ 8) with 256. change (2 ^ 24) with 16777216.
  change (2 ^ 16) with 65536. change (2 ^ 32) with 4294967296 in H.
  Z.div_mod_to_equations. lia.
Qed.

Lemma uint32_small (n : Z) : 0 <= n <= 2 ^ 32 - 1 -> uint32 n = n.
Proof. intros H. unfold uint32. apply Z.mod_small. lia. Qed.

Lemma ReadFull_app (l k : list byte) :
  ReadFull (l ++ k) (length l) = Ok (l, k).
Proof.
  unfold ReadFull. rewrite length_app.
  destruct (Nat.leb_spec (length l) (length l + length k)); [|lia].
  by rewrite take_app_length, drop_app_length.
Qed.

Lemma ReadFull_Ok (r : list byte) (n : nat) (bs rest : list byte) :
  ReadFull r n = Ok (bs, rest) -> r = bs ++ rest /\ length bs = n.
Proof.
  unfold ReadFull. destruct (Nat.leb_spec n (length r)) as [Hle|Hlt].
  - intros [= <- <-]. split; [by rewrite take_drop|].
    rewrite length_take. lia.
  - by destruct r.
Qed.

Lemma ReadFull_9 (a b c d e f g h i : byte) (r : list byte) :
  ReadFull (a :: b :: c :: d :: e :: f :: g :: h :: i :: r) 9
  = Ok ([a; b; c; d; e; f; g; h; i], r).
Proof. reflexivity. Qed.

(** Decoding what [EncodeFrame] produced, with any bytes after it. *)
Lemma DecodeFrame_EncodeFrame (f : Frame) (rest : list byte) :
  well_formed f ->
  exists bs, EncodeFrame (Some f) = Ok bs /\
             DecodeFrame (bs ++ rest) = Ok (f, rest).
Proof.
  intros [Hid Hlen]. eexists. split; [apply EncodeFrame_bytes|].
  cbv zeta. rewrite uint32_small by lia.
  set (n := Z.of_nat (length (Payload f))) in *.
  unfold DecodeFrame. cbn [app]. rewrite ReadFull_9.
  change (Uint32 ?h 1) with
    (combine4 (nth 1 h Byte.x00) (nth 2 h Byte.x00) (nth 3 h Byte.x00)
              (nth 4 h Byte.x00)).
  change (Uint32 ?h 5) with
    (combine4 (nth 5 h Byte.x00) (nth 6 h Byte.x00) (nth 7 h Byte.x00)
              (nth 8 h Byte.x00)).
  cbn [nth]. rewrite !combine4_split by lia.
  destruct (Z.ltb_spec 0 n) as [Hpos|Hzero].
  - replace (Z.to_nat n) with (length (Payload f)) by lia.
    rewrite ReadFull_app. by destruct f.
  - assert (Hnil : Payload f = []) by (apply length_zero_iff_nil; lia).
    rewrite Hnil. destruct f; cbn in *. by subst.
Qed.

(** Encoding what [DecodeFrame] read gives back the bytes it consumed. *)
Lemma EncodeFrame_DecodeFrame (b : list byte) (f : Frame) (rest : list byte) :
  DecodeFrame b = Ok (f, rest) ->
  exists bs, EncodeFrame (Some f) = Ok bs /\ bs ++ rest = b.
Proof.
  unfold DecodeFrame. intros H.
  destruct (ReadFull b 9) as [[header r]|] eqn:Hhdr; [|done].
  apply ReadFull_Ok in Hhdr as [-> Hlen9].
  destruct header as [|t [|a0 [|a1 [|a2 [|a3 [|l0 [|l1 [|l2 [|l3 [|]]]]]]]]]];
    try done. clear Hlen9.
  revert H.
  change (Uint32 ?h 1) with
    (combine4 (nth 1 h Byte.x00) (nth 2 h Byte.x00) (nth 3 h Byte.x00)
              (nth 4 h Byte.x00)).
  change (Uint32 ?h 5) with
    (combine4 (nth 5 h Byte.x00) (nth 6 h Byte.x00) (nth 7 h Byte.x00)
              (nth 8 h Byte.x00)).
  cbn [nth].
  pose proof (combine4_range l0 l1 l2 l3) as Hn.
  destruct (split_combine4 a0 a1 a2 a3) as (Ha0 & Ha1 & Ha2 & Ha3).
  destruct (split_combine4 l0 l1 l2 l3) as (Hl0 & Hl1 & Hl2 & Hl3).
  set (n := combine4 l0 l1 l2 l3) in *.
  destruct (Z.ltb_spec 0 n) as [Hpos|Hzero].
  - destruct (ReadFull r (Z.to_nat n)) as [[payload r']|] eqn:Hpl; [|done].
    apply ReadFull_Ok in Hpl as [-> Hpl]. intros [= <- <-].
    eexists. split; [apply EncodeFrame_bytes|].
    cbn [Type_ ConnID Payload]. cbv zeta.
    replace (uint32 (Z.of_nat (length payload))) with n
      by (rewrite uint32_small; lia).
    rewrite Ha0, Ha1, Ha2, Ha3, Hl0, Hl1, Hl2, Hl3.
    done.
  - intros [= <- <-].
    eexists. split; [apply EncodeFrame_bytes|].
    cbn [Type_ ConnID Payload length]. cbv zeta.
    replace (uint32 (Z.of_nat 0)) with n 
      by (change (uint32 (Z.of_nat 0)) with 0; lia).
    rewrite Ha0, Ha1, Ha2, Ha3, Hl0, Hl1, Hl2, Hl3. done.
Qed.

(** C2. Frame round trip: decoding the encoding of a well-formed frame
    returns that frame (and leaves what follows it in the stream
    unread); and whenever a byte sequence begins with a complete frame,
    so that [DecodeFrame] reads one, encoding the frame read reproduces
    exactly the bytes consumed, the rest of the sequence being what is
    left in the reader. *)
Theorem frame_round_trip (f : Frame) (b rest : list byte) :
  (well_formed f ->
   exists bs, EncodeFrame (Some f) = Ok bs /\
              DecodeFrame bs = Ok (f, []) /\
              DecodeFrame (bs ++ rest) = Ok (f, rest)) /\
  (forall g rem, DecodeFrame b = Ok (g, rem) ->
   exists bs, EncodeFrame (Some g) = Ok bs /\ bs ++ rem = b).
Proof.
  split.
  - intros Hwf.
    destruct (DecodeFrame_EncodeFrame f rest Hwf) as (bs & Henc & Hdec).
    destruct (DecodeFrame_EncodeFrame f [] Hwf) as (bs' & Henc' & Hdec').
    rewrite Henc in Henc'. injection Henc' as <-.
    rewrite app_nil_r in Hdec'. eauto.
  - intros g rem. apply EncodeFrame_DecodeFrame.
Qed.

(** C3. Wire form: the encoding of a frame whose payload has at most
    2^32-1 bytes is one byte sequence of length 9 + len(payload), made of
    the type byte, four bytes whose big-endian value is the stream id,
    four bytes whose big-endian value is the payload length, and then
    the payload bytes themselves, with nothing before, between or after
    them. *)
Theorem EncodeFrame_wire_form (f : Frame) :
  well_formed f ->
  exists idb lenb : list byte,
    EncodeFrame (Some f) = Ok ([Type_ f] ++ idb ++ lenb ++ Payload f) /\
    length idb = 4%nat /\ be_value idb = ConnID f /\
    length lenb = 4%nat /\ be_value lenb = Z.of_nat (length (Payload f)) /\
    length ([Type_ f] ++ idb ++ lenb ++ Payload f)
      = (9 + length (Payload f))%nat.
Proof.
  intros [Hid Hlen]. do 2 eexists. split; [apply EncodeFrame_bytes|].
  cbv zeta. rewrite uint32_small by lia.
  repeat split; rewrite ?be_value_split; try done; lia.
Qed.

Lemma frame_round_trip_witness :
  let f := mkFrame FrameTypeDATA 7 [Byte.x68; Byte.x69] in
  let b := [Byte.x03; Byte.x00; Byte.x00; Byte.x00; Byte.x09;
            Byte.x00; Byte.x00; Byte.x00; Byte.x00; Byte.xff] in
  (exists bs, EncodeFrame (Some f) = Ok bs /\
              DecodeFrame bs = Ok (f, []) /\
              DecodeFrame (bs ++ [Byte.xff]) = Ok (f, [Byte.xff])) /\
  (exists bs, EncodeFrame (Some (mkFrame FrameTypeCLOSE 9 [])) = Ok bs /\
              bs ++ [Byte.xff] = b).
Proof.
  cbv zeta. split.
  - apply (proj1 (frame_round_trip _ [] [Byte.xff])).
    unfold well_formed. simpl. lia.
  - apply (proj2 (frame_round_trip (mkFrame FrameTypeDATA 0 []) _ [])).
    reflexivity.
Defined.

Lemma EncodeFrame_wire_form_witness :
  exists idb lenb : list byte,
    EncodeFrame (Some (mkFrame FrameTypeDATA 258 [Byte.x41; Byte.x42]))
    = Ok ([FrameTypeDATA] ++ idb ++ lenb ++ [Byte.x41; Byte.x42]) /\
    length idb = 4%nat /\ be_value idb = 258 /\
    length lenb = 4%nat /\ be_value lenb = 2 /\
    length ([FrameTypeDATA] ++ idb ++ lenb ++ [Byte.x41; Byte.x42]) = 11%nat.
Proof.
  apply (EncodeFrame_wire_form (mkFrame FrameTypeDATA 258 [Byte.x41; Byte.x42])).
  unfold well_formed. simpl. lia.
Defined.

End Codec.

Section InitConfigCodec.
Import GoLib Proto InitText.

Lemma code_digit_char (d : Z) : 0 <= d <= 9 -> code (digit_char d) = 48 + d.
Proof.
  intros H. unfold code, digit_char.
  rewrite N_ascii_embedding by lia. lia.
Qed.

Lemma is_digit_digit_char (d : Z) : 0 <= d <= 9 -> is_digit (digit_char d) = true.
Proof.
  intros H. unfold is_digit. rewrite code_digit_char by done.
  apply andb_true_intro. split; apply Z.leb_le; lia.
Qed.

Lemma digit_char_not_colon (d : Z) :
  0 <= d <= 9 -> Ascii.eqb (digit_char d) ":" = false.
Proof.
  intros H. apply Ascii.eqb_neq. intros E.
  apply (f_equal code) in E. rewrite code_digit_char in E by done.
  change (code ":") with 58 in E. lia.
Qed.

Lemma is_digit_range (c : ascii) : is_digit c = true -> 0 <= code c - 48 <= 9.
Proof.
  unfold is_digit. intros [H1 H2]%andb_true_iff.
  apply Z.leb_le in H1, H2. lia.
Qed.

Lemma is_digit_not_sign (c : ascii) :
  is_digit c = true -> Ascii.eqb c "-" = false /\ Ascii.eqb c "+" = false.
Proof.
  intros H%is_digit_range.
  split; apply Ascii.eqb_neq; intros ->;
    [change (code "-") with 45 in H|change (code "+") with 43 in H]; lia.
Qed.

(** *** What [formatBits] writes *)

Lemma formatBits_value (fuel : nat) : forall (u : Z) (a : string),
  0 <= u < 10 ^ Z.of_nat fuel ->
  value_from (formatBits fuel u a) 0 = value_from a u.
Proof.
  induction fuel as [|fuel IH]; intros u a Hu.
  - change (10 ^ Z.of_nat 0) with 1 in Hu. cbn. f_equal. lia.
  - rewrite Nat2Z.inj_succ, Z.pow_succ_r in Hu by lia.
    cbn [formatBits]. destruct (Z.leb_spec 10 u) as [Hge|Hlt].
    + assert (Hq : 0 <= u / 10 < 10 ^ Z.of_nat fuel).
      { split; [apply Z.div_pos; lia|].
        apply Z.div_lt_upper_bound; lia. }
      pose proof (Z.mod_pos_bound u 10 ltac:(lia)) as Hr.
      rewrite IH by done. cbn [value_from].
      rewrite code_digit_char by lia.
      f_equal. pose proof (Z.div_mod u 10 ltac:(lia)). lia.
    + cbn [value_from]. rewrite code_digit_char by lia. f_equal. lia.
Qed.

Lemma formatBits_all_digits (fuel : nat) : forall (u : Z) (a : string),
  0 <= u -> all_digits (formatBits fuel u a) = all_digits a.
Proof.
  induction fuel as [|fuel IH]; intros u a Hu; [done|].
  cbn [formatBits]. destruct (Z.leb_spec 10 u) as [Hge|Hlt].
  - rewrite IH by (apply Z.div_pos; lia). cbn [all_digits].
    by rewrite is_digit_digit_char by (pose proof (Z.mod_pos_bound u 10); lia).
  - cbn [all_digits]. by rewrite is_digit_digit_char by lia.
Qed.

Lemma formatBits_has_colon (fuel : nat) : forall (u : Z) (a : string),
  0 <= u -> has_colon (formatBits fuel u a) = has_colon a.
Proof.
  induction fuel as [|fuel IH]; intros u a Hu; [done|].
  cbn [formatBits]. destruct (Z.leb_spec 10 u) as [Hge|Hlt].
  - rewrite IH by (apply Z.div_pos; lia). cbn [has_colon].
    by rewrite digit_char_not_colon
      by (pose proof (Z.mod_pos_bound u 10); lia).
  - cbn [has_colon]. by rewrite digit_char_not_colon by lia.
Qed.

Lemma formatBits_head (fuel : nat) : forall (u : Z) (c : ascii) (a : string),
  0 <= u -> is_digit c = true ->
  exists c' s', formatBits fuel u (String c a) = String c' s' /\
                is_digit c' = true.
Proof.
  induction fuel as [|fuel IH]; intros u c a Hu Hc; [by eauto|].
  cbn [formatBits]. destruct (Z.leb_spec 10 u) as [Hge|Hlt].
  - apply IH; [apply Z.div_pos; lia|].
    apply is_digit_digit_char. pose proof (Z.mod_pos_bound u 10). lia.
  - eexists _, _. split; [done|]. apply is_digit_digit_char. lia.
Qed.

Lemma formatBits_S_head (fuel : nat) (u : Z) :
  0 <= u ->
  exists c s, formatBits (S fuel) u EmptyString = String c s /\
              is_digit c = true.
Proof.
  intros Hu. cbn [formatBits]. destruct (Z.leb_spec 10 u) as [Hge|Hlt].
  - apply formatBits_head; [apply Z.div_pos; lia|].
    apply is_digit_digit_char. pose proof (Z.mod_pos_bound u 10). lia.
  - eexists _, _. split; [done|]. apply is_digit_digit_char. lia.
Qed.

(** The text [Itoa] writes is a decimal integer in the sense of the
    specification, denotes the number written, and has no colon. *)
Lemma Itoa_decimal (z : Z) :
  in_int z = true ->
  is_decimal_integer (Itoa z) = true /\ decimal_value (Itoa z) = z /\
  has_colon (Itoa z) = false.
Proof.
  unfold in_int, min_int, max_int. intros [Hlo Hhi]%andb_true_iff.
  apply Z.leb_le in Hlo, Hhi.
  assert (Hbig : 2 ^ 63 < 10 ^ Z.of_nat 20) by (vm_compute; done).
  unfold Itoa. destruct (Z.ltb_spec z 0) as [Hneg|Hpos].
  - destruct (formatBits_S_head 19 (- z) ltac:(lia)) as (c & s & Hs & Hc).
    unfold is_decimal_integer, decimal_value, strip_sign.
    change (Ascii.eqb "-" "-") with true. cbv iota.
    rewrite formatBits_value by lia. cbn [value_from has_colon].
    change (Ascii.eqb "-" ":") with false.
    rewrite formatBits_has_colon, formatBits_all_digits by lia.
    rewrite Hs. cbn. clear. split_and!; [reflexivity|lia|reflexivity].
  - destruct (formatBits_S_head 19 z ltac:(lia)) as (c & s & Hs & Hc).
    destruct (is_digit_not_sign c Hc) as [Hm Hp].
    unfold is_decimal_integer, decimal_value.
    rewrite formatBits_has_colon by lia.
    assert (Hstrip : strip_sign (formatBits 20 z EmptyString)
                     = (false, formatBits 20 z EmptyString)).
    { rewrite Hs. unfold strip_sign. by rewrite Hm, Hp. }
    rewrite Hstrip, formatBits_value, formatBits_all_digits by lia.
    rewrite Hs. cbn. clear. by split_and!.
Qed.

(** *** What [Atoi] accepts *)

Lemma value_from_ge (s : string) : forall n : Z,
  all_digits s = true -> 0 <= n -> n <= value_from s n.
Proof.
  induction s as [|c s IH]; intros n Hs Hn; [cbn; lia|].
  cbn in Hs. apply andb_true_iff in Hs as [Hc Hs].
  apply is_digit_range in Hc. cbn [value_from].
  specialize (IH (n * 10 + (code c - 48)) Hs). lia.
Qed.

Lemma ParseUint_loop_Ok (s : string) : forall n : Z,
  0 <= n -> all_digits s = true -> value_from s n < 2 ^ 64 ->
  ParseUint_loop s n = Ok (value_from s n).
Proof.
  induction s as [|c s IH]; intros n Hn Hs Hv; [done|].
  cbn in Hs. apply andb_true_iff in Hs as [Hc Hs].
  cbn [ParseUint_loop value_from] in *. rewrite Hc.
  pose proof (is_digit_range c Hc) as Hd.
  pose proof (value_from_ge s (n * 10 + (code c - 48)) Hs ltac:(lia)).
  destruct (Z.leb_spec (2 ^ 64) (n * 10 + (code c - 48))); [lia|].
  apply IH; [lia|done|done].
Qed.

Lemma ParseUint_loop_inv (s : string) : forall n un : Z,
  0 <= n < 2 ^ 64 -> ParseUint_loop s n = Ok un ->
  all_digits s = true /\ un = value_from s n /\ 0 <= un < 2 ^ 64.
Proof.
  induction s as [|c s IH]; intros n un Hn H.
  - cbn in *. injection H as <-. done.
  - cbn [ParseUint_loop value_from all_digits] in *.
    destruct (is_digit c) eqn:Hc; [|done].
    pose proof (is_digit_range c Hc) as Hd.
    destruct (Z.leb_spec (2 ^ 64) (n * 10 + (code c - 48))); [done|].
    apply IH in H; [done|lia].
Qed.

Lemma Atoi_Ok (s : string) :
  is_decimal_integer s = true -> in_int (decimal_value s) = true ->
  Atoi s = Ok (decimal_value s).
Proof.
  unfold is_decimal_integer, decimal_value, in_int, min_int, max_int, Atoi,
    strip_sign.
  destruct s as [|c rest]; [done|].
  destruct (Ascii.eqb c "-") eqn:Hm; [|destruct (Ascii.eqb c "+") eqn:Hp];
    rewrite ?orb_true_r; cbn [orb negb andb]; cbv beta iota zeta.
  - intros [Hne Hd]%andb_true_iff [Hlo Hhi]%andb_true_iff.
    apply Z.leb_le in Hlo, Hhi.
    destruct rest as [|c' rest']; [done|].
    pose proof (value_from_ge _ 0 Hd ltac:(lia)).
    rewrite ParseUint_loop_Ok by (done || lia).
    destruct (Z.ltb_spec (2 ^ 63) (value_from (String c' rest') 0)); [lia|done].
  - intros [Hne Hd]%andb_true_iff [Hlo Hhi]%andb_true_iff.
    apply Z.leb_le in Hlo, Hhi.
    destruct rest as [|c' rest']; [done|].
    rewrite ParseUint_loop_Ok by (done || lia).
    destruct (Z.leb_spec (2 ^ 63) (value_from (String c' rest') 0)); [lia|done].
  - intros [Hne Hd]%andb_true_iff [Hlo Hhi]%andb_true_iff.
    apply Z.leb_le in Hlo, Hhi.
    rewrite ParseUint_loop_Ok by (done || lia).
    destruct (Z.leb_spec (2 ^ 63) (value_from (String c rest) 0)); [lia|done].
Qed.

Lemma Atoi_inv (s : string) (z : Z) :
  Atoi s = Ok z ->
  is_decimal_integer s = true /\ decimal_value s = z /\ in_int z = true.
Proof.
  unfold is_decimal_integer, decimal_value, in_int, min_int, max_int, Atoi,
    strip_sign.
  destruct s as [|c rest]; [done|].
  destruct (Ascii.eqb c "-") eqn:Hm; [|destruct (Ascii.eqb c "+") eqn:Hp];
    rewrite ?orb_true_r; cbn [orb negb andb]; cbv beta iota zeta.
  - destruct rest as [|c' rest']; [done|].
    destruct (ParseUint_loop _ 0) as [un|] eqn:Hun; [|done].
    apply ParseUint_loop_inv in Hun as (Hd & -> & Hr); [|lia].
    set (v := value_from (String c' rest') 0) in *.
    destruct (Z.ltb_spec (2 ^ 63) v); [done|].
    intros [= <-]. rewrite Hd. split_and!; [done..|].
    apply andb_true_iff. split; apply Z.leb_le; lia.
  - destruct rest as [|c' rest']; [done|].
    destruct (ParseUint_loop _ 0) as [un|] eqn:Hun; [|done].
    apply ParseUint_loop_inv in Hun as (Hd & -> & Hr); [|lia].
    set (v := value_from (String c' rest') 0) in *.
    destruct (Z.leb_spec (2 ^ 63) v); [done|].
    intros [= <-]. rewrite Hd. split_and!; [done..|].
    apply andb_true_iff. split; apply Z.leb_le; lia.
  - destruct (ParseUint_loop _ 0) as [un|] eqn:Hun; [|done].
    apply ParseUint_loop_inv in Hun as (Hd & -> & Hr); [|lia].
    set (v := value_from (String c rest) 0) in *.
    destruct (Z.leb_spec (2 ^ 63) v); [done|].
    intros [= <-]. rewrite Hd. split_and!; [done..|].
    apply andb_true_iff. split; apply Z.leb_le; lia.
Qed.

(** [Atoi] succeeds exactly on the decimal integers that fit an [int]. *)
Lemma Atoi_is_ok (s : string) :
  is_ok (Atoi s) = is_decimal_integer s && in_int (decimal_value s).
Proof.
  destruct (is_decimal_integer s && in_int (decimal_value s)) eqn:H.
  - apply andb_true_iff in H as [H1 H2]. by rewrite Atoi_Ok.
  - destruct (Atoi s) as [z|] eqn:Hz; [|done].
    apply Atoi_inv in Hz as (H1 & <- & H3). by rewrite H1, H3 in H.
Qed.

(** *** Splitting at the first colon *)

Lemma Cut_app (pre post : string) :
  has_colon pre = false ->
  Cut ":" (pre +:+ String ":" post) = Some (pre, post).
Proof.
  induction pre as [|c pre IH]; intros H; [done|].
  cbn in H. apply orb_false_iff in H as [Hc Hpre].
  change (String c pre +:+ String ":" post)
    with (String c (pre +:+ String ":" post)).
  cbn [Cut]. by rewrite Hc, IH.
Qed.

Lemma Cut_None (s : string) : has_colon s = false -> Cut ":" s = None.
Proof.
  induction s as [|c s IH]; intros H; [done|].
  cbn in H. apply orb_false_iff in H as [Hc Hs].
  cbn [Cut]. by rewrite Hc, IH.
Qed.

Lemma Cut_Some (s before after : string) :
  Cut ":" s = Some (before, after) ->
  s = before +:+ String ":" after /\ has_colon before = false.
Proof.
  revert before. induction s as [|c s IH]; intros before H; [done|].
  cbn [Cut] in H. destruct (Ascii.eqb_spec c ":") as [->|Hne].
  - by injection H as <- <-.
  - destruct (Cut ":" s) as [[b a]|]; [|done].
    injection H as <- <-. destruct (IH b eq_refl) as [-> Hb].
    split; [done|]. cbn. rewrite Hb. by apply Ascii.eqb_neq in Hne as ->.
Qed.

Lemma has_colon_Cut (s : string) :
  has_colon s = true -> exists before after, Cut ":" s = Some (before, after).
Proof.
  intros H. destruct (Cut ":" s) as [[b a]|] eqn:E; [by eauto|].
  assert (has_colon s = false); [|congruence].
  clear H. induction s as [|c s IH]; [done|].
  cbn [Cut] in E. cbn. destruct (Ascii.eqb c ":"); [done|].
  destruct (Cut ":" s) as [[b a]|]; [done|]. by apply IH.
Qed.

(** *** [DecodeInitConfig] on the two shapes of input *)

Lemma DecodeInitConfig_no_colon (data : list byte) :
  has_colon (string_of_list_byte data) = false ->
  DecodeInitConfig data = Err (ErrorString "invalid init config format").
Proof. intros H. unfold DecodeInitConfig, SplitN2. by rewrite Cut_None. Qed.

Lemma DecodeInitConfig_colon (pre post : string) :
  has_colon pre = false ->
  DecodeInitConfig (list_byte_of_string (pre +:+ String ":" post))
  = match Atoi pre with
    | Err err => Err (ErrorWrap "invalid remote port" err)
    | Ok remotePort => Ok (mkInitConfig remotePort post)
    end.
Proof.
  intros H. unfold DecodeInitConfig, SplitN2.
  by rewrite string_of_list_byte_of_string, Cut_app.
Qed.

Lemma is_decimal_integer_no_colon (s : string) :
  is_decimal_integer s = true -> has_colon s = false.
Proof.
  assert (Hd : forall t, all_digits t = true -> has_colon t = false).
  { induction t as [|c t IH]; [done|]. cbn.
    intros [Hc Ht]%andb_true_iff. rewrite IH by done.
    apply is_digit_range in Hc. apply orb_false_iff. split; [|done].
    apply Ascii.eqb_neq. intros ->. change (code ":") with 58 in Hc. lia. }
  unfold is_decimal_integer, strip_sign. destruct s as [|c rest]; [done|].
  destruct (Ascii.eqb_spec c "-") as [->|Hm].
  { intros [_ H]%andb_true_iff. cbn. by apply Hd. }
  destruct (Ascii.eqb_spec c "+") as [->|Hp].
  { intros [_ H]%andb_true_iff. cbn. by apply Hd. }
  intros [_ H]%andb_true_iff. by apply Hd.
Qed.

(** C7 (as amended). For every [InitConfig] (its port being a Go [int]),
    [EncodeInitConfig] writes the port as a decimal integer, one colon and
    then the local address unchanged, and [DecodeInitConfig] gives the
    configuration back, colons in the address included, because it
    splits at the first colon only.  [DecodeInitConfig] fails exactly
    when the input has no colon, or the text before the first colon is
    not an optionally signed decimal integer that fits a 64-bit [int]. *)
Theorem InitConfig_codec (c : InitConfig) (data : list byte) :
  (in_int (RemotePort c) = true ->
   (exists ds, EncodeInitConfig c
               = list_byte_of_string (ds +:+ String ":" (LocalAddr c)) /\
               is_decimal_integer ds = true /\
               decimal_value ds = RemotePort c /\ has_colon ds = false) /\
   DecodeInitConfig (EncodeInitConfig c) = Ok c) /\
  (is_ok (DecodeInitConfig data) = false <->
   has_colon (string_of_list_byte data) = false \/
   exists pre post,
     string_of_list_byte data = pre +:+ String ":" post /\
     has_colon pre = false /\
     is_decimal_integer pre && in_int (decimal_value pre) = false).
Proof.
  split.
  - intros Hc. destruct (Itoa_decimal _ Hc) as (Hdec & Hval & Hcol).
    split; [by eauto|].
    unfold EncodeInitConfig. rewrite DecodeInitConfig_colon by done.
    rewrite Atoi_Ok by (by rewrite ?Hval).
    rewrite Hval. by destruct c.
  - rewrite <- (list_byte_of_string_of_list_byte data) at 1.
    set (s := string_of_list_byte data). split.
    + intros Hfail. destruct (has_colon s) eqn:Hs; [right|by left].
      destruct (has_colon_Cut s Hs) as (pre & post & Hcut).
      destruct (Cut_Some _ _ _ Hcut) as [Heq Hpre].
      exists pre, post. split_and!; [done..|].
      rewrite Heq, DecodeInitConfig_colon in Hfail by done.
      rewrite <- Atoi_is_ok. by destruct (Atoi pre).
    + intros [Hs|(pre & post & Heq & Hpre & Hbad)].
      * rewrite DecodeInitConfig_no_colon; [done|].
        by rewrite string_of_list_byte_of_string.
      * rewrite Heq, DecodeInitConfig_colon by done.
        rewrite <- Atoi_is_ok in Hbad. by destruct (Atoi pre).
Qed.

(** C10 (as amended). [DecodeInitConfig] does not check that the port is
    a valid TCP port: on every input [d:rest] in which [d] is a decimal
    integer that fits a 64-bit [int], negative numbers and numbers above
    65535 included, it succeeds and returns that integer as [RemotePort]
    and [rest] as [LocalAddr]. *)
Theorem DecodeInitConfig_no_port_check (d rest : string) :
  is_decimal_integer d = true -> in_int (decimal_value d) = true ->
  DecodeInitConfig (list_byte_of_string (d +:+ String ":" rest))
  = Ok (mkInitConfig (decimal_value d) rest).
Proof.
  intros Hd Hr.
  rewrite DecodeInitConfig_colon by (by apply is_decimal_integer_no_colon).
  by rewrite Atoi_Ok.
Qed.

Lemma InitConfig_codec_witness :
  let c := mkInitConfig 8080 "127.0.0.1:80" in
  (DecodeInitConfig (EncodeInitConfig c) = Ok c) /\
  is_ok (DecodeInitConfig (list_byte_of_string "8080")) = false.
Proof.
  cbv zeta. split.
  - apply (proj1 (InitConfig_codec (mkInitConfig 8080 "127.0.0.1:80") [])).
    reflexivity.
  - apply (proj2 (InitConfig_codec (mkInitConfig 0 "")
                    (list_byte_of_string "8080"))).
    left. reflexivity.
Defined.

(** C7, as it is worded, fails: the text before the first colon of
    [9223372036854775808:x] is a decimal integer, and [DecodeInitConfig]
    rejects the input all the same, the number being one more than the
    largest [int]. *)
Lemma InitConfig_decimal_rejected :
  let data := list_byte_of_string "9223372036854775808:x" in
  ~ (is_ok (DecodeInitConfig data) = false <->
     has_colon (string_of_list_byte data) = false \/
     exists pre post,
       string_of_list_byte data = pre +:+ String ":" post /\
       has_colon pre = false /\ is_decimal_integer pre = false).
Proof.
  cbv zeta. intros [H _].
  destruct (H eq_refl) as [Hc|(pre & post & Heq & Hpre & Hbad)]; [done|].
  pose proof (Cut_app pre post Hpre) as Hcut. rewrite <- Heq in Hcut.
  vm_compute in Hcut. injection Hcut as <- <-. done.
Qed.

Lemma DecodeInitConfig_no_port_check_witness :
  DecodeInitConfig (list_byte_of_string "70000:127.0.0.1:80")
  = Ok (mkInitConfig 70000 "127.0.0.1:80") /\
  DecodeInitConfig (list_byte_of_string "-1:[::1]:22")
  = Ok (mkInitConfig (-1) "[::1]:22").
Proof.
  split.
  - apply (DecodeInitConfig_no_port_check "70000" "127.0.0.1:80");
      reflexivity.
  - apply (DecodeInitConfig_no_port_check "-1" "[::1]:22"); reflexivity.
Defined.

(** C10, as it is worded, fails: [99999999999999999999] is a decimal
    integer, and decoding [99999999999999999999:127.0.0.1:80] does not
    succeed. *)
Lemma DecodeInitConfig_huge_port_rejected :
  let d := "99999999999999999999"%string in
  let rest := "127.0.0.1:80"%string in
  is_decimal_integer d = true /\
  DecodeInitConfig (list_byte_of_string (d +:+ String ":" rest))
  = Err (ErrorWrap "invalid remote port" ErrRange).
Proof. vm_compute. done. Qed.

End InitConfigCodec.

Section PQCTransport.
Import GoLib PQCTLS.

Lemma strstr_prefix (haystack needle : string) :
  String.prefix needle haystack = true -> strstr haystack needle = Some haystack.
Proof. intros H. destruct haystack; cbn [strstr]; by rewrite H. Qed.

(** A name that begins with one of the spellings contains it. *)
Lemma pattern_contains (name : string) :
  matches_pqc_pattern name = true -> contains_pqc_name name = true.
Proof.
  unfold matches_pqc_pattern, contains_pqc_name.
  rewrite !orb_true_iff. intros [[[[H|H]|H]|H]|H];
    rewrite (strstr_prefix _ _ H); cbn [is_NULL];
    by rewrite ?andb_false_r, ?andb_false_l.
Qed.

Lemma verify_pqc_algorithms_accepted (s : SSL) :
  verify_pqc_algorithms s = if pqc_accepted s then 1 else 0.
Proof.
  unfold verify_pqc_algorithms, pqc_accepted, contains_pqc_name.
  destruct (Z.leb_spec (SSL_get_negotiated_group s) 0) as [Hle|Hgt].
  - by destruct (Z.ltb_spec 0 (SSL_get_negotiated_group s)); [lia|].
  - destruct (Z.ltb_spec 0 (SSL_get_negotiated_group s)); [|lia].
    destruct (SSL_get0_group_name s) as [name|]; [|done].
    cbn [andb]. by destruct (_ && _).
Qed.

(** The handshake loop turns while the library wants more I/O, and stops
    at the first call that succeeds. *)
Lemma handshake_completes (what : string) (c : Conn) (env : Env)
    (wants : list LibCall) (done_ : LibCall) (rest : list LibCall) :
  Forall (fun call => ret call <= 0 /\ want (SSL_get_error call) = true) wants ->
  0 < ret done_ ->
  handshake what c env (wants ++ done_ :: rest)
  = if pqc_accepted (session env)
    then Some (Ok (mkPQCConn c (Some (session env))), [])
    else Some (Err (ErrorString non_pqc_message), [SSL_free; conn_Close c]).
Proof.
  intros Hwants Hdone. induction Hwants as [|w wants [Hret Hwant] _ IH].
  - cbn [app handshake]. destruct (Z.ltb_spec 0 (ret done_)); [|lia].
    rewrite verify_pqc_algorithms_accepted.
    by destruct (pqc_accepted (session env)).
  - cbn [app handshake]. destruct (Z.ltb_spec 0 (ret w)); [lia|].
    by rewrite Hwant.
Qed.

Lemma establish_completes (what : string) (env : Env) (c : Conn) :
  set_up env c -> completes (handshake_calls env) ->
  establish what env
  = if pqc_accepted (session env)
    then Some (Ok (mkPQCConn c (Some (session env))), [])
    else Some (Err (ErrorString non_pqc_message), [SSL_free; conn_Close c]).
Proof.
  intros (Hc & Hsys & Hctl & Hnew & Hfd) (wants & d & rest & Hcalls & Hw & Hd).
  unfold establish. rewrite Hc, Hsys, Hctl, Hnew. cbn [negb].
  destruct (Z.leb_spec (SSL_set_fd env) 0); [lia|].
  rewrite Hcalls. by apply handshake_completes.
Qed.

(** C1 (as amended). When the handshake of [Accept] or of [Dial] is over,
    the connection is returned only if the library reports a group
    number and a group name in which one of MLKEM, ML-KEM, KYBER, mlkem,
    ml-kem occurs, at the beginning or later (so every name that matches
    the anchored pattern passes); otherwise the session is freed, the
    socket is closed, and the error returned has a text in which
    "non-PQC algorithms were negotiated" occurs. *)
Theorem pqc_policy (env : Env) (c : Conn) :
  set_up env c -> completes (handshake_calls env) ->
  (pqc_accepted (session env) = true ->
   Accept env = Some (Ok (mkPQCConn c (Some (session env))), []) /\
   Dial env = Some (Ok (mkPQCConn c (Some (session env))), [])) /\
  (pqc_accepted (session env) = false ->
   exists msg,
     Accept env = Some (Err (ErrorString msg), [SSL_free; conn_Close c]) /\
     Dial env = Some (Err (ErrorString msg), [SSL_free; conn_Close c]) /\
     is_NULL (strstr msg "non-PQC algorithms were negotiated") = false) /\
  (forall name, SSL_get0_group_name (session env) = Some name ->
     0 < SSL_get_negotiated_group (session env) ->
     matches_pqc_pattern name = true -> pqc_accepted (session env) = true).
Proof.
  intros Hset Hdone. unfold Accept, Dial.
  rewrite !(establish_completes _ env c Hset Hdone). split_and!.
  - by intros ->.
  - intros ->. exists non_pqc_message. by split_and!.
  - intros name Hname Hid Hpat. unfold pqc_accepted.
    rewrite Hname, (pattern_contains _ Hpat).
    by destruct (Z.ltb_spec 0 (SSL_get_negotiated_group (session env))); [|lia].
Qed.

Lemma pqc_policy_witness :
  Accept (env_with 513 "MLKEM768")
  = Some (Ok (mkPQCConn 3%nat (Some (mkSSL 513 (Some "MLKEM768"%string)))), []) /\
  exists msg,
    Dial (env_with 29 "x25519")
    = Some (Err (ErrorString msg), [SSL_free; conn_Close 3%nat]) /\
    is_NULL (strstr msg "non-PQC algorithms were negotiated") = false.
Proof.
  assert (Hset : forall g n, set_up (env_with g n) 3%nat).
  { intros g n. unfold set_up. simpl. repeat split. }
  assert (Hdone : forall g n, completes (handshake_calls (env_with g n))).
  { intros g n. exists [mkLibCall (-1) SSL_ERROR_WANT_READ],
      (mkLibCall 1 SSL_ERROR_NONE), []. simpl. split; [reflexivity|].
    split; [|lia].
    constructor; [|constructor]. simpl. split; [lia|reflexivity]. }
  split.
  - apply (pqc_policy (env_with 513 "MLKEM768") 3%nat (Hset _ _) (Hdone _ _)).
    reflexivity.
  - destruct (pqc_policy (env_with 29 "x25519") 3%nat (Hset _ _) (Hdone _ _))
      as (_ & H & _).
    destruct (H eq_refl) as (msg & _ & HD & Hmsg). exists msg. by split.
Defined.

(** C1, as it is worded, fails: the name X25519MLKEM768 of the hybrid
    group does not match the anchored pattern, and both [Accept] and
    [Dial] return the connection. *)
Lemma hybrid_group_accepted :
  let env := env_with 4588 "X25519MLKEM768" in
  set_up env 3%nat /\
  matches_pqc_pattern "X25519MLKEM768" = false /\
  Accept env = Some (Ok (mkPQCConn 3%nat (Some (session env))), []) /\
  Dial env = Some (Ok (mkPQCConn 3%nat (Some (session env))), []).
Proof.
  cbv zeta. split_and!; try reflexivity.
  unfold set_up. simpl. repeat split.
Qed.

(** C4, on the code: when the library answers a [Write] (or a [Read])
    of a buffer that is not empty with WANT_WRITE (or WANT_READ), the
    method makes no second call; it returns at once, with [n = 0] and no
    error. *)
Theorem transfer_want_returns_zero (c : Conn) (s : SSL) (len_b : nat)
    (rest : list LibCall) :
  Write (mkPQCConn c (Some s)) (S len_b)
        (mkLibCall (-1) SSL_ERROR_WANT_WRITE :: rest)
  = Some ((0, None), rest) /\
  Read (mkPQCConn c (Some s)) (S len_b)
       (mkLibCall (-1) SSL_ERROR_WANT_READ :: rest)
  = Some ((0, None), rest).
Proof. split; reflexivity. Qed.

End PQCTransport.

Section StreamIds.
Import GoLib GoRuntime Proto Trace Server.

Lemma EncodeFrame_Some (f : Frame) : exists data, EncodeFrame (Some f) = Ok data.
Proof. eexists. apply EncodeFrame_bytes. Qed.

Lemma allocated_app (evs evs' : list Event) :
  allocated (evs ++ evs') = allocated evs ++ allocated evs'.
Proof.
  induction evs as [|e evs IH]; [done|].
  destruct e; cbn [app allocated]; by rewrite ?IH.
Qed.

Lemma allocated_sendCloseFrame (ci : option ClientInfo) (connID : Z) (ok : bool) :
  allocated (sendCloseFrame ci connID ok) = [].
Proof.
  unfold sendCloseFrame. destruct ci as [ci|]; [|done].
  by destruct (EncodeFrame _).
Qed.

(** What [handlePublicConnection] does to a session when the write of
    NEW_CONN succeeds. *)
Lemma session_public_ok (ci : ClientInfo) (publicConn : Sock) :
  let connID := AddUint32 (NextConnID ci) 1 in
  exists data,
    EncodeFrame (Some (mkFrame FrameTypeNEW_CONN connID [])) = Ok data /\
    session_public ci publicConn true
    = (set_ConnMap (set_NextConnID ci connID)
                   (<[connID := publicConn]> (ConnMap ci)),
       [EvAddUint32 connID; EvWrite (Conn ci) data true;
        EvStore connID publicConn; EvGo connID publicConn], true).
Proof.
  cbv zeta. destruct (EncodeFrame_Some
    (mkFrame FrameTypeNEW_CONN (AddUint32 (NextConnID ci) 1) [])) as [data H].
  exists data. split; [done|]. unfold session_public. by rewrite H.
Qed.

Lemma session_inv_delete (n : nat) (ci : ClientInfo) (k : Z) :
  session_inv n ci -> session_inv n (set_ConnMap ci (delete k (ConnMap ci))).
Proof.
  intros [Hn Hk]. split; [done|]. intros k' [v Hv]. cbn in Hv.
  apply lookup_delete_Some in Hv as [_ Hv]. apply Hk. by eexists.
Qed.

Lemma step_public_inv (n : nat) (ci ci' : ClientInfo) (sock : Sock)
    (ok : bool) (evs : list Event) :
  session_inv n ci -> Z.of_nat n < 2 ^ 32 - 1 ->
  step ci (APublic sock ok) = (ci', evs) ->
  session_inv (S n) ci' /\ allocated evs = [Z.of_nat n + 1].
Proof.
  intros [Hn Hk] Hlt. cbn [step]. unfold session_public.
  assert (Hid : AddUint32 (NextConnID ci) 1 = Z.of_nat n + 1).
  { unfold AddUint32. rewrite Hn. apply Z.mod_small. lia. }
  rewrite Hid.
  destruct (EncodeFrame_Some (mkFrame FrameTypeNEW_CONN (Z.of_nat n + 1) []))
    as [data ->].
  assert (Hother : forall k, is_Some (ConnMap ci !! k) -> 1 <= k <= Z.of_nat (S n)).
  { intros k H. specialize (Hk k H). lia. }
  destruct ok; cbn [negb]; intros [= <- <-]; (split; [split|done]); cbn;
    try lia; try done.
  intros k [v Hv]. apply lookup_insert_Some in Hv as [[<- _]|[_ Hv]]; [lia|].
  apply Hother. by eexists.
Qed.

Lemma step_other_inv (n : nat) (ci ci' : ClientInfo) (a : Action)
    (evs : list Event) :
  session_inv n ci -> (forall sock ok, a <> APublic sock ok) ->
  step ci a = (ci', evs) ->
  session_inv n ci' /\ allocated evs = [].
Proof.
  intros Hinv Hne. destruct a as [sock ok|frame sw cw|frame|global frame listen|
                                   connID sock]; cbn [step].
  - by destruct (Hne sock ok).
  - unfold session_data. destruct (ConnMap ci !! ConnID frame) as [pc|].
    + destruct (0 <? length (Payload frame))%nat.
      * destruct sw; intros [= <- <-]; [done|].
        split; [by apply session_inv_delete|].
        reflexivity.
      * by intros [= <- <-].
    + by intros [= <- <-].
  - unfold session_close. destruct (ConnMap ci !! ConnID frame) as [pc|];
      intros [= <- <-]; [|done].
    split; [by apply session_inv_delete|done].
  - unfold session_init. destruct global; [by intros [= <- <-]|].
    destruct (DecodeInitConfig _) as [config|]; [|by intros [= <- <-]].
    cbn [PublicListener]. destruct (0 <? Proto.RemotePort config);
      [|by intros [= <- <-]].
    destruct (PublicListener ci); [by intros [= <- <-]|].
    destruct listen; by intros [= <- <-].
  - unfold session_reader_exit. destruct (ConnMap ci !! connID);
      intros [= <- <-]; [|done].
    split; [by apply session_inv_delete|done].
Qed.

Lemma run_inv (actions : list Action) : forall (n : nat) (ci ci' : ClientInfo)
    (evs : list Event),
  session_inv n ci -> Z.of_nat (n + publics actions) <= 2 ^ 32 - 1 ->
  run ci actions = (ci', evs) ->
  session_inv (n + publics actions) ci' /\
  allocated evs = seqZ (Z.of_nat n + 1) (Z.of_nat (publics actions)).
Proof.
  induction actions as [|a actions IH]; intros n ci ci' evs Hinv Hle.
  - cbn. intros [= <- <-]. by rewrite Nat.add_0_r.
  - cbn [run]. destruct (step ci a) as [ci1 evs1] eqn:Hstep.
    destruct (run ci1 actions) as [ci2 evs2] eqn:Hrun. intros [= <- <-].
    rewrite allocated_app.
    destruct a as [sock ok|frame sw cw|frame|global frame listen|connID sock].
    1: { cbn [publics] in *.
         destruct (step_public_inv _ _ _ _ _ _ Hinv ltac:(lia) Hstep)
           as [Hinv1 ->].
         destruct (IH (S n) ci1 ci2 evs2 Hinv1 ltac:(lia) Hrun) as [Hinv2 ->].
         replace (n + S (publics actions))%nat
           with (S n + publics actions)%nat by lia.
         split; [done|].
         rewrite (Nat2Z.inj_succ (publics actions)).
         rewrite (seqZ_cons (Z.of_nat n + 1)) by lia.
         f_equal. f_equal; lia. }
    all: cbn [publics] in *;
      pose proof (fun H => step_other_inv _ _ _ _ _ Hinv H Hstep) as Hs;
      destruct Hs as [Hinv1 ->]; [intros ? ? H; discriminate H|];
      by destruct (IH n ci1 ci2 evs2 Hinv1 ltac:(lia) Hrun) as [Hinv2 ->].
Qed.

Lemma registerClient_session (s : Server.Server) (conn : Sock) :
  let '(clientID, s') := registerClient s conn in
  clients s' !! clientID = Some (new_session clientID conn).
Proof. unfold registerClient. cbn. apply lookup_insert_eq. Qed.

Lemma after_publics_NextConnID (n : N) (ci : ClientInfo) (sock : Sock) :
  0 <= NextConnID ci < 2 ^ 32 ->
  NextConnID (after_publics n ci sock) = (NextConnID ci + Z.of_N n) mod 2 ^ 32.
Proof.
  intros Hr. unfold after_publics. induction n as [|n IH] using N.peano_ind.
  - cbn. rewrite Z.add_0_r. symmetry. by apply Z.mod_small.
  - rewrite N.iter_succ.
    destruct (session_public_ok
      (N.iter n (fun ci => (session_public ci sock true).1.1) ci) sock)
      as (data & _ & ->).
    cbn [fst NextConnID set_ConnMap set_NextConnID]. unfold AddUint32.
    rewrite IH, Zplus_mod_idemp_l, N2Z.inj_succ. f_equal. lia.
Qed.

(** C6 (as amended). A session starts with its counter at zero (it is the
    one [registerClient] puts in the registry), and as long as no more than
    2^32-1 external sockets have been accepted for it, the ids it has
    allocated are 1, 2, 3, ... in this order (so they grow strictly and
    none of them is 0), and every key of its stream table is one of them,
    so 0 is not a key. *)
Theorem stream_ids (s : Server.Server) (conn : Sock) (actions : list Action) :
  Z.of_nat (publics actions) <= 2 ^ 32 - 1 ->
  let r := registerClient s conn in
  let ci0 := new_session r.1 conn in
  let out := run ci0 actions in
  clients r.2 !! r.1 = Some ci0 /\ NextConnID ci0 = 0 /\
  length (allocated out.2) = publics actions /\
  (forall i x, allocated out.2 !! i = Some x -> x = Z.of_nat i + 1) /\
  (forall k, is_Some (ConnMap out.1 !! k) ->
             1 <= k <= Z.of_nat (publics actions)) /\
  ConnMap out.1 !! 0 = None.
Proof.
  intros Hle. cbv zeta.
  pose proof (registerClient_session s conn) as Hreg.
  destruct (registerClient s conn) as [clientID s'] eqn:Hr. cbn [fst snd].
  destruct (run (new_session clientID conn) actions) as [ci evs] eqn:Hrun.
  cbn [fst snd].
  assert (Hinv0 : session_inv 0 (new_session clientID conn)).
  { split; [done|]. intros k [v Hv]. cbn in Hv. by rewrite lookup_empty in Hv. }
  destruct (run_inv actions 0 _ _ _ Hinv0 ltac:(cbn [Nat.add]; lia) Hrun)
    as [[Hn Hk] Halloc].
  cbn [Nat.add] in *. split_and!; [done|done|..].
  - rewrite Halloc, length_seqZ. lia.
  - intros i x. rewrite Halloc. intros [-> _]%lookup_seqZ. cbn. lia.
  - done.
  - destruct (ConnMap ci !! 0) as [v|] eqn:H0; [|done].
    specialize (Hk 0 ltac:(by eexists)). lia.
Qed.

Lemma stream_ids_witness :
  let actions := [APublic 5%nat true; AClose (mkFrame FrameTypeCLOSE 1 []);
                  APublic 6%nat false] in
  let out := run (new_session "client-1" 7%nat) actions in
  allocated out.2 = [1; 2] /\ ConnMap out.1 !! 0 = None.
Proof.
  cbv zeta. split; [reflexivity|].
  apply (stream_ids (mkServer EmptyString ∅ 0) 7%nat
           [APublic 5%nat true; AClose (mkFrame FrameTypeCLOSE 1 []);
            APublic 6%nat false]).
  simpl. lia.
Defined.

(** C6, as it is worded, fails: in a session for which 2^32-1 external
    sockets have been accepted, the next socket is given the id 0, and 0
    becomes a key of the stream table. *)
Lemma stream_id_zero_after_wrap :
  let ci := after_publics (2 ^ 32 - 1) (new_session "client-1" 7%nat) 9%nat in
  let out := session_public ci 9%nat true in
  allocated out.1.2 = [0] /\ ConnMap out.1.1 !! 0 = Some 9%nat.
Proof.
  cbv zeta.
  set (ci := after_publics _ _ _).
  assert (Hn : AddUint32 (NextConnID ci) 1 = 0).
  { unfold ci. rewrite after_publics_NextConnID by (cbn; lia).
    reflexivity. }
  destruct (session_public_ok ci 9%nat) as (data & _ & ->).
  rewrite Hn. cbn [fst snd allocated ConnMap set_ConnMap].
  split; [done|]. apply lookup_insert_eq.
Qed.

End StreamIds.

Section Ordering.
Import GoLib GoRuntime Proto Trace.

Lemma preceded_by_none (P Q : Event -> Prop) (evs : list Event) :
  Forall (fun e => ~ Q e) evs -> preceded_by P Q evs.
Proof.
  intros Hall i e Hi Hq. rewrite Forall_lookup in Hall.
  by destruct (Hall i e Hi).
Qed.

Lemma preceded_by_skip (P Q : Event -> Prop) (e : Event) (evs : list Event) :
  ~ Q e -> preceded_by P Q evs -> preceded_by P Q (e :: evs).
Proof.
  intros Hnq H [|i] e' Hi Hq.
  - injection Hi as <-. by destruct Hnq.
  - destruct (H i e' Hi Hq) as (j & e'' & Hlt & Hj & Hp).
    exists (S j), e''. split_and!; [lia|done|done].
Qed.

Lemma preceded_by_here (P Q : Event -> Prop) (e : Event) (evs : list Event) :
  P e -> ~ Q e -> preceded_by P Q (e :: evs).
Proof.
  intros Hp Hnq [|i] e' Hi Hq.
  - injection Hi as <-. by destruct Hnq.
  - exists 0%nat, e. split_and!; [lia|done|done].
Qed.

(** The first byte of an encoded frame is its type. *)
Lemma EncodeFrame_type (f g : Frame) (data : list byte) :
  EncodeFrame (Some f) = Ok data -> EncodeFrame (Some g) = Ok data ->
  Type_ f = Type_ g.
Proof.
  rewrite !EncodeFrame_bytes. intros [= <-] [= H]. congruence.
Qed.

Lemma new_conn_not_data (conn conn' : Sock) (connID connID' : Z)
    (data : list byte) (ok : bool) :
  EncodeFrame (Some (mkFrame FrameTypeNEW_CONN connID [])) = Ok data ->
  ~ writes_data conn' connID' (EvWrite conn data ok).
Proof.
  intros Henc (payload & data' & ok' & Henc' & [= _ <- _]).
  by pose proof (EncodeFrame_type _ _ _ Henc Henc').
Qed.

(** C5 (as amended). For every external socket, whatever the reader task
    meets: the socket is put into the stream table before the first read
    from it, and the NEW_CONN frame of its stream is written before any
    DATA frame of that stream.  In the server for many clients the socket
    is put into the table after NEW_CONN has been written; in the server
    for a single client it is put there before. *)
Theorem new_conn_ordering (ci : Server.ClientInfo) (s : ServerSingle.Server)
    (publicConn : Sock) (new_conn_ok found_at_exit : bool)
    (turns : list Server.Turn) (turns1 : list ServerSingle.Turn) :
  let connID := AddUint32 (Server.NextConnID ci) 1 in
  let evs := Server.external_socket ci publicConn new_conn_ok turns
               found_at_exit in
  let connID1 := AddUint32 (ServerSingle.nextConnID s) 1 in
  let evs1 := ServerSingle.external_socket s publicConn new_conn_ok turns1 in
  (preceded_by (eq (EvStore connID publicConn)) (eq (EvRead publicConn)) evs /\
   preceded_by (wrote_new_conn connID) (wrote_data connID) evs /\
   preceded_by (wrote_new_conn connID) (eq (EvStore connID publicConn)) evs) /\
  (preceded_by (eq (EvStore connID1 publicConn)) (eq (EvRead publicConn)) evs1 /\
   preceded_by (wrote_new_conn connID1) (wrote_data connID1) evs1 /\
   preceded_by (eq (EvStore connID1 publicConn)) (wrote_new_conn connID1) evs1).
Proof.
  cbv zeta. split.
  - unfold Server.external_socket, Server.session_public.
    set (connID := AddUint32 (Server.NextConnID ci) 1).
    destruct (EncodeFrame_Some (mkFrame FrameTypeNEW_CONN connID []))
      as [data Henc]. rewrite Henc.
    assert (Hnc : forall ok, ~ wrote_data connID
                               (EvWrite (Server.Conn ci) data ok)).
    { intros ok [conn H]. by apply (new_conn_not_data _ _ _ _ _ _ Henc) in H. }
    assert (Hw : wrote_new_conn connID (EvWrite (Server.Conn ci) data true)).
    { exists (Server.Conn ci), data. done. }
    destruct new_conn_ok; cbn [negb]; split_and!.
    + apply preceded_by_skip; [done|]. apply preceded_by_skip; [done|].
      by apply preceded_by_here.
    + apply preceded_by_skip; [by intros [? (? & ? & ? & ? & ?)]|].
      by apply preceded_by_here.
    + apply preceded_by_skip; [done|]. by apply preceded_by_here.
    + apply preceded_by_none. by repeat constructor.
    + apply preceded_by_none. repeat constructor; try done.
      all: by intros [? (? & ? & ? & ? & ?)].
    + apply preceded_by_none. by repeat constructor.
  - unfold ServerSingle.external_socket, ServerSingle.handlePublicConnection,
      ServerSingle.close_and_delete.
    set (connID := AddUint32 (ServerSingle.nextConnID s) 1).
    cbn [ServerSingle.controlConn].
    destruct (EncodeFrame_Some (mkFrame FrameTypeNEW_CONN connID []))
      as [data Henc]. rewrite Henc.
    assert (Hnc : forall conn ok, ~ wrote_data connID (EvWrite conn data ok)).
    { intros conn ok [conn' H].
      by apply (new_conn_not_data _ _ _ _ _ _ Henc) in H. }
    assert (Hns : ~ wrote_new_conn connID (EvStore connID publicConn)).
    { by intros [? (? & ? & ?)]. }
    assert (Hna : ~ wrote_new_conn connID (EvAddUint32 connID)).
    { by intros [? (? & ? & ?)]. }
    assert (Hda : forall e, (forall c d o, e <> EvWrite c d o) ->
                            ~ wrote_data connID e).
    { intros e He [? (? & ? & ? & ? & ->)]. by eapply He. }
    destruct (ServerSingle.controlConn s) as [cc|];
      [destruct new_conn_ok; cbn [negb app]|cbn [app]]; split_and!.
    all: try (apply preceded_by_skip; [done|]; by apply preceded_by_here).
    + apply preceded_by_skip; [by apply Hda|].
      apply preceded_by_skip; [by apply Hda|].
      apply preceded_by_here; [|done]. exists cc, data. done.
    + apply preceded_by_skip; [by apply Hda|].
      apply preceded_by_none. repeat constructor; try done; by apply Hda.
    + apply preceded_by_skip; [by apply Hda|].
      apply preceded_by_none. repeat constructor; by apply Hda.
Qed.

(** C5, as it is worded, fails on the server for a single client: the
    socket is in the table before NEW_CONN is written. *)
Lemma single_client_stores_first :
  let s := ServerSingle.mkServer (Some 1%nat) ∅ 0 in
  let turns := [ServerSingle.mkTurn false (ReadOk [Byte.x41]) (Some 1%nat) true] in
  let evs := ServerSingle.external_socket s 5%nat true turns in
  evs !! 1%nat = Some (EvStore 1 5%nat) /\
  ~ preceded_by (wrote_new_conn 1) (eq (EvStore 1 5%nat)) evs.
Proof.
  cbv zeta. split; [reflexivity|]. intros H.
  destruct (H 1%nat (EvStore 1 5%nat) eq_refl eq_refl)
    as (j & e & Hj & He & conn & data & _ & ->).
  destruct j as [|j]; [|lia]. discriminate He.
Qed.

End Ordering.

Section ClientEngine.
Import GoLib GoRuntime Proto Trace Client.

(** C8. For a NEW_CONN frame that a connected client handles, the local
    address is dialled with a timeout of five seconds; when the dial
    fails, CLOSE for the stream is written to the control connection,
    the stream table is left as it was, no reader task is started and the
    error is returned; when it succeeds, the stream id is mapped to the
    local socket and the reader task for that socket is started. *)
Theorem handleNewConn_contract (c : Client) (frame : Frame) (a : Answers)
    (controlConn_ : Sock) :
  Type_ frame = FrameTypeNEW_CONN -> controlConn c = Some controlConn_ ->
  match dial a with
  | Err err =>
      exists data,
        EncodeFrame (Some (mkFrame FrameTypeCLOSE (ConnID frame) [])) = Ok data /\
        handleFrame c frame a
        = (c, [EvDial (localAddr c) 5000000000;
               EvWrite controlConn_ data (write_ok a)], Some err)
  | Ok localConn =>
      handleFrame c frame a
      = (set_connMap c (<[ConnID frame := localConn]> (connMap c)),
         [EvDial (localAddr c) 5000000000;
          EvStore (ConnID frame) localConn; EvGo (ConnID frame) localConn],
         None)
  end.
Proof.
  intros Hty Hcc. unfold handleFrame, handleNewConn, sendCloseFrame.
  rewrite Hty, Hcc. change (Byte.eqb FrameTypeNEW_CONN FrameTypeNEW_CONN) with true.
  cbv iota. destruct (dial a) as [localConn|err]; [done|].
  destruct (EncodeFrame_Some (mkFrame FrameTypeCLOSE (ConnID frame) []))
    as [data Henc]. exists data. by rewrite Henc.
Qed.

Lemma handleNewConn_contract_witness :
  let c := mkClient "127.0.0.1:80" (Some 1%nat) ∅ in
  let frame := mkFrame FrameTypeNEW_CONN 7 [] in
  (exists data,
     EncodeFrame (Some (mkFrame FrameTypeCLOSE 7 [])) = Ok data /\
     handleFrame c frame (mkAnswers (Err (ErrorString "connection refused")) None true)
     = (c, [EvDial "127.0.0.1:80" 5000000000; EvWrite 1%nat data true],
        Some (ErrorString "connection refused"))) /\
  handleFrame c frame (mkAnswers (Ok 4%nat) None true)
  = (set_connMap c (<[7 := 4%nat]> ∅),
     [EvDial "127.0.0.1:80" 5000000000; EvStore 7 4%nat; EvGo 7 4%nat], None).
Proof.
  cbv zeta. split.
  - apply (handleNewConn_contract (mkClient "127.0.0.1:80" (Some 1%nat) ∅)
             (mkFrame FrameTypeNEW_CONN 7 [])
             (mkAnswers (Err (ErrorString "connection refused")) None true)
             1%nat); reflexivity.
  - apply (handleNewConn_contract (mkClient "127.0.0.1:80" (Some 1%nat) ∅)
             (mkFrame FrameTypeNEW_CONN 7 [])
             (mkAnswers (Ok 4%nat) None true) 1%nat); reflexivity.
Defined.

(** C9 (as amended). For a CLOSE frame whose stream has an entry in the
    stream table of a connected client, the entry is removed, the local
    socket is closed and CLOSE for the stream is written back to the
    server.  For a CLOSE frame whose stream has no entry, nothing is
    closed and nothing is written. *)
Theorem handleCloseFrame_contract (c : Client) (frame : Frame) (a : Answers) :
  Type_ frame = FrameTypeCLOSE ->
  (forall localConn controlConn_,
     connMap c !! ConnID frame = Some localConn ->
     controlConn c = Some controlConn_ ->
     exists data,
       EncodeFrame (Some (mkFrame FrameTypeCLOSE (ConnID frame) [])) = Ok data /\
       handleFrame c frame a
       = (set_connMap c (delete (ConnID frame) (connMap c)),
          [EvLoadAndDelete (ConnID frame) true; EvClose localConn;
           EvWrite controlConn_ data (write_ok a)], None)) /\
  (connMap c !! ConnID frame = None ->
   handleFrame c frame a = (c, [EvLoadAndDelete (ConnID frame) false], None)).
Proof.
  intros Hty. unfold handleFrame, handleCloseFrame, sendCloseFrame.
  rewrite Hty.
  change (Byte.eqb FrameTypeCLOSE FrameTypeNEW_CONN) with false.
  change (Byte.eqb FrameTypeCLOSE FrameTypeDATA) with false.
  change (Byte.eqb FrameTypeCLOSE FrameTypeCLOSE) with true. cbv iota.
  split.
  - intros localConn cc -> ->.
    destruct (EncodeFrame_Some (mkFrame FrameTypeCLOSE (ConnID frame) []))
      as [data Henc]. exists data. by rewrite Henc.
  - by intros ->.
Qed.

Lemma handleCloseFrame_contract_witness :
  let c := mkClient "127.0.0.1:80" (Some 1%nat) (<[7 := 4%nat]> ∅) in
  let a := mkAnswers (Ok 0%nat) None true in
  (exists data,
     EncodeFrame (Some (mkFrame FrameTypeCLOSE 7 [])) = Ok data /\
     handleFrame c (mkFrame FrameTypeCLOSE 7 []) a
     = (set_connMap c (delete 7 (connMap c)),
        [EvLoadAndDelete 7 true; EvClose 4%nat; EvWrite 1%nat data true], None)) /\
  handleFrame c (mkFrame FrameTypeCLOSE 8 []) a
  = (c, [EvLoadAndDelete 8 false], None).
Proof.
  cbv zeta. split.
  - apply (proj1 (handleCloseFrame_contract
                    (mkClient "127.0.0.1:80" (Some 1%nat) (<[7 := 4%nat]> ∅))
                    (mkFrame FrameTypeCLOSE 7 [])
                    (mkAnswers (Ok 0%nat) None true) eq_refl));
      reflexivity.
  - apply (proj2 (handleCloseFrame_contract
                    (mkClient "127.0.0.1:80" (Some 1%nat) (<[7 := 4%nat]> ∅))
                    (mkFrame FrameTypeCLOSE 8 [])
                    (mkAnswers (Ok 0%nat) None true) eq_refl)).
    reflexivity.
Defined.

(** C9, as it is worded, fails: a connected client that receives CLOSE for
    a stream it has no entry for (here stream 7, after its dial failed)
    writes nothing back. *)
Lemma close_without_entry_not_echoed :
  let c := mkClient "127.0.0.1:80" (Some 1%nat) ∅ in
  let out := handleFrame c (mkFrame FrameTypeCLOSE 7 [])
               (mkAnswers (Ok 0%nat) None true) in
  out = (c, [EvLoadAndDelete 7 false], None) /\
  Forall (fun e => forall conn data ok, e <> EvWrite conn data ok) out.1.2.
Proof.
  cbv zeta. split; [reflexivity|]. by repeat constructor.
Qed.

End ClientEngine.

Section CodecMore.
Import GoLib Proto FrameLoop.

Lemma frame_bytes_Ok (f : Frame) : EncodeFrame (Some f) = Ok (frame_bytes f).
Proof. unfold frame_bytes. by rewrite EncodeFrame_bytes. Qed.

Lemma DecodeFrame_frame_bytes (f : Frame) (rest : list byte) :
  well_formed f -> DecodeFrame (frame_bytes f ++ rest) = Ok (f, rest).
Proof.
  intros Hwf. destruct (DecodeFrame_EncodeFrame f rest Hwf) as (bs & Hbs & Hdec).
  rewrite frame_bytes_Ok in Hbs. by injection Hbs as <-.
Qed.

(** X1. What [DecodeFrame] does with a stream that ends too early: end of
    stream before the first byte is [io.EOF]; inside the header it is
    [io.ErrUnexpectedEOF]; right after a header that announces a payload it
    is [io.EOF] again, and inside the payload [io.ErrUnexpectedEOF]; a
    stream that holds the header and the announced payload is decoded. *)
Theorem DecodeFrame_short_read (header rest : list byte) :
  DecodeFrame [] = Err EOF /\
  ((0 < length header < 9)%nat -> DecodeFrame header = Err ErrUnexpectedEOF) /\
  (length header = 9%nat ->
   let n := Z.to_nat (Uint32 header 5) in
   (n <> 0%nat -> DecodeFrame header = Err EOF) /\
   ((0 < length rest < n)%nat ->
    DecodeFrame (header ++ rest) = Err ErrUnexpectedEOF) /\
   ((n <= length rest)%nat ->
    DecodeFrame (header ++ rest)
    = Ok (mkFrame (nth 0 header Byte.x00) (Uint32 header 1) (take n rest),
          drop n rest))).
Proof.
  split; [done|]. split.
  - intros Hlen. unfold DecodeFrame, ReadFull.
    destruct (Nat.leb_spec 9 (length header)); [lia|].
    destruct header; [cbn in Hlen; lia|done].
  - intros Hlen. cbv zeta.
    assert (Hhdr : forall k, ReadFull (header ++ k) 9 = Ok (header, k)).
    { intros k. rewrite <- Hlen. apply ReadFull_app. }
    pose proof (combine4_range (nth 5 header Byte.x00) (nth 6 header Byte.x00)
                  (nth 7 header Byte.x00) (nth 8 header Byte.x00)) as Hr.
    change (combine4 _ _ _ _) with (Uint32 header 5) in Hr.
    split_and!.
    + intros Hn. rewrite <- (app_nil_r header) at 1.
      unfold DecodeFrame. rewrite Hhdr.
      destruct (Z.ltb_spec 0 (Uint32 header 5)); [|lia].
      unfold ReadFull. destruct (Nat.leb_spec (Z.to_nat (Uint32 header 5)) (length (@nil byte)));
        [cbn in *; lia|done].
    + intros Hn. unfold DecodeFrame. rewrite Hhdr.
      destruct (Z.ltb_spec 0 (Uint32 header 5)); [|lia].
      unfold ReadFull.
      destruct (Nat.leb_spec (Z.to_nat (Uint32 header 5)) (length rest)); [lia|].
      destruct rest; [cbn in Hn; lia|done].
    + intros Hn. unfold DecodeFrame. rewrite Hhdr.
      destruct (Z.ltb_spec 0 (Uint32 header 5)) as [Hpos|Hzero].
      * unfold ReadFull.
        by destruct (Nat.leb_spec (Z.to_nat (Uint32 header 5)) (length rest));
          [|lia].
      * replace (Z.to_nat (Uint32 header 5)) with 0%nat by lia.
        by rewrite take_0, drop_0.
Qed.

Lemma DecodeFrame_short_read_witness :
  let header := [Byte.x02; Byte.x00; Byte.x00; Byte.x00; Byte.x07;
                 Byte.x00; Byte.x00; Byte.x00; Byte.x02] in
  DecodeFrame (take 3 header) = Err ErrUnexpectedEOF /\
  DecodeFrame header = Err EOF /\
  DecodeFrame (header ++ [Byte.x41]) = Err ErrUnexpectedEOF /\
  DecodeFrame (header ++ [Byte.x41; Byte.x42; Byte.x43])
  = Ok (mkFrame FrameTypeDATA 7 [Byte.x41; Byte.x42], [Byte.x43]).
Proof.
  cbv zeta.
  pose proof (DecodeFrame_short_read
                [Byte.x02; Byte.x00; Byte.x00] []) as (_ & H1 & _).
  pose proof (fun rest => DecodeFrame_short_read
                [Byte.x02; Byte.x00; Byte.x00; Byte.x00; Byte.x07;
                 Byte.x00; Byte.x00; Byte.x00; Byte.x02] rest) as H2.
  split_and!.
  - apply H1. simpl. lia.
  - apply (H2 []); [reflexivity|]. vm_compute. lia.
  - apply (H2 [Byte.x41]); [reflexivity|]. vm_compute. lia.
  - apply (H2 [Byte.x41; Byte.x42; Byte.x43]); [reflexivity|]. vm_compute. lia.
Defined.

Lemma frame_loop_fuel_frames (frames : list Frame) : forall fuel : nat,
  Forall well_formed frames -> (length frames < fuel)%nat ->
  frame_loop_fuel fuel (concat (map frame_bytes frames)) = (frames, EOF).
Proof.
  induction frames as [|f frames IH]; intros fuel Hwf Hfuel.
  - destruct fuel; [cbn in Hfuel; lia|done].
  - destruct fuel as [|fuel]; [cbn in Hfuel; lia|].
    apply Forall_cons in Hwf as [Hf Hwf].
    cbn [map concat frame_loop_fuel].
    rewrite DecodeFrame_frame_bytes by done.
    rewrite IH; [done|done|cbn in Hfuel; lia].
Qed.

Lemma length_frame_bytes (f : Frame) :
  length (frame_bytes f) = (9 + length (Payload f))%nat.
Proof.
  unfold frame_bytes. rewrite EncodeFrame_bytes. cbn [app length]. lia.
Qed.

Lemma length_concat_frame_bytes (frames : list Frame) :
  (length frames <= length (concat (map frame_bytes frames)))%nat.
Proof.
  induction frames as [|f frames IH]; [done|].
  cbn [map concat length]. rewrite length_app, length_frame_bytes. lia.
Qed.

(** X2. Frames delimit themselves: when the encodings of well-formed
    frames are written one after the other, the frame loop hands exactly
    these frames to the handlers, in the same order, and then stops with
    [io.EOF]. *)
Theorem frame_loop_frames (frames : list Frame) :
  Forall well_formed frames ->
  frame_loop (concat (map frame_bytes frames)) = (frames, EOF).
Proof.
  intros Hwf. unfold frame_loop. apply frame_loop_fuel_frames; [done|].
  pose proof (length_concat_frame_bytes frames). lia.
Qed.

Lemma frame_loop_frames_witness :
  let frames := [mkFrame FrameTypeNEW_CONN 1 [];
                 mkFrame FrameTypeDATA 1 [Byte.x68; Byte.x69];
                 mkFrame FrameTypeCLOSE 1 []] in
  frame_loop (concat (map frame_bytes frames)) = (frames, EOF).
Proof.
  cbv zeta. apply frame_loop_frames.
  repeat constructor; simpl; lia.
Defined.

(** X3. No encoding of a well-formed frame is the beginning of the
    encoding of another: if two encodings, each followed by any bytes,
    give the same byte sequence, the frames are the same and so are the
    bytes that follow. *)
Theorem EncodeFrame_prefix_free (f g : Frame) (r1 r2 : list byte) :
  well_formed f -> well_formed g ->
  frame_bytes f ++ r1 = frame_bytes g ++ r2 -> f = g /\ r1 = r2.
Proof.
  intros Hf Hg Heq.
  pose proof (DecodeFrame_frame_bytes f r1 Hf) as H1.
  pose proof (DecodeFrame_frame_bytes g r2 Hg) as H2.
  rewrite Heq, H2 in H1. by injection H1 as -> ->.
Qed.

Lemma EncodeFrame_prefix_free_witness :
  mkFrame FrameTypeDATA 1 [] = mkFrame FrameTypeDATA 1 [] /\
  [Byte.x41] = [Byte.x41].
Proof.
  apply (EncodeFrame_prefix_free (mkFrame FrameTypeDATA 1 [])
           (mkFrame FrameTypeDATA 1 []) [Byte.x41] [Byte.x41]).
  - unfold well_formed. simpl. lia.
  - unfold well_formed. simpl. lia.
  - reflexivity.
Defined.

(** X4. [EncodeFrame] does not check the length of the payload: for every
    frame the result has 9 + len(payload) bytes, and the length written
    into the header is len(payload) modulo 2^32. *)
Theorem EncodeFrame_length_field (f : Frame) :
  exists data,
    EncodeFrame (Some f) = Ok data /\
    length data = (9 + length (Payload f))%nat /\
    be_value (take 4 (drop 5 data))
    = Z.of_nat (length (Payload f)) mod 2 ^ 32.
Proof.
  eexists. split; [apply EncodeFrame_bytes|]. split.
  - cbn [app length]. lia.
  - cbv zeta. cbn [app drop take skipn firstn].
    apply be_value_split. unfold uint32. apply Z.mod_pos_bound. lia.
Qed.

End CodecMore.

Section InitConfigMore.
Import GoLib Proto InitText.

Lemma EncodeInitConfig_round_trip (c : InitConfig) :
  in_int (RemotePort c) = true -> DecodeInitConfig (EncodeInitConfig c) = Ok c.
Proof.
  intros Hc. destruct (Itoa_decimal _ Hc) as (Hdec & Hval & Hcol).
  unfold EncodeInitConfig. rewrite DecodeInitConfig_colon by done.
  rewrite Atoi_Ok by (by rewrite ?Hval). rewrite Hval. by destruct c.
Qed.

(** X5. Whatever [DecodeInitConfig] accepts, [EncodeInitConfig] writes back
    in a form that decodes to the same configuration; the port it returns
    always fits an [int]. *)
Theorem DecodeInitConfig_canonical (data : list byte) (c : InitConfig) :
  DecodeInitConfig data = Ok c ->
  in_int (RemotePort c) = true /\
  DecodeInitConfig (EncodeInitConfig c) = Ok c.
Proof.
  intros H.
  assert (Hint : in_int (RemotePort c) = true).
  { unfold DecodeInitConfig in H. destruct (negb _); [done|].
    destruct (Atoi _) as [z|] eqn:Hz; [|done].
    apply Atoi_inv in Hz as (_ & _ & Hz). by injection H as <-. }
  split; [done|]. by apply EncodeInitConfig_round_trip.
Qed.

Lemma DecodeInitConfig_canonical_witness :
  DecodeInitConfig
    (EncodeInitConfig (mkInitConfig 80 "127.0.0.1:8080"))
  = Ok (mkInitConfig 80 "127.0.0.1:8080").
Proof.
  apply (DecodeInitConfig_canonical
           (list_byte_of_string "+0080:127.0.0.1:8080")
           (mkInitConfig 80 "127.0.0.1:8080")).
  reflexivity.
Defined.

End InitConfigMore.

Section PQCTransportMore.
Import GoLib PQCTLS PQCContext.

Lemma handshake_fails (what : string) (c : Conn) (env : Env)
    (wants : list LibCall) (bad : LibCall) (rest : list LibCall) :
  Forall (fun call => ret call <= 0 /\ want (SSL_get_error call) = true) wants ->
  ret bad <= 0 -> want (SSL_get_error bad) = false ->
  handshake what c env (wants ++ bad :: rest)
  = Some (Err (ErrorString
                 ("SSL " +:+ what +:+ " failed: error code " +:+
                  Itoa (SSL_get_error bad) +:+ ", " +:+
                  errMsg (error_queue env))),
          [SSL_free; conn_Close c]).
Proof.
  intros Hwants Hret Hbad. induction Hwants as [|w wants [Hw Hwant] _ IH].
  - cbn [app handshake]. destruct (Z.ltb_spec 0 (ret bad)); [lia|].
    by rewrite Hbad.
  - cbn [app handshake]. destruct (Z.ltb_spec 0 (ret w)); [lia|].
    by rewrite Hwant.
Qed.

(** X6. When the handshake of [Accept] or of [Dial] meets an error that is
    not a want-read or a want-write, the session is freed, the socket is
    closed and the error returned names the operation and the error code,
    followed by the text of the last entry of the library's error queue, or
    by "unknown error" when the queue is empty. *)
Theorem handshake_failure (env : Env) (c : Conn) (wants : list LibCall)
    (bad : LibCall) (rest : list LibCall) :
  set_up env c ->
  handshake_calls env = wants ++ bad :: rest ->
  Forall (fun call => ret call <= 0 /\ want (SSL_get_error call) = true) wants ->
  ret bad <= 0 -> want (SSL_get_error bad) = false ->
  Accept env
  = Some (Err (ErrorString
                 ("SSL accept failed: error code " +:+
                  Itoa (SSL_get_error bad) +:+ ", " +:+
                  errMsg (error_queue env))),
          [SSL_free; conn_Close c]) /\
  Dial env
  = Some (Err (ErrorString
                 ("SSL connect failed: error code " +:+
                  Itoa (SSL_get_error bad) +:+ ", " +:+
                  errMsg (error_queue env))),
          [SSL_free; conn_Close c]) /\
  (error_queue env = [] -> errMsg (error_queue env) = "unknown error"%string).
Proof.
  intros (Hc & Hsys & Hctl & Hnew & Hfd) Hcalls Hwants Hret Hbad.
  unfold Accept, Dial, establish. rewrite Hc, Hsys, Hctl, Hnew. cbn [negb].
  destruct (Z.leb_spec (SSL_set_fd env) 0); [lia|].
  rewrite Hcalls, !handshake_fails by done.
  split_and!; [done|done|]. by intros ->.
Qed.

Lemma handshake_failure_witness :
  let env := mkEnv (Ok 3%nat) None None true 1
               [mkLibCall (-1) SSL_ERROR_WANT_READ; mkLibCall (-1) SSL_ERROR_SSL]
               (mkSSL 0 None) ["error:0A000410:SSL routines::handshake failure"%string] in
  Accept env
  = Some (Err (ErrorString
                 "SSL accept failed: error code 1, error:0A000410:SSL routines::handshake failure"),
          [SSL_free; conn_Close 3%nat]).
Proof.
  cbv zeta.
  refine (proj1 (handshake_failure
            (mkEnv (Ok 3%nat) None None true 1
               [mkLibCall (-1) SSL_ERROR_WANT_READ; mkLibCall (-1) SSL_ERROR_SSL]
               (mkSSL 0 None) ["error:0A000410:SSL routines::handshake failure"%string])
            3%nat [mkLibCall (-1) SSL_ERROR_WANT_READ]
            (mkLibCall (-1) SSL_ERROR_SSL) [] _ _ _ _ _)).
  - unfold set_up. simpl. repeat split.
  - reflexivity.
  - constructor; [|constructor]. simpl. split; [lia|reflexivity].
  - simpl. lia.
  - reflexivity.
Defined.

Lemma handshake_safe (what : string) (c : Conn) (env : Env)
    (calls : list LibCall) (r : result PQCConn) (effs : list Effect) :
  handshake what c env calls = Some (r, effs) ->
  match r with
  | Ok pc => effs = [] /\ pc = mkPQCConn c (Some (session env)) /\
             pqc_accepted (session env) = true
  | Err _ => effs = [SSL_free; conn_Close c]
  end.
Proof.
  induction calls as [|call calls IH]; [done|].
  cbn [handshake]. destruct (0 <? ret call).
  - rewrite verify_pqc_algorithms_accepted.
    destruct (pqc_accepted (session env)); cbn; by intros [= <- <-].
  - destruct (want (SSL_get_error call)); [done|]. by intros [= <- <-].
Qed.

(** X7. Whatever the operating system and the library answer, [Accept] and
    [Dial] either return a connection, and then they have closed and freed
    nothing, the connection is the socket they obtained with the session
    of the handshake, and that session passes the key-exchange check; or
    they return an error, and then the socket they obtained is closed (it
    is the last thing they do) and the session, if one was created, is
    freed first. *)
Theorem establish_no_leak (env : Env) (c : Conn) (r : result PQCConn)
    (effs : list Effect) :
  base_conn env = Ok c ->
  Accept env = Some (r, effs) \/ Dial env = Some (r, effs) ->
  match r with
  | Ok pc => effs = [] /\ pc = mkPQCConn c (Some (session env)) /\
             pqc_accepted (session env) = true
  | Err _ =>
      (effs = [conn_Close c] /\
       (SyscallConn_err env <> None \/ Control_err env <> None \/
        SSL_new_ok env = false)) \/
      (effs = [SSL_free; conn_Close c] /\ SSL_new_ok env = true)
  end.
Proof.
  intros Hc H.
  assert (H' : exists what, establish what env = Some (r, effs)).
  { destruct H; by eexists. }
  clear H. destruct H' as [what H]. unfold establish in H. rewrite Hc in H.
  destruct (SyscallConn_err env) as [e1|]; [injection H as <- <-; by eauto|].
  destruct (Control_err env) as [e2|]; [injection H as <- <-; by eauto|].
  destruct (SSL_new_ok env); cbn [negb] in H;
    [|injection H as <- <-; by eauto].
  destruct (SSL_set_fd env <=? 0); [injection H as <- <-; by eauto|].
  apply handshake_safe in H. destruct r; [done|by right].
Qed.

Lemma establish_no_leak_witness :
  exists pc,
    Accept (env_with 513 "MLKEM768") = Some (Ok pc, []) /\
    pqc_accepted (session (env_with 513 "MLKEM768")) = true.
Proof.
  exists (mkPQCConn 3%nat (Some (mkSSL 513 (Some "MLKEM768"%string)))).
  split; [reflexivity|].
  apply (establish_no_leak (env_with 513 "MLKEM768") 3%nat
           (Ok (mkPQCConn 3%nat (Some (mkSSL 513 (Some "MLKEM768"%string))))) []).
  - reflexivity.
  - left. reflexivity.
Defined.

(** X8. [Read] and [Write] call the library at most once, and not at all
    when the connection is closed or the buffer is empty; the count they
    return is never negative, and it is 0 whenever they return an error
    ([io.EOF] for a clean shutdown of the peer included). *)
Theorem transfer_shape (c : PQCConn) (len_b : nat) (calls rest : list LibCall)
    (n : Z) (err : option error) :
  Read c len_b calls = Some ((n, err), rest) \/
  Write c len_b calls = Some ((n, err), rest) ->
  (rest = calls /\ (ssl c = None \/ len_b = 0%nat) \/
   exists call, calls = call :: rest /\ ssl c <> None /\ len_b <> 0%nat /\
     (err = Some EOF <->
      ret call <= 0 /\ SSL_get_error call = SSL_ERROR_ZERO_RETURN)) /\
  0 <= n /\ (err <> None -> n = 0).
Proof.
  intros H.
  assert (H' : exists what, transfer what c len_b calls = Some ((n, err), rest)).
  { destruct H; by eexists. }
  clear H. destruct H' as [what H]. unfold transfer in H.
  destruct (ssl c) as [s|] eqn:Hs.
  2: { injection H as <- <- <-. split_and!; [|done..]. left. by eauto. }
  destruct len_b as [|len_b]; cbn [Nat.eqb] in H.
  1: { injection H as <- <- <-. split_and!; [|done..]. left. by eauto. }
  destruct calls as [|call calls]; [done|].
  destruct (Z.leb_spec (ret call) 0) as [Hle|Hgt].
  - destruct (Z.eqb_spec (SSL_get_error call) SSL_ERROR_ZERO_RETURN) as [Hz|Hz].
    + injection H as <- <- <-. split_and!; [|done..]. right. exists call.
      split_and!; [reflexivity|discriminate|discriminate|]. by split.
    + destruct (want (SSL_get_error call)); injection H as <- <- <-;
        (split_and!; [|done..]); right; exists call;
        (split_and!; [reflexivity|discriminate|discriminate|]);
        (split; [done|]); by intros [_ ?].
  - injection H as <- <- <-. split_and!; [|lia|done]. right. exists call.
    split_and!; [reflexivity|discriminate|discriminate|].
    split; [done|]. intros [? _]. lia.
Qed.

Lemma transfer_shape_witness :
  0 <= 5 /\ (@None error <> None -> 5 = 0).
Proof.
  apply (transfer_shape (mkPQCConn 3%nat (Some (mkSSL 513 None))) 8
           [mkLibCall 5 0] [] 5 None).
  left. reflexivity.
Defined.

(** X9. After [Close] the connection has no session: [Read] and [Write]
    fail with "SSL connection not established" without calling the
    library, and a second [Close] shuts down and frees nothing, it only
    closes the socket again. *)
Theorem Close_then (c : PQCConn) (err err' : option error) (len_b : nat)
    (calls : list LibCall) :
  let c1 := (Close c err).1.1 in
  ssl c1 = None /\ conn c1 = conn c /\
  Read c1 len_b calls
  = Some ((0, Some (ErrorString "SSL connection not established")), calls) /\
  Write c1 len_b calls
  = Some ((0, Some (ErrorString "SSL connection not established")), calls) /\
  Close c1 err' = (c1, [socket_Close (conn c)], err') /\
  (ssl c <> None ->
   (Close c err).1.2 = [SSL_shutdown; SSL_free_session; socket_Close (conn c)]).
Proof.
  cbv zeta. unfold Close, Read, Write, transfer.
  destruct (ssl c) as [s|] eqn:Hs; cbn; rewrite ?Hs; by split_and!.
Qed.

End PQCTransportMore.

Section PQCContexts.
Import GoLib PQCTLS PQCContext.

Local Ltac ctx_cases H :=
  repeat match type of H with
         | context [if ?b then _ else _] => destruct b eqn:?
         | context [match ?o with Some _ => _ | None => _ end] => destruct o
         end;
  first [discriminate H | injection H as <-];
  repeat match goal with
         | E : (_ <=? _) = false |- _ => apply Z.leb_gt in E
         end.

Lemma create_ctx_returned (cert key : string) (ca ccert ckey cca : option string)
    (a : CtxAnswers) (effs : list CtxEffect) :
  create_server_ctx cert key ca a = (true, effs) \/
  create_client_ctx ccert ckey cca a = (true, effs) ->
  0 < groups_ret a /\ 0 < sigalgs_ret a /\ take 4 effs = pqc_settings /\
  Forall (fun e => e <> SSL_CTX_free) effs /\
  exists mode, drop (length effs - 2) effs = [set_verify mode; set_verify_depth 1] /\
               Z.testbit mode 0 = true.
Proof.
  unfold create_server_ctx, create_client_ctx, fail.
  intros [H|H]; destruct (SSL_CTX_new_ok a); cbn [negb] in H; try done;
    ctx_cases H; cbn [app];
    (split_and!; [lia|lia|reflexivity|by repeat constructor|]);
    eexists; (split; [reflexivity|reflexivity]).
Qed.

Lemma create_ctx_refused (cert key : string) (ca ccert ckey cca : option string)
    (a : CtxAnswers) (effs : list CtxEffect) :
  create_server_ctx cert key ca a = (false, effs) \/
  create_client_ctx ccert ckey cca a = (false, effs) ->
  SSL_CTX_new_ok a = true ->
  exists before, effs = before ++ [SSL_CTX_free] /\
    Forall (fun e => e <> SSL_CTX_free /\ forall mode, e <> set_verify mode)
           before.
Proof.
  unfold create_server_ctx, create_client_ctx, fail.
  intros [H|H] Hnew; rewrite Hnew in H; cbn [negb] in H; ctx_cases H;
    match goal with
    | |- exists before, ?l = _ /\ _ => exists (removelast l)
    end; (split; [reflexivity|]); cbn; by repeat constructor.
Qed.

(** X10. There is no permissive mode when a context is built, for the
    server or for the client: a context is returned only if the library
    accepted both the list of key-exchange groups and the list of signature
    algorithms, it is pinned to TLS 1.3, verifies the peer with depth 1 and
    is never freed; and when any step fails, nothing more is configured
    (verification is never switched on) and the context is freed, last of
    all. *)
Theorem create_ctx_strict (cert key : string) (ca ccert ckey cca : option string)
    (a : CtxAnswers) (returned : bool) (effs : list CtxEffect) :
  create_server_ctx cert key ca a = (returned, effs) \/
  create_client_ctx ccert ckey cca a = (returned, effs) ->
  if returned then
    0 < groups_ret a /\ 0 < sigalgs_ret a /\ take 4 effs = pqc_settings /\
    Forall (fun e => e <> SSL_CTX_free) effs /\
    exists mode,
      drop (length effs - 2) effs = [set_verify mode; set_verify_depth 1] /\
      Z.testbit mode 0 = true
  else
    SSL_CTX_new_ok a = true ->
    exists before, effs = before ++ [SSL_CTX_free] /\
      Forall (fun e => e <> SSL_CTX_free /\ forall mode, e <> set_verify mode)
             before.
Proof.
  intros H. destruct returned.
  - by eapply create_ctx_returned.
  - by eapply create_ctx_refused.
Qed.

Lemma create_ctx_strict_witness :
  exists before,
    (create_server_ctx "server.crt" "server.key" (Some "ca.crt"%string)
       (mkCtxAnswers true 1 0 1 1 1 1)).2 = before ++ [SSL_CTX_free] /\
    Forall (fun e => e <> SSL_CTX_free /\ forall mode, e <> set_verify mode)
           before.
Proof.
  apply (create_ctx_strict "server.crt" "server.key" (Some "ca.crt"%string)
           None None None (mkCtxAnswers true 1 0 1 1 1 1) false).
  - left. reflexivity.
  - reflexivity.
Defined.

(** X11. [NewPQCListenerOpenSSL] and [NewPQCDialerOpenSSL] look at the files
    first: when a file they need does not exist they return an error
    without building a context (for the dialer and for the CA file of the
    listener, an empty path is not looked at); and when they return a
    listener or a dialer, both algorithm lists have been accepted. *)
Theorem constructors_check_files (missing : string -> bool)
    (certFile keyFile caFile : string) (a : CtxAnswers) :
  let required (file : string) := negb (String.eqb file EmptyString) && missing file in
  (missing certFile || missing keyFile || required caFile = true ->
   exists msg, NewPQCListenerOpenSSL missing certFile keyFile caFile a
               = (Err (ErrorString msg), [])) /\
  (required certFile || required keyFile || required caFile = true ->
   exists msg, NewPQCDialerOpenSSL missing certFile keyFile caFile a
               = (Err (ErrorString msg), [])) /\
  ((NewPQCListenerOpenSSL missing certFile keyFile caFile a).1 = Ok tt \/
   (NewPQCDialerOpenSSL missing certFile keyFile caFile a).1 = Ok tt ->
   0 < groups_ret a /\ 0 < sigalgs_ret a).
Proof.
  cbv zeta. unfold NewPQCListenerOpenSSL, NewPQCDialerOpenSSL. split_and!.
  - intros H. destruct (missing certFile); [by eauto|].
    destruct (missing keyFile); [by eauto|].
    cbn [orb] in H. rewrite H. by eauto.
  - intros H.
    destruct (negb (String.eqb certFile EmptyString) && missing certFile);
      [by eauto|].
    destruct (negb (String.eqb keyFile EmptyString) && missing keyFile);
      [by eauto|].
    cbn [orb] in H. rewrite H. by eauto.
  - intros [H|H].
    + destruct (missing certFile); [done|]. destruct (missing keyFile); [done|].
      destruct (_ && _); [done|].
      destruct (create_server_ctx _ _ _ _) as [[] effs] eqn:Hctx; [|done].
      destruct (create_ctx_returned _ _ _ None None None _ _ (or_introl Hctx))
        as (? & ? & _). done.
    + destruct (_ && _); [done|]. destruct (_ && _); [done|].
      destruct (_ && _); [done|].
      destruct (create_client_ctx _ _ _ _) as [[] effs] eqn:Hctx; [|done].
      destruct (create_ctx_returned EmptyString EmptyString None _ _ _ _ _
                  (or_intror Hctx)) as (? & ? & _). done.
Qed.

Lemma constructors_check_files_witness :
  exists msg,
    NewPQCListenerOpenSSL (fun file => String.eqb file "server.key")
      "server.crt" "server.key" "" (mkCtxAnswers true 1 1 1 1 1 1)
    = (Err (ErrorString msg), []).
Proof.
  apply (proj1 (constructors_check_files
                  (fun file => String.eqb file "server.key")
                  "server.crt" "server.key" "" (mkCtxAnswers true 1 1 1 1 1 1))).
  reflexivity.
Defined.

End PQCContexts.

Section ServerSessions.
Import GoLib GoRuntime Proto Trace Server ServerFrames.

Lemma sendCloseFrame_quiet (ci : option ClientInfo) (connID : Z) (ok : bool) :
  Forall (fun e => opens_stream e = false) (sendCloseFrame ci connID ok) /\
  listeners_opened (sendCloseFrame ci connID ok) = 0%nat /\
  forall k, Forall (fun e => finds k e = false) (sendCloseFrame ci connID ok).
Proof.
  unfold sendCloseFrame. destruct ci; [|by repeat constructor].
  destruct (EncodeFrame _); by repeat constructor.
Qed.

Lemma session_frame_shrinks (global : bool) (ci : ClientInfo) (frame : Frame)
    (a : FrameAnswers) :
  ConnMap (session_frame global ci frame a).1 ⊆ ConnMap ci /\
  NextConnID (session_frame global ci frame a).1 = NextConnID ci /\
  Conn (session_frame global ci frame a).1 = Conn ci /\
  Forall (fun e => opens_stream e = false) (session_frame global ci frame a).2.
Proof.
  pose proof (delete_subseteq (ConnMap ci) (ConnID frame)) as Hdel.
  unfold session_frame, session_init, session_data, session_close.
  repeat match goal with
  | |- context [sendCloseFrame ?c ?k ?ok] =>
      let H := fresh in
      destruct (sendCloseFrame_quiet c k ok) as (H & _ & _);
      generalize dependent (sendCloseFrame c k ok); intros
  | |- context [if ?b then _ else _] => destruct b
  | |- context [match ?x with _ => _ end] => destruct x
  end; cbn; split_and!; try done; repeat constructor; done.
Qed.

Lemma session_frames_shrinks (global : bool) (frames : list Frame)
    (answers : nat -> FrameAnswers) : forall (ci : ClientInfo) (from : nat),
  ConnMap (session_frames global ci frames answers from).1 ⊆ ConnMap ci /\
  NextConnID (session_frames global ci frames answers from).1 = NextConnID ci /\
  Conn (session_frames global ci frames answers from).1 = Conn ci /\
  Forall (fun e => opens_stream e = false)
         (session_frames global ci frames answers from).2.
Proof.
  induction frames as [|frame frames IH]; intros ci from; cbn [session_frames].
  { by split_and!. }
  destruct (session_frame_shrinks global ci frame (answers from))
    as (Hm & Hn & Hc & Hevs).
  destruct (session_frame global ci frame (answers from)) as [ci1 evs1].
  destruct (IH ci1 (S from)) as (Hm' & Hn' & Hc' & Hevs').
  destruct (session_frames global ci1 frames answers (S from)) as [ci2 evs2].
  cbn [fst snd] in *. split_and!.
  - by etrans.
  - congruence.
  - congruence.
  - by apply Forall_app.
Qed.

(** X12.  Whatever bytes a client sends on its control connection, the
    frames the server decodes from them open no stream: the stream table
    of the session only loses entries, its counter of stream ids keeps
    its value, and no id is allocated, no entry stored and no reader task
    started. *)
Theorem inbound_frames_open_nothing (global : bool) (ci : ClientInfo)
    (r : list byte) (answers : nat -> FrameAnswers) :
  ConnMap (handleFramesFromClient global ci r answers).1 ⊆ ConnMap ci /\
  NextConnID (handleFramesFromClient global ci r answers).1 = NextConnID ci /\
  Forall (fun e => opens_stream e = false)
         (handleFramesFromClient global ci r answers).2 /\
  last (handleFramesFromClient global ci r answers).2 = Some (EvClose (Conn ci)).
Proof.
  unfold handleFramesFromClient.
  destruct (FrameLoop.frame_loop r) as [frames err].
  destruct (session_frames_shrinks global frames answers ci 0)
    as (Hm & Hn & Hc & Hevs).
  destruct (session_frames global ci frames answers 0) as [ci' evs].
  cbn [fst snd] in *. split_and!; try done.
  - apply Forall_app. split; [done|]. by repeat constructor.
  - rewrite last_snoc. by rewrite Hc.
Qed.

Lemma session_frame_absent (global : bool) (ci : ClientInfo) (frame : Frame)
    (a : FrameAnswers) (k : Z) :
  ConnMap ci !! k = None ->
  Forall (fun e => finds k e = false) (session_frame global ci frame a).2.
Proof.
  intros Hk.
  assert (forall sock, ConnMap ci !! ConnID frame = Some sock ->
                       (ConnID frame =? k) = false) as Hne.
  { intros sock Hs. apply Z.eqb_neq. intros Heq. rewrite Heq in Hs. congruence. }
  unfold session_frame, session_init, session_data, session_close.
  destruct (ConnMap ci !! ConnID frame) as [sock|] eqn:Hs;
    [specialize (Hne sock eq_refl)|clear Hne];
  repeat match goal with
  | |- context [sendCloseFrame ?c ?k' ?ok] =>
      let H := fresh in
      destruct (sendCloseFrame_quiet c k' ok) as (_ & _ & H);
      specialize (H k);
      generalize dependent (sendCloseFrame c k' ok); intros
  | |- context [if ?b then _ else _] => destruct b
  | |- context [match ?x with _ => _ end] => destruct x
  end; cbn; repeat constructor; done.
Qed.

(** X13.  A stream the client has closed stays closed: after the CLOSE
    frame of a stream is handled its id is not in the table, and whatever
    frames the client sends afterwards, no look-up of that id finds a
    socket again, so no DATA frame of the stream reaches a socket. *)
Theorem closed_stream_stays_closed (global : bool) (ci : ClientInfo)
    (frame : Frame) (frames : list Frame) (answers : nat -> FrameAnswers)
    (from : nat) :
  let closed := (session_close ci frame).1 in
  ConnMap closed !! ConnID frame = None /\
  ConnMap (session_frames global closed frames answers from).1 !! ConnID frame
    = None /\
  Forall (fun e => finds (ConnID frame) e = false)
         (session_frames global closed frames answers from).2.
Proof.
  intros closed.
  assert (ConnMap closed !! ConnID frame = None) as Hclosed.
  { unfold closed, session_close.
    destruct (ConnMap ci !! ConnID frame) eqn:Hs; cbn; [|done].
    apply lookup_delete_eq. }
  split; [done|]. clearbody closed. clear ci.
  revert closed from Hclosed.
  induction frames as [|f frames IH]; intros ci from Hk; cbn [session_frames].
  { by split. }
  pose proof (session_frame_absent global ci f (answers from) _ Hk) as Hevs.
  destruct (session_frame_shrinks global ci f (answers from)) as (Hm & _).
  destruct (session_frame global ci f (answers from)) as [ci1 evs1].
  cbn [fst snd] in *.
  assert (ConnMap ci1 !! ConnID frame = None) as Hk1.
  { by eapply lookup_weaken_None. }
  destruct (IH ci1 (S from) Hk1) as (Hk2 & Hevs2).
  destruct (session_frames global ci1 frames answers (S from)) as [ci2 evs2].
  cbn [fst snd] in *. split; [done|]. by apply Forall_app.
Qed.

Lemma session_frame_listener (global : bool) (ci : ClientInfo) (frame : Frame)
    (a : FrameAnswers) :
  (listeners_opened (session_frame global ci frame a).2 <=
     match PublicListener ci with Some _ => 0 | None => 1 end)%nat /\
  (global = true -> listeners_opened (session_frame global ci frame a).2 = 0%nat) /\
  (forall l, PublicListener ci = Some l ->
             PublicListener (session_frame global ci frame a).1 = Some l) /\
  (listeners_opened (session_frame global ci frame a).2 = 1%nat ->
   is_Some (PublicListener (session_frame global ci frame a).1)).
Proof.
  unfold session_frame, session_init, session_data, session_close.
  destruct ci as [id conn m n la rp pl]. cbn [PublicListener].
  destruct global, pl;
  repeat match goal with
  | |- context [sendCloseFrame ?c ?k' ?ok] =>
      let H := fresh in
      destruct (sendCloseFrame_quiet c k' ok) as (_ & H & _);
      generalize dependent (sendCloseFrame c k' ok); intros
  | |- context [if ?b then _ else _] => destruct b
  | |- context [match ?x with _ => _ end] => destruct x
  end; cbn; split_and!; intros; try done; try lia; try by eexists.
Qed.

(** X14.  A session opens at most one public listener.  While the frames
    of a client are handled, [net.Listen] succeeds at most once; a session
    that has a listener keeps it and never listens again, although later
    INIT frames still overwrite its port; and a server with a public
    address of its own never listens for a client. *)
Theorem one_listener_per_session (global : bool) (frames : list Frame)
    (answers : nat -> FrameAnswers) (ci : ClientInfo) (from : nat) :
  (listeners_opened (session_frames global ci frames answers from).2 <=
     match PublicListener ci with Some _ => 0 | None => 1 end)%nat /\
  (global = true ->
   listeners_opened (session_frames global ci frames answers from).2 = 0%nat) /\
  (forall l, PublicListener ci = Some l ->
     PublicListener (session_frames global ci frames answers from).1 = Some l).
Proof.
  revert ci from.
  induction frames as [|f frames IH]; intros ci from; cbn [session_frames].
  { cbn. split_and!; try done. destruct (PublicListener ci); lia. }
  destruct (session_frame_listener global ci f (answers from))
    as (Hle & Hg & Hkeep & Hnew).
  destruct (session_frame global ci f (answers from)) as [ci1 evs1].
  destruct (IH ci1 (S from)) as (Hle' & Hg' & Hkeep').
  destruct (session_frames global ci1 frames answers (S from)) as [ci2 evs2].
  cbn [fst snd] in *.
  assert (forall a b, listeners_opened (a ++ b)
                      = (listeners_opened a + listeners_opened b)%nat) as Happ.
  { clear. induction a as [|[] a IHa]; intros b; cbn; try done.
    destruct ok; cbn; by rewrite ?IHa. }
  rewrite Happ. split_and!.
  - destruct (PublicListener ci) as [l|] eqn:Hl.
    + rewrite (Hkeep l eq_refl) in Hle'. lia.
    + destruct (decide (listeners_opened evs1 = 1%nat)) as [H1|H1].
      * destruct (Hnew H1) as [l Hl1]. rewrite Hl1 in Hle'. lia.
      * destruct (PublicListener ci1); lia.
  - intros Hglobal. rewrite Hg, Hg'; done.
  - intros l Hl. apply Hkeep', Hkeep, Hl.
Qed.

End ServerSessions.

Section Registry.
Import GoLib GoRuntime Proto Trace Server ServerFrames InitText.

Lemma Itoa_inj (a b : Z) :
  in_int a = true -> in_int b = true -> Itoa a = Itoa b -> a = b.
Proof.
  intros Ha Hb Heq.
  destruct (Itoa_decimal a Ha) as (_ & Hva & _).
  destruct (Itoa_decimal b Hb) as (_ & Hvb & _).
  rewrite <- Hva, <- Hvb. by rewrite Heq.
Qed.

Lemma in_int_uint32 (n : Z) : 0 <= n < 2 ^ 32 -> in_int n = true.
Proof.
  intros Hn. unfold in_int, min_int, max_int. apply andb_true_iff.
  split; apply Z.leb_le; lia.
Qed.

Lemma client_name_inj (a b : Z) :
  0 <= a < 2 ^ 32 -> 0 <= b < 2 ^ 32 ->
  ("client-" +:+ Itoa a)%string = ("client-" +:+ Itoa b)%string -> a = b.
Proof.
  intros Ha Hb Heq. apply Itoa_inj; [by apply in_int_uint32..|].
  cbn [String.append] in Heq. by injection Heq.
Qed.

Lemma register_all_spec (conns : list Sock) : forall s : Server.Server,
  0 <= nextClientID s -> nextClientID s + Z.of_nat (length conns) < 2 ^ 32 ->
  (forall id, id ∈ (register_all s conns).1 ->
     exists n, id = ("client-" +:+ Itoa n)%string /\
               nextClientID s < n <= nextClientID s + Z.of_nat (length conns)) /\
  NoDup (register_all s conns).1 /\
  length (register_all s conns).1 = length conns /\
  (forall id, id ∉ (register_all s conns).1 ->
     clients (register_all s conns).2 !! id = clients s !! id) /\
  (forall i id conn, (register_all s conns).1 !! i = Some id ->
     conns !! i = Some conn ->
     clients (register_all s conns).2 !! id = Some (new_session id conn)).
Proof.
  induction conns as [|conn conns IH]; intros s Hlo Hhi; cbn [register_all].
  { cbn. split_and!; try done.
    - intros id Hid. by apply elem_of_nil in Hid.
    - constructor. }
  cbn [length] in Hhi.
  unfold registerClient.
  assert (AddUint32 (nextClientID s) 1 = nextClientID s + 1) as Hadd.
  { unfold AddUint32. apply Z.mod_small. lia. }
  rewrite Hadd.
  set (id0 := ("client-" +:+ Itoa (nextClientID s + 1))%string).
  set (s1 := mkServer _ _ _).
  destruct (IH s1) as (Hids & Hnd & Hlen & Hother & Hmine);
    [cbn; lia|cbn; lia|].
  destruct (register_all s1 conns) as [ids s2]. cbn [fst snd] in *.
  change (nextClientID s1) with (nextClientID s + 1) in Hids.
  assert (id0 ∉ ids) as Hfresh.
  { intros Hin. destruct (Hids _ Hin) as (n & Hn & Hrange).
    apply client_name_inj in Hn; lia. }
  cbn [length]. split_and!.
  - intros id [->|Hin]%elem_of_cons.
    + exists (nextClientID s + 1). split; [done|lia].
    + destruct (Hids _ Hin) as (n & Hn & Hrange). exists n. split; [done|lia].
  - by constructor.
  - by rewrite Hlen.
  - intros id [Hne Hnin]%not_elem_of_cons.
    rewrite (Hother _ Hnin). cbn. by rewrite lookup_insert_ne.
  - intros [|i] id c Hi Hc; cbn in Hi, Hc.
    + injection Hi as <-. injection Hc as <-.
      rewrite (Hother _ Hfresh). cbn. by rewrite lookup_insert_eq.
    + by eapply Hmine.
Qed.

(** X15.  Clients that register one after the other get ids that differ,
    as long as the counter of 32 bits does not wrap around: each id is
    [client-N] for the next value of the counter, the registry then holds
    for every id a fresh session with the connection of that client, and
    the sessions of other ids are left as they were. *)
Theorem registered_ids_distinct (s : Server.Server) (conns : list Sock) :
  0 <= nextClientID s -> nextClientID s + Z.of_nat (length conns) < 2 ^ 32 ->
  NoDup (register_all s conns).1 /\
  (forall i id conn, (register_all s conns).1 !! i = Some id ->
     conns !! i = Some conn ->
     id = ("client-" +:+ Itoa (nextClientID s + 1 + Z.of_nat i))%string /\
     clients (register_all s conns).2 !! id = Some (new_session id conn)) /\
  (forall id, id ∉ (register_all s conns).1 ->
     clients (register_all s conns).2 !! id = clients s !! id).
Proof.
  intros Hlo Hhi.
  destruct (register_all_spec conns s Hlo Hhi) as (_ & Hnd & _ & Hother & Hmine).
  split_and!; [done| |done].
  intros i id conn Hi Hc. split; [|by eapply Hmine].
  clear Hnd Hother Hmine. revert s i Hlo Hhi Hi Hc.
  induction conns as [|c conns IH]; intros s i Hlo Hhi Hi Hc; [done|].
  cbn [register_all length] in Hi, Hhi. unfold registerClient in Hi.
  assert (AddUint32 (nextClientID s) 1 = nextClientID s + 1) as Hadd.
  { unfold AddUint32. apply Z.mod_small. lia. }
  rewrite Hadd in Hi.
  set (s1 := mkServer _ _ _) in Hi.
  specialize (IH s1).
  destruct (register_all s1 conns) as [ids s2]. cbn [fst snd] in *.
  destruct i as [|i]; cbn in Hi, Hc.
  - injection Hi as <-. by rewrite Z.add_0_r.
  - rewrite (IH i); [|cbn; lia|cbn; lia|done|done].
    cbn. do 2 f_equal. lia.
Qed.

Lemma registered_ids_distinct_witness :
  let s := mkServer ":8080" ∅ 7 in
  NoDup (register_all s [1; 2; 3]%nat).1 /\
  (register_all s [1; 2; 3]%nat).1 = ["client-8"; "client-9"; "client-10"]%string.
Proof.
  split; [|reflexivity].
  apply (registered_ids_distinct (mkServer ":8080" ∅ 7) [1; 2; 3]%nat);
    cbn; lia.
Defined.

(** X16.  [unregisterClient] releases all a session holds: every socket
    of its stream table, its public listener and, last, its control
    connection are closed, and the session leaves the registry while the
    other sessions stay.  Afterwards an external connection for that
    client is closed at once without an id being allocated, and a second
    [unregisterClient] does nothing. *)
Theorem unregisterClient_releases (s : Server.Server) (clientID : string)
    (ci : ClientInfo) :
  clients s !! clientID = Some ci ->
  let s' := (unregisterClient s clientID).1 in
  let evs := (unregisterClient s clientID).2 in
  (forall k sock, ConnMap ci !! k = Some sock ->
     exists i, evs !! i = Some (EvClose sock) /\
               evs !! S i = Some (EvDelete k)) /\
  (forall l, PublicListener ci = Some l -> EvClose l ∈ evs) /\
  last evs = Some (EvClose (Conn ci)) /\
  clients s' !! clientID = None /\
  (forall id, id <> clientID -> clients s' !! id = clients s !! id) /\
  unregisterClient s' clientID = (s', []) /\
  forall publicConn ok,
    handlePublicConnection s' publicConn clientID ok
    = (s', [EvClose publicConn], false).
Proof.
  intros Hci s' evs. unfold s', evs, unregisterClient. rewrite Hci.
  cbn [fst snd]. split_and!.
  - intros k sock Hk. apply elem_of_map_to_list in Hk.
    generalize dependent (map_to_list (ConnMap ci)). intros l Hin.
    induction l as [|[k' sock'] l IH]; [by apply elem_of_nil in Hin|].
    apply elem_of_cons in Hin as [Heq|Hin].
    + injection Heq as <- <-. by exists 0%nat.
    + destruct (IH Hin) as (i & Hi & HSi). exists (S (S i)). by split.
  - intros l Hl. rewrite Hl. apply elem_of_app. right. apply elem_of_app.
    left. apply elem_of_cons. by left.
  - by rewrite !app_assoc, last_snoc.
  - cbn. apply lookup_delete_eq.
  - intros id Hne. cbn. by rewrite lookup_delete_ne.
  - cbn. by rewrite lookup_delete_eq.
  - intros publicConn ok. unfold handlePublicConnection. cbn.
    by rewrite lookup_delete_eq.
Qed.

Lemma unregisterClient_releases_witness :
  let ci := mkClientInfo "client-1" 10%nat (<[1 := 21%nat]> (<[2 := 22%nat]> ∅)) 2
                         "127.0.0.1:80" 8080 (Some 30%nat) in
  let s := mkServer "" (<["client-1"%string := ci]> ∅) 1 in
  (unregisterClient s "client-1").2
  = [EvClose 22%nat; EvDelete 2; EvClose 21%nat; EvDelete 1;
     EvClose 30%nat; EvClose 10%nat] /\
  last (unregisterClient s "client-1").2 = Some (EvClose 10%nat).
Proof.
  split; [vm_compute; reflexivity|].
  apply (unregisterClient_releases
           (mkServer "" (<["client-1"%string :=
              mkClientInfo "client-1" 10%nat (<[1 := 21%nat]> (<[2 := 22%nat]> ∅)) 2
                           "127.0.0.1:80" 8080 (Some 30%nat)]> ∅) 1)
           "client-1"
           (mkClientInfo "client-1" 10%nat (<[1 := 21%nat]> (<[2 := 22%nat]> ∅)) 2
                         "127.0.0.1:80" 8080 (Some 30%nat))).
  vm_compute. reflexivity.
Defined.

End Registry.

Section ForwardingLemmas.
Import GoLib GoRuntime Proto Trace Forwarding.

Lemma data_payloads_data (connID : Z) (conn : Sock) (payload data : list byte)
    (ok : bool) (evs : list Event) :
  0 <= connID < 2 ^ 32 -> (length payload <= 4096)%nat ->
  EncodeFrame (Some (mkFrame FrameTypeDATA connID payload)) = Ok data ->
  data_payloads connID (EvWrite conn data ok :: evs)
  = payload :: data_payloads connID evs.
Proof.
  intros Hid Hlen Henc. rewrite frame_bytes_Ok in Henc. injection Henc as <-.
  cbn [data_payloads].
  rewrite <- (app_nil_r (FrameLoop.frame_bytes _)).
  rewrite DecodeFrame_frame_bytes; [|split; cbn; lia].
  cbn. by rewrite Z.eqb_refl.
Qed.

Lemma data_payloads_close (connID : Z) (conn : Sock) (data : list byte)
    (ok : bool) (evs : list Event) :
  0 <= connID < 2 ^ 32 ->
  EncodeFrame (Some (mkFrame FrameTypeCLOSE connID [])) = Ok data ->
  data_payloads connID (EvWrite conn data ok :: evs) = data_payloads connID evs.
Proof.
  intros Hid Henc. rewrite frame_bytes_Ok in Henc. injection Henc as <-.
  cbn [data_payloads].
  rewrite <- (app_nil_r (FrameLoop.frame_bytes _)).
  rewrite DecodeFrame_frame_bytes; [|split; cbn; lia].
  done.
Qed.

Lemma data_not_close (connID : Z) (conn : Sock) (payload data : list byte)
    (ok : bool) :
  EncodeFrame (Some (mkFrame FrameTypeDATA connID payload)) = Ok data ->
  ~ writes_close connID (EvWrite conn data ok).
Proof.
  intros Henc (conn' & data' & ok' & Henc' & Heq). injection Heq as _ <- _.
  pose proof (EncodeFrame_type _ _ _ Henc Henc') as Hty. discriminate Hty.
Qed.

Lemma nothing_after_short (P Q : Event -> Prop) (evs : list Event) :
  (length evs <= 1)%nat -> nothing_after P Q evs.
Proof.
  intros Hlen i j e e' Hi _ Hij Hj.
  apply lookup_lt_Some in Hj. lia.
Qed.

Lemma nothing_after_cons (P Q : Event -> Prop) (e : Event) (evs : list Event) :
  ~ P e -> nothing_after P Q evs -> nothing_after P Q (e :: evs).
Proof.
  intros He Hevs [|i] j e1 e2 Hi HP Hij Hj; cbn in Hi.
  - injection Hi as <-. done.
  - destruct j as [|j]; [lia|]. cbn in Hj.
    eapply (Hevs i j); [done..|lia|done].
Qed.

Lemma nothing_after_quiet (P Q : Event -> Prop) (evs tail : list Event) :
  nothing_after P Q evs -> Forall (fun e => ~ Q e) tail ->
  nothing_after P Q (evs ++ tail).
Proof.
  intros Hevs Htail i j e e' Hi HP Hij Hj.
  destruct (decide (j < length evs)%nat) as [Hlt|Hge].
  - rewrite lookup_app_l in Hi, Hj by lia. by eapply (Hevs i j).
  - rewrite lookup_app_r in Hj by lia.
    eapply Forall_lookup_1 in Htail; [|done]. done.
Qed.

Lemma nothing_after_skip (k : Z) (Q : Event -> Prop) (e : Event)
    (evs : list Event) :
  (forall conn data ok, e <> EvWrite conn data ok) ->
  nothing_after (writes_close k) Q evs ->
  nothing_after (writes_close k) Q (e :: evs).
Proof.
  intros He. apply nothing_after_cons.
  intros (conn & data & ok & _ & Heq). by destruct (He conn data ok).
Qed.

Lemma nothing_after_data (k : Z) (Q : Event -> Prop) (conn : Sock)
    (payload data : list byte) (ok : bool) (evs : list Event) :
  EncodeFrame (Some (mkFrame FrameTypeDATA k payload)) = Ok data ->
  nothing_after (writes_close k) Q evs ->
  nothing_after (writes_close k) Q (EvWrite conn data ok :: evs).
Proof. intros Henc. apply nothing_after_cons. by eapply data_not_close. Qed.

Lemma forwards_in_order_nil (connID : Z) (reads : list (list byte)) :
  forwards_in_order connID [] reads.
Proof. split; [constructor|apply prefix_nil]. Qed.

Lemma forwards_in_order_chunk (connID : Z) (conn : Sock)
    (payload data : list byte) (ok : bool) (evs : list Event)
    (reads : list (list byte)) :
  0 <= connID < 2 ^ 32 -> (1 <= length payload <= 4096)%nat ->
  EncodeFrame (Some (mkFrame FrameTypeDATA connID payload)) = Ok data ->
  forwards_in_order connID evs reads ->
  forwards_in_order connID (EvWrite conn data ok :: evs) (payload :: reads).
Proof.
  intros Hid Hlen Henc [Hchunks Hprefix]. unfold forwards_in_order.
  rewrite (data_payloads_data _ _ payload) by (done || lia).
  split; [by constructor|]. cbn. by apply prefix_app.
Qed.

Lemma data_payloads_app (connID : Z) (evs evs' : list Event) :
  data_payloads connID (evs ++ evs')
  = data_payloads connID evs ++ data_payloads connID evs'.
Proof.
  induction evs as [|e evs IH]; [done|].
  destruct e; cbn [app data_payloads]; try done.
  destruct (DecodeFrame data) as [[f [|]]|]; try done.
  destruct (_ && _); [|done]. by rewrite IH.
Qed.

Lemma data_payloads_skip (connID : Z) (e : Event) (evs : list Event) :
  (forall conn data ok, e <> EvWrite conn data ok) ->
  data_payloads connID (e :: evs) = data_payloads connID evs.
Proof. intros He. destruct e; try done. by destruct (He conn data ok). Qed.

Lemma forwards_in_order_skip (connID : Z) (e : Event) (evs : list Event)
    (reads : list (list byte)) :
  (forall conn data ok, e <> EvWrite conn data ok) ->
  forwards_in_order connID evs reads ->
  forwards_in_order connID (e :: evs) reads.
Proof.
  intros He H. unfold forwards_in_order. by rewrite data_payloads_skip.
Qed.

Lemma forwards_in_order_close (connID : Z) (conn : Sock) (data : list byte)
    (ok : bool) (evs : list Event) (reads : list (list byte)) :
  0 <= connID < 2 ^ 32 ->
  EncodeFrame (Some (mkFrame FrameTypeCLOSE connID [])) = Ok data ->
  forwards_in_order connID evs reads ->
  forwards_in_order connID (EvWrite conn data ok :: evs) reads.
Proof.
  intros Hid Henc H. unfold forwards_in_order.
  by rewrite data_payloads_close.
Qed.

Lemma forwards_in_order_more (connID : Z) (evs : list Event)
    (chunk : list byte) (reads : list (list byte)) :
  data_payloads connID evs = [] ->
  forwards_in_order connID evs (chunk :: reads).
Proof.
  intros H. unfold forwards_in_order. rewrite H.
  split; [constructor|apply prefix_nil].
Qed.

End ForwardingLemmas.

Section ServerReader.
Import GoLib GoRuntime Proto Trace Forwarding Server.

Lemma sendCloseFrame_cases (ci : option ClientInfo) (connID : Z) (ok : bool) :
  sendCloseFrame ci connID ok = [] \/
  exists conn data,
    EncodeFrame (Some (mkFrame FrameTypeCLOSE connID [])) = Ok data /\
    sendCloseFrame ci connID ok = [EvWrite conn data ok].
Proof.
  unfold sendCloseFrame. destruct ci as [ci|]; [|by left].
  destruct (EncodeFrame _) as [data|] eqn:Henc; [|by left].
  right. by exists (Conn ci), data.
Qed.

Lemma reader_loop_forwards (ci : ClientInfo) (connID : Z) (publicConn : Sock)
    (turns : list Turn) :
  0 <= connID < 2 ^ 32 ->
  forwards_in_order connID (reader_loop ci connID publicConn turns).1
                    (map (fun t => bytes_read (read t)) turns) /\
  ((reader_loop ci connID publicConn turns).2 = false ->
   concat (data_payloads connID (reader_loop ci connID publicConn turns).1)
   = concat (map (fun t => bytes_read (read t)) turns)).
Proof.
  intros Hid. induction turns as [|t turns [IH IHall]]; cbn [reader_loop map].
  { split; [apply forwards_in_order_nil|done]. }
  destruct (ctx_done t); [split; [apply forwards_in_order_nil|done]|].
  destruct (found_before t); cbn [negb];
    [|split; [by apply forwards_in_order_more|done]].
  destruct (read t) as [bs| |msg]; cbn [bytes_read].
  - assert (length (take 4096 bs) <= 4096)%nat as Hle
      by (rewrite length_take; lia).
    destruct (0 <? length (take 4096 bs))%nat eqn:Hpos.
    + apply Nat.ltb_lt in Hpos.
      destruct (found_after t); cbn [negb];
        [|split; [by apply forwards_in_order_more|done]].
      destruct (EncodeFrame _) as [data|] eqn:Henc;
        [|split; [by apply forwards_in_order_more|done]].
      destruct (write_ok t).
      * destruct (reader_loop ci connID publicConn turns) as [rest returned].
        cbn [fst snd app] in *. split.
        -- do 3 (apply forwards_in_order_skip; [done|]).
           eapply forwards_in_order_chunk; first [done | lia].
        -- intros Hret. do 3 (rewrite data_payloads_skip by done).
           rewrite (data_payloads_data _ _ (take 4096 bs)) by (done || lia).
           cbn. by rewrite IHall.
      * cbn [fst snd]. split; [|done].
        do 3 (apply forwards_in_order_skip; [done|]).
        eapply forwards_in_order_chunk;
          first [done | lia | apply forwards_in_order_nil].
    + apply Nat.ltb_ge in Hpos.
      assert (take 4096 bs = []) as ->.
      { apply nil_length_inv. lia. }
      destruct (reader_loop ci connID publicConn turns) as [rest returned].
      cbn [fst snd concat app] in *. split.
      * by do 2 (apply forwards_in_order_skip; [done|]).
      * done.
  - cbn [fst snd]. split; [|done].
    apply forwards_in_order_more. cbn [data_payloads].
    destruct (sendCloseFrame_cases (if registered t then Some ci else None)
                connID (write_ok t)) as [->|(conn & data & Henc & ->)]; [done|].
    by rewrite data_payloads_close.
  - destruct (Contains msg _); cbn [fst snd]; (split; [|done]);
      apply forwards_in_order_more; [done|]. cbn [data_payloads].
    destruct (sendCloseFrame_cases (if registered t then Some ci else None)
                connID (write_ok t)) as [->|(conn & data & Henc & ->)]; [done|].
    by rewrite data_payloads_close.
Qed.

Local Ltac short := apply nothing_after_short; cbn; lia.

Local Ltac short_after :=
  cbn [fst]; repeat (apply nothing_after_skip; [done|]); short.

Lemma reader_loop_close_last (ci : ClientInfo) (connID : Z) (publicConn : Sock)
    (turns : list Turn) :
  nothing_after (writes_close connID) is_write
                (reader_loop ci connID publicConn turns).1.
Proof.
  induction turns as [|t turns IH]; cbn [reader_loop].
  { short. }
  assert (nothing_after (writes_close connID) is_write
            (EvLoad connID true :: EvRead publicConn ::
             sendCloseFrame (if registered t then Some ci else None) connID
               (write_ok t))) as Hclose.
  { do 2 (apply nothing_after_skip; [done|]). apply nothing_after_short.
    destruct (sendCloseFrame_cases (if registered t then Some ci else None)
                connID (write_ok t)) as [->|(conn & data & _ & ->)]; cbn; lia. }
  destruct (ctx_done t); [short|].
  destruct (found_before t); cbn [negb];
    [|short].
  destruct (read t) as [bs| |msg]; [|done|].
  - destruct (0 <? length (take 4096 bs))%nat.
    + destruct (found_after t); cbn [negb];
        [|short_after].
      destruct (EncodeFrame _) as [data|] eqn:Henc;
        [|short_after].
      destruct (write_ok t).
      * destruct (reader_loop ci connID publicConn turns) as [rest returned].
        cbn [fst snd app] in *.
        do 3 (apply nothing_after_skip; [done|]).
        by eapply nothing_after_data.
      * short_after.
    + destruct (reader_loop ci connID publicConn turns) as [rest returned].
      cbn [fst snd] in *. by do 2 (apply nothing_after_skip; [done|]).
  - destruct (Contains msg _); [|done].
    short_after.
Qed.

(** X17.  The reader task of the server forwards what it reads in order:
    the payloads of the DATA frames it writes for its stream are chunks
    of 1 to 4096 bytes that, put end to end, are a prefix of the bytes its
    reads returned; and while its loop has not returned, they are all the
    bytes read. *)
Theorem reader_forwards_in_order (ci : ClientInfo) (connID : Z)
    (publicConn : Sock) (turns : list Turn) (found_at_exit : bool) :
  0 <= connID < 2 ^ 32 ->
  forwards_in_order connID (reader ci connID publicConn turns found_at_exit)
                    (map (fun t => bytes_read (read t)) turns) /\
  ((reader_loop ci connID publicConn turns).2 = false ->
   concat (data_payloads connID
             (reader ci connID publicConn turns found_at_exit))
   = concat (map (fun t => bytes_read (read t)) turns)).
Proof.
  intros Hid.
  destruct (reader_loop_forwards ci connID publicConn turns Hid) as [H Hall].
  unfold reader.
  destruct (reader_loop ci connID publicConn turns) as [evs returned].
  cbn [fst snd] in *.
  assert (data_payloads connID
            (if returned
             then evs ++ (if found_at_exit
                          then [EvLoad connID true; EvClose publicConn;
                                EvDelete connID]
                          else [EvLoad connID false])
             else evs) = data_payloads connID evs) as Heq.
  { destruct returned; [|done]. rewrite data_payloads_app.
    destruct found_at_exit; cbn; by rewrite app_nil_r. }
  unfold forwards_in_order. rewrite Heq. done.
Qed.

Lemma reader_forwards_in_order_witness :
  let ci := new_session "client-1" 9%nat in
  let turns := [mkTurn false true (ReadOk [Byte.x68; Byte.x69]) true true true;
                mkTurn false true ReadEOF true true true] in
  data_payloads 5 (reader ci 5 7%nat turns true) = [[Byte.x68; Byte.x69]] /\
  forwards_in_order 5 (reader ci 5 7%nat turns true)
                    [[Byte.x68; Byte.x69]; []].
Proof.
  split; [vm_compute; reflexivity|].
  apply (reader_forwards_in_order (new_session "client-1" 9%nat) 5 7%nat
           [mkTurn false true (ReadOk [Byte.x68; Byte.x69]) true true true;
            mkTurn false true ReadEOF true true true] true).
  lia.
Defined.

(** X18.  The reader task of the server writes nothing after CLOSE: once
    it has written the CLOSE frame of its stream to the control
    connection, no DATA frame and no other frame follows from that
    task. *)
Theorem reader_close_is_last (ci : ClientInfo) (connID : Z)
    (publicConn : Sock) (turns : list Turn) (found_at_exit : bool) :
  nothing_after (writes_close connID) is_write
                (reader ci connID publicConn turns found_at_exit).
Proof.
  pose proof (reader_loop_close_last ci connID publicConn turns) as H.
  unfold reader.
  destruct (reader_loop ci connID publicConn turns) as [evs returned].
  cbn [fst] in H. destruct returned; [|done].
  apply nothing_after_quiet; [done|].
  destruct found_at_exit; repeat constructor; by intros (? & ? & ? & ?).
Qed.

End ServerReader.

Section SingleReader.
Import GoLib GoRuntime Proto Trace Forwarding ServerSingle.

Local Ltac short := apply nothing_after_short; cbn; lia.

Local Ltac short_after :=
  cbn [fst]; repeat (apply nothing_after_skip; [done|]); short.

Lemma single_sendCloseFrame_cases (ctrl : option Sock) (connID : Z) (ok : bool) :
  sendCloseFrame ctrl connID ok = [] \/
  exists conn data,
    EncodeFrame (Some (mkFrame FrameTypeCLOSE connID [])) = Ok data /\
    sendCloseFrame ctrl connID ok = [EvWrite conn data ok].
Proof.
  unfold sendCloseFrame. destruct ctrl as [conn|]; [|by left].
  destruct (EncodeFrame _) as [data|] eqn:Henc; [|by left].
  right. by exists conn, data.
Qed.

Lemma single_reader_loop_forwards (connID : Z) (publicConn : Sock)
    (turns : list Turn) :
  0 <= connID < 2 ^ 32 ->
  forwards_in_order connID (reader_loop connID publicConn turns).1
                    (map (fun t => bytes_read (read t)) turns) /\
  ((reader_loop connID publicConn turns).2 = false ->
   concat (data_payloads connID (reader_loop connID publicConn turns).1)
   = concat (map (fun t => bytes_read (read t)) turns)).
Proof.
  intros Hid. induction turns as [|t turns [IH IHall]]; cbn [reader_loop map].
  { split; [apply forwards_in_order_nil|done]. }
  destruct (ctx_done t); [split; [apply forwards_in_order_nil|done]|].
  assert (data_payloads connID
            (EvRead publicConn :: sendCloseFrame (ctrl t) connID (write_ok t))
          = []) as Hclose.
  { rewrite data_payloads_skip by done.
    destruct (single_sendCloseFrame_cases (ctrl t) connID (write_ok t))
      as [->|(conn & data & Henc & ->)]; [done|].
    by rewrite data_payloads_close. }
  destruct (read t) as [bs| |msg]; cbn [bytes_read fst snd];
    [|by split; [apply forwards_in_order_more|]..].
  assert (length (take 4096 bs) <= 4096)%nat as Hle
    by (rewrite length_take; lia).
  destruct (0 <? length (take 4096 bs))%nat eqn:Hpos.
  - apply Nat.ltb_lt in Hpos.
    destruct (EncodeFrame _) as [data|] eqn:Henc;
      [|split; [by apply forwards_in_order_more|done]].
    destruct (ctrl t) as [ctrlConn|];
      [|split; [by apply forwards_in_order_more|done]].
    destruct (write_ok t).
    + destruct (reader_loop connID publicConn turns) as [rest returned].
      cbn [fst snd app] in *. split.
      * apply forwards_in_order_skip; [done|].
        eapply forwards_in_order_chunk; first [done | lia].
      * intros Hret. rewrite data_payloads_skip by done.
        rewrite (data_payloads_data _ _ (take 4096 bs)) by (done || lia).
        cbn. by rewrite IHall.
    + cbn [fst snd]. split; [|done].
      apply forwards_in_order_skip; [done|].
      eapply forwards_in_order_chunk;
        first [done | lia | apply forwards_in_order_nil].
  - apply Nat.ltb_ge in Hpos.
    assert (take 4096 bs = []) as ->.
    { apply nil_length_inv. lia. }
    destruct (reader_loop connID publicConn turns) as [rest returned].
    cbn [fst snd concat app] in *. split; [|done].
    by apply forwards_in_order_skip.
Qed.

Lemma single_reader_loop_close_last (connID : Z) (publicConn : Sock)
    (turns : list Turn) :
  nothing_after (writes_close connID) is_write
                (reader_loop connID publicConn turns).1.
Proof.
  induction turns as [|t turns IH]; cbn [reader_loop].
  { short. }
  assert (nothing_after (writes_close connID) is_write
            (EvRead publicConn :: sendCloseFrame (ctrl t) connID (write_ok t)))
    as Hclose.
  { apply nothing_after_skip; [done|]. apply nothing_after_short.
    destruct (single_sendCloseFrame_cases (ctrl t) connID (write_ok t))
      as [->|(conn & data & _ & ->)]; cbn; lia. }
  destruct (ctx_done t); [short|].
  destruct (read t) as [bs| |msg]; [|done..].
  destruct (0 <? length (take 4096 bs))%nat.
  - destruct (EncodeFrame _) as [data|] eqn:Henc; [|short_after].
    destruct (ctrl t) as [ctrlConn|]; [|short_after].
    destruct (write_ok t); [|short_after].
    destruct (reader_loop connID publicConn turns) as [rest returned].
    cbn [fst snd app] in *.
    apply nothing_after_skip; [done|]. by eapply nothing_after_data.
  - destruct (reader_loop connID publicConn turns) as [rest returned].
    cbn [fst snd] in *. by apply nothing_after_skip.
Qed.

(** X19.  The reader task of the server for a single client forwards
    what it reads in order: the payloads of the DATA frames it writes are
    chunks of 1 to 4096 bytes that, put end to end, are a prefix of the
    bytes read, and all of them while the loop has not returned. *)
Theorem single_reader_forwards_in_order (connID : Z) (publicConn : Sock)
    (turns : list Turn) :
  0 <= connID < 2 ^ 32 ->
  forwards_in_order connID (reader connID publicConn turns)
                    (map (fun t => bytes_read (read t)) turns) /\
  ((reader_loop connID publicConn turns).2 = false ->
   concat (data_payloads connID (reader connID publicConn turns))
   = concat (map (fun t => bytes_read (read t)) turns)).
Proof.
  intros Hid.
  destruct (single_reader_loop_forwards connID publicConn turns Hid)
    as [H Hall].
  unfold reader.
  destruct (reader_loop connID publicConn turns) as [evs returned].
  cbn [fst snd] in *.
  assert (data_payloads connID
            (if returned
             then evs ++ [EvClose publicConn; EvDelete connID]
             else evs) = data_payloads connID evs) as Heq.
  { destruct returned; [|done]. rewrite data_payloads_app.
    cbn. by rewrite app_nil_r. }
  unfold forwards_in_order. rewrite Heq. done.
Qed.

Lemma single_reader_forwards_in_order_witness :
  let turns := [mkTurn false (ReadOk [Byte.x68; Byte.x69]) (Some 9%nat) true;
                mkTurn false ReadEOF (Some 9%nat) true] in
  data_payloads 5 (reader 5 7%nat turns) = [[Byte.x68; Byte.x69]] /\
  forwards_in_order 5 (reader 5 7%nat turns) [[Byte.x68; Byte.x69]; []].
Proof.
  split; [vm_compute; reflexivity|].
  apply (single_reader_forwards_in_order 5 7%nat
           [mkTurn false (ReadOk [Byte.x68; Byte.x69]) (Some 9%nat) true;
            mkTurn false ReadEOF (Some 9%nat) true]).
  lia.
Defined.

(** X20.  The reader task of the server for a single client writes
    nothing after CLOSE. *)
Theorem single_reader_close_is_last (connID : Z) (publicConn : Sock)
    (turns : list Turn) :
  nothing_after (writes_close connID) is_write
                (reader connID publicConn turns).
Proof.
  pose proof (single_reader_loop_close_last connID publicConn turns) as H.
  unfold reader.
  destruct (reader_loop connID publicConn turns) as [evs returned].
  cbn [fst] in H. destruct returned; [|done].
  apply nothing_after_quiet; [done|].
  repeat constructor; by intros (? & ? & ? & ?).
Qed.

End SingleReader.

Section ClientForwarder.
Import GoLib GoRuntime Proto Trace Forwarding Client ClientTasks.

Local Ltac short := apply nothing_after_short; cbn; lia.

Local Ltac short_after :=
  cbn [fst]; repeat (apply nothing_after_skip; [done|]); short.

Lemma client_sendCloseFrame_cases (c : Client) (connID : Z) (ok : bool) :
  sendCloseFrame c connID ok = [] \/
  exists conn data,
    EncodeFrame (Some (mkFrame FrameTypeCLOSE connID [])) = Ok data /\
    sendCloseFrame c connID ok = [EvWrite conn data ok].
Proof.
  unfold sendCloseFrame. destruct (controlConn c) as [conn|]; [|by left].
  destruct (EncodeFrame _) as [data|] eqn:Henc; [|by left].
  right. by exists conn, data.
Qed.

Lemma forward_loop_forwards (c : Client) (connID : Z) (localConn : Sock)
    (turns : list Turn) :
  0 <= connID < 2 ^ 32 ->
  forwards_in_order connID (forward_loop c connID localConn turns).1
                    (map (fun t => bytes_read (read t)) turns) /\
  ((forward_loop c connID localConn turns).2 = false ->
   concat (data_payloads connID (forward_loop c connID localConn turns).1)
   = concat (map (fun t => bytes_read (read t)) turns)).
Proof.
  intros Hid. induction turns as [|t turns [IH IHall]]; cbn [forward_loop map].
  { split; [apply forwards_in_order_nil|done]. }
  set (now := mkClient (localAddr c) (ctrl t) (connMap c)).
  assert (data_payloads connID (sendCloseFrame now connID (write_ok t)) = [])
    as Hclose.
  { destruct (client_sendCloseFrame_cases now connID (write_ok t))
      as [->|(conn & data & Henc & ->)]; [done|].
    by rewrite data_payloads_close. }
  destruct (ctx_done t); [by split; [apply forwards_in_order_more|]|].
  destruct (read t) as [bs| |msg]; cbn [bytes_read fst snd];
    [|by split; [apply forwards_in_order_more;
                 rewrite data_payloads_skip by done|]..].
  assert (length (take 4096 bs) <= 4096)%nat as Hle
    by (rewrite length_take; lia).
  destruct (0 <? length (take 4096 bs))%nat eqn:Hpos.
  - apply Nat.ltb_lt in Hpos.
    destruct (EncodeFrame _) as [data|] eqn:Henc;
      [|split; [by apply forwards_in_order_more|done]].
    destruct (ctrl t) as [ctrlConn|];
      [|split; [by apply forwards_in_order_more|done]].
    destruct (write_ok t).
    + destruct (forward_loop c connID localConn turns) as [rest returned].
      cbn [fst snd app] in *. split.
      * apply forwards_in_order_skip; [done|].
        eapply forwards_in_order_chunk; first [done | lia].
      * intros Hret. rewrite data_payloads_skip by done.
        rewrite (data_payloads_data _ _ (take 4096 bs)) by (done || lia).
        cbn. by rewrite IHall.
    + cbn [fst snd]. split; [|done].
      apply forwards_in_order_skip; [done|].
      eapply forwards_in_order_chunk;
        first [done | lia | apply forwards_in_order_nil].
  - apply Nat.ltb_ge in Hpos.
    assert (take 4096 bs = []) as ->.
    { apply nil_length_inv. lia. }
    destruct (forward_loop c connID localConn turns) as [rest returned].
    cbn [fst snd concat app] in *. split; [|done].
    by apply forwards_in_order_skip.
Qed.

Lemma forward_loop_close_last (c : Client) (connID : Z) (localConn : Sock)
    (turns : list Turn) :
  nothing_after (writes_close connID) is_write
                (forward_loop c connID localConn turns).1.
Proof.
  induction turns as [|t turns IH]; cbn [forward_loop].
  { short. }
  set (now := mkClient (localAddr c) (ctrl t) (connMap c)).
  assert (length (sendCloseFrame now connID (write_ok t)) <= 1)%nat as Hlen.
  { destruct (client_sendCloseFrame_cases now connID (write_ok t))
      as [->|(conn & data & _ & ->)]; cbn; lia. }
  destruct (ctx_done t); [by apply nothing_after_short|].
  destruct (read t) as [bs| |msg];
    [|by apply nothing_after_skip; [|apply nothing_after_short]..].
  destruct (0 <? length (take 4096 bs))%nat.
  - destruct (EncodeFrame _) as [data|] eqn:Henc; [|short_after].
    destruct (ctrl t) as [ctrlConn|]; [|short_after].
    destruct (write_ok t); [|short_after].
    destruct (forward_loop c connID localConn turns) as [rest returned].
    cbn [fst snd app] in *.
    apply nothing_after_skip; [done|]. by eapply nothing_after_data.
  - destruct (forward_loop c connID localConn turns) as [rest returned].
    cbn [fst snd] in *. by apply nothing_after_skip.
Qed.

(** X21.  [forwardLocalToServer] forwards what it reads from the local
    service in order: the payloads of the DATA frames it writes are chunks
    of 1 to 4096 bytes that, put end to end, are a prefix of the bytes
    read, and all of them while the loop has not returned. *)
Theorem forwarder_forwards_in_order (c : Client) (connID : Z)
    (localConn : Sock) (turns : list Turn) :
  0 <= connID < 2 ^ 32 ->
  forwards_in_order connID (forwardLocalToServer c connID localConn turns)
                    (map (fun t => bytes_read (read t)) turns) /\
  ((forward_loop c connID localConn turns).2 = false ->
   concat (data_payloads connID (forwardLocalToServer c connID localConn turns))
   = concat (map (fun t => bytes_read (read t)) turns)).
Proof.
  intros Hid.
  destruct (forward_loop_forwards c connID localConn turns Hid) as [H Hall].
  unfold forwardLocalToServer.
  destruct (forward_loop c connID localConn turns) as [evs returned].
  cbn [fst snd] in *.
  assert (data_payloads connID
            (if returned
             then evs ++ [EvClose localConn; EvDelete connID]
             else evs) = data_payloads connID evs) as Heq.
  { destruct returned; [|done]. rewrite data_payloads_app.
    cbn. by rewrite app_nil_r. }
  unfold forwards_in_order. rewrite Heq. done.
Qed.

Lemma forwarder_forwards_in_order_witness :
  let c := mkClient "127.0.0.1:80" (Some 9%nat) ∅ in
  let turns := [mkTurn false (ReadOk [Byte.x68; Byte.x69]) (Some 9%nat) true;
                mkTurn true ReadEOF (Some 9%nat) true] in
  data_payloads 5 (forwardLocalToServer c 5 7%nat turns)
  = [[Byte.x68; Byte.x69]] /\
  forwards_in_order 5 (forwardLocalToServer c 5 7%nat turns)
                    [[Byte.x68; Byte.x69]; []].
Proof.
  split; [vm_compute; reflexivity|].
  apply (forwarder_forwards_in_order
           (mkClient "127.0.0.1:80" (Some 9%nat) ∅) 5 7%nat
           [mkTurn false (ReadOk [Byte.x68; Byte.x69]) (Some 9%nat) true;
            mkTurn true ReadEOF (Some 9%nat) true]).
  lia.
Defined.

(** X22.  [forwardLocalToServer] writes nothing after CLOSE: once it has
    written the CLOSE frame of its stream, no DATA frame follows. *)
Theorem forwarder_close_is_last (c : Client) (connID : Z) (localConn : Sock)
    (turns : list Turn) :
  nothing_after (writes_close connID) is_write
                (forwardLocalToServer c connID localConn turns).
Proof.
  pose proof (forward_loop_close_last c connID localConn turns) as H.
  unfold forwardLocalToServer.
  destruct (forward_loop c connID localConn turns) as [evs returned].
  cbn [fst] in H. destruct returned; [|done].
  apply nothing_after_quiet; [done|].
  repeat constructor; by intros (? & ? & ? & ?).
Qed.

End ClientForwarder.

Section ExternalSockets.
Import GoLib GoRuntime Proto Trace Forwarding.

Lemma closes_app (sock : Sock) (evs evs' : list Event) :
  closes sock (evs ++ evs') = (closes sock evs + closes sock evs')%nat.
Proof.
  induction evs as [|e evs IH]; [done|].
  destruct e; cbn [app closes]; try done. rewrite IH. lia.
Qed.

Lemma closes_quiet (sock : Sock) (evs : list Event) :
  Forall (fun e => forall s, e <> EvClose s) evs -> closes sock evs = 0%nat.
Proof.
  induction 1 as [|e evs He _ IH]; [done|].
  destruct e; cbn [closes]; try done. by destruct (He sock0).
Qed.

Lemma server_reader_loop_keeps_open (ci : Server.ClientInfo) (connID : Z)
    (publicConn : Sock) (turns : list Server.Turn) :
  Forall (fun e => forall s, e <> EvClose s)
         (Server.reader_loop ci connID publicConn turns).1.
Proof.
  induction turns as [|t turns IH]; cbn [Server.reader_loop]; [constructor|].
  assert (Forall (fun e => forall s, e <> EvClose s)
            (Server.sendCloseFrame
               (if Server.registered t then Some ci else None) connID
               (Server.write_ok t))) as Hclose.
  { destruct (sendCloseFrame_cases
                (if Server.registered t then Some ci else None) connID
                (Server.write_ok t)) as [->|(conn & data & _ & ->)];
      by repeat constructor. }
  repeat match goal with
  | |- context [Server.reader_loop ?a ?b ?c ?d] =>
      destruct (Server.reader_loop a b c d); cbn [fst snd] in *
  | |- context [if ?b then _ else _] => destruct b
  | |- context [match ?x with _ => _ end] => destruct x
  end; cbn [fst app negb]; by repeat constructor.
Qed.

Lemma single_reader_loop_keeps_open (connID : Z) (publicConn : Sock)
    (turns : list ServerSingle.Turn) :
  Forall (fun e => forall s, e <> EvClose s)
         (ServerSingle.reader_loop connID publicConn turns).1.
Proof.
  induction turns as [|t turns IH]; cbn [ServerSingle.reader_loop];
    [constructor|].
  assert (Forall (fun e => forall s, e <> EvClose s)
            (ServerSingle.sendCloseFrame (ServerSingle.ctrl t) connID
               (ServerSingle.write_ok t))) as Hclose.
  { destruct (single_sendCloseFrame_cases (ServerSingle.ctrl t) connID
                (ServerSingle.write_ok t)) as [->|(conn & data & _ & ->)];
      by repeat constructor. }
  repeat match goal with
  | |- context [ServerSingle.reader_loop ?a ?b ?c] =>
      destruct (ServerSingle.reader_loop a b c); cbn [fst snd] in *
  | |- context [if ?b then _ else _] => destruct b
  | |- context [match ?x with _ => _ end] => destruct x
  end; cbn [fst app negb]; by repeat constructor.
Qed.

(** X23.  The server closes an external socket once when its handling
    has ended.  If the announcement of the stream failed, or the reader
    task has returned, the socket is closed exactly once by these two, or,
    when the entry of the stream was no longer in the table at the exit of
    the reader task, it is left to the task that removed the entry. *)
Theorem external_socket_closed_once (ci : Server.ClientInfo)
    (publicConn : Sock) (new_conn_ok : bool) (turns : list Server.Turn)
    (found_at_exit : bool) :
  new_conn_ok = false \/
  (Server.reader_loop (Server.session_public ci publicConn new_conn_ok).1.1
     (AddUint32 (Server.NextConnID ci) 1) publicConn turns).2 = true ->
  closes publicConn
         (Server.external_socket ci publicConn new_conn_ok turns found_at_exit)
  = if new_conn_ok && negb found_at_exit then 0%nat else 1%nat.
Proof.
  unfold Server.external_socket, Server.session_public.
  destruct (EncodeFrame_Some
              (mkFrame FrameTypeNEW_CONN (AddUint32 (Server.NextConnID ci) 1) []))
    as [data ->].
  destruct new_conn_ok; cbn [negb fst snd andb].
  - intros [?|Hret]; [done|]. unfold Server.reader.
    pose proof (server_reader_loop_keeps_open
                  (Server.set_ConnMap
                     (Server.set_NextConnID ci
                        (AddUint32 (Server.NextConnID ci) 1))
                     (<[AddUint32 (Server.NextConnID ci) 1:=publicConn]>
                        (Server.ConnMap
                           (Server.set_NextConnID ci
                              (AddUint32 (Server.NextConnID ci) 1)))))
                  (AddUint32 (Server.NextConnID ci) 1) publicConn turns)
      as Hopen.
    destruct (Server.reader_loop _ _ _ _) as [evs returned].
    cbn [fst snd] in *. subst returned.
    rewrite !closes_app, (closes_quiet _ evs Hopen).
    destruct found_at_exit; cbn; by rewrite ?Nat.eqb_refl.
  - intros _. cbn. by rewrite Nat.eqb_refl.
Qed.

Lemma external_socket_closed_once_witness :
  let ci := Server.new_session "client-1" 9%nat in
  let turns := [Server.mkTurn false true ReadEOF true true true] in
  (Server.reader_loop (Server.session_public ci 7%nat true).1.1
     (AddUint32 (Server.NextConnID ci) 1) 7%nat turns).2 = true /\
  closes 7%nat (Server.external_socket ci 7%nat true turns true) = 1%nat.
Proof.
  split; [vm_compute; reflexivity|].
  apply (external_socket_closed_once (Server.new_session "client-1" 9%nat)
           7%nat true [Server.mkTurn false true ReadEOF true true true] true).
  right. vm_compute. reflexivity.
Defined.

(** X24.  The server for a single client closes an external socket
    exactly once when its handling has ended, after a failed announcement
    or at the exit of the reader task, and deletes its entry. *)
Theorem single_external_socket_closed_once (s : ServerSingle.Server)
    (publicConn : Sock) (new_conn_ok : bool) (turns : list ServerSingle.Turn) :
  (ServerSingle.handlePublicConnection s publicConn new_conn_ok).2 = false \/
  (ServerSingle.reader_loop (AddUint32 (ServerSingle.nextConnID s) 1)
     publicConn turns).2 = true ->
  closes publicConn
         (ServerSingle.external_socket s publicConn new_conn_ok turns) = 1%nat /\
  last (ServerSingle.external_socket s publicConn new_conn_ok turns)
  = Some (EvDelete (AddUint32 (ServerSingle.nextConnID s) 1)) /\
  ((ServerSingle.handlePublicConnection s publicConn new_conn_ok).2 = false ->
   ServerSingle.connMap
     (ServerSingle.handlePublicConnection s publicConn new_conn_ok).1.1
     !! AddUint32 (ServerSingle.nextConnID s) 1 = None).
Proof.
  unfold ServerSingle.external_socket, ServerSingle.handlePublicConnection,
    ServerSingle.close_and_delete.
  destruct (EncodeFrame_Some
              (mkFrame FrameTypeNEW_CONN
                 (AddUint32 (ServerSingle.nextConnID s) 1) []))
    as [data ->].
  cbn [ServerSingle.controlConn ServerSingle.connMap ServerSingle.nextConnID].
  destruct (ServerSingle.controlConn s) as [ctrl|];
    [destruct new_conn_ok|]; cbn [negb fst snd app].
  - intros [?|Hret]; [done|]. unfold ServerSingle.reader.
    pose proof (single_reader_loop_keeps_open
                  (AddUint32 (ServerSingle.nextConnID s) 1) publicConn turns)
      as Hopen.
    destruct (ServerSingle.reader_loop _ _ _) as [evs returned].
    cbn [fst snd] in *. subst returned. split_and!; [| |done].
    + cbn [closes]. rewrite closes_app, (closes_quiet _ evs Hopen).
      cbn. by rewrite Nat.eqb_refl.
    + by rewrite !app_comm_cons, last_app.
  - intros _. cbn. rewrite Nat.eqb_refl. split_and!; try done.
    intros _. apply lookup_delete_eq.
  - intros _. cbn. rewrite Nat.eqb_refl. split_and!; try done.
    intros _. apply lookup_delete_eq.
Qed.

Lemma single_external_socket_closed_once_witness :
  let s := ServerSingle.mkServer (Some 9%nat) ∅ 4 in
  let turns := [ServerSingle.mkTurn false ReadEOF (Some 9%nat) true] in
  (ServerSingle.reader_loop (AddUint32 (ServerSingle.nextConnID s) 1)
     7%nat turns).2 = true /\
  closes 7%nat (ServerSingle.external_socket s 7%nat true turns) = 1%nat.
Proof.
  split; [vm_compute; reflexivity|].
  apply (single_external_socket_closed_once
           (ServerSingle.mkServer (Some 9%nat) ∅ 4) 7%nat true
           [ServerSingle.mkTurn false ReadEOF (Some 9%nat) true]).
  right. vm_compute. reflexivity.
Defined.

End ExternalSockets.

Section ClientFrames.
Import GoLib GoRuntime Proto Trace Forwarding Client ClientTasks.

Lemma client_sendCloseFrame_dials (c : Client) (connID : Z) (ok : bool) :
  dials (sendCloseFrame c connID ok) = [].
Proof.
  destruct (client_sendCloseFrame_cases c connID ok)
    as [->|(conn & data & _ & ->)]; done.
Qed.

Lemma dials_app (evs evs' : list Event) :
  dials (evs ++ evs') = dials evs ++ dials evs'.
Proof.
  induction evs as [|e evs IH]; [done|].
  destruct e; cbn [app dials]; by rewrite ?IH.
Qed.

Lemma handleFrame_dials (c : Client) (frame : Frame) (a : Answers) :
  dials (handleFrame c frame a).1.2
  = (if Byte.eqb (Type_ frame) FrameTypeNEW_CONN
     then [(localAddr c, 5 * Second)] else []) /\
  localAddr (handleFrame c frame a).1.1 = localAddr c /\
  controlConn (handleFrame c frame a).1.1 = controlConn c /\
  forall k, is_Some (connMap (handleFrame c frame a).1.1 !! k) ->
    is_Some (connMap c !! k) \/
    (Byte.eqb (Type_ frame) FrameTypeNEW_CONN = true /\ k = ConnID frame).
Proof.
  pose proof (client_sendCloseFrame_dials c (ConnID frame) (Client.write_ok a)) as Hd.
  unfold handleFrame, handleNewConn, handleDataFrame, handleCloseFrame.
  destruct (Byte.eqb (Type_ frame) FrameTypeNEW_CONN).
  - destruct (dial a) as [localConn|err]; cbn [fst snd app dials];
      rewrite ?Hd; split_and!; try done; [|by left].
    intros k. cbn. destruct (decide (k = ConnID frame)) as [->|Hne].
    + by right.
    + rewrite lookup_insert_ne by done. by left.
  - assert (forall k, is_Some (delete (ConnID frame) (connMap c) !! k) ->
                      is_Some (connMap c !! k)) as Hdel.
    { intros k [v Hv]. apply lookup_delete_Some in Hv as [_ Hv]. by exists v. }
    repeat match goal with
    | |- context [if ?b then _ else _] => destruct b
    | |- context [match ?x with _ => _ end] => destruct x
    end; cbn [fst snd app dials set_connMap localAddr controlConn connMap];
      rewrite ?dials_app, ?Hd; split_and!; try done; intros k Hk; left;
      try done; try by apply Hdel.
Qed.

(** X25.  Whatever frames the server sends, the client dials nothing but
    its configured local address, with a timeout of five seconds, and
    once for every NEW_CONN frame. *)
Theorem client_dials_only_local (frames : list Frame)
    (answers : nat -> Answers) (c : Client) (from : nat) :
  dials (handle_frames c frames answers from).2
  = map (fun _ => (localAddr c, 5 * Second)) (new_conns frames).
Proof.
  revert c from.
  induction frames as [|f frames IH]; intros c from; [done|].
  cbn [handle_frames new_conns List.filter].
  destruct (handleFrame_dials c f (answers from)) as (Hd & Hl & _).
  destruct (handleFrame c f (answers from)) as [[c1 evs1] err].
  specialize (IH c1 (S from)).
  destruct (handle_frames c1 frames answers (S from)) as [c2 evs2].
  cbn [fst snd] in *. rewrite dials_app, Hd, IH, Hl.
  fold (new_conns frames).
  by destruct (Byte.eqb (Type_ f) FrameTypeNEW_CONN).
Qed.

(** X26.  The table of the client holds only streams the server has
    announced: after any frames, every id in the table was in it before
    or is the id of a NEW_CONN frame among them. *)
Theorem client_table_from_new_conn (frames : list Frame)
    (answers : nat -> Answers) (c : Client) (from : nat) (k : Z) :
  is_Some (connMap (handle_frames c frames answers from).1 !! k) ->
  is_Some (connMap c !! k) \/ k ∈ map ConnID (new_conns frames).
Proof.
  revert c from.
  induction frames as [|f frames IH]; intros c from; [by left|].
  cbn [handle_frames new_conns List.filter].
  destruct (handleFrame_dials c f (answers from)) as (_ & _ & _ & Hk).
  destruct (handleFrame c f (answers from)) as [[c1 evs1] err].
  specialize (IH c1 (S from)).
  destruct (handle_frames c1 frames answers (S from)) as [c2 evs2].
  cbn [fst snd] in *. fold (new_conns frames). intros Hin.
  destruct (IH Hin) as [H1|Hlater].
  - destruct (Hk k H1) as [?|[Hnew ->]]; [by left|right].
    rewrite Hnew. cbn. apply elem_of_cons. by left.
  - right. destruct (Byte.eqb (Type_ f) FrameTypeNEW_CONN); [|done].
    cbn. apply elem_of_cons. by right.
Qed.

Lemma client_table_from_new_conn_witness :
  let c := mkClient "127.0.0.1:80" (Some 9%nat) ∅ in
  let frames := [mkFrame FrameTypeNEW_CONN 4 []; mkFrame FrameTypeDATA 6 []] in
  let answers := fun _ : nat => mkAnswers (Ok 7%nat) None true in
  connMap (handle_frames c frames answers 0).1 !! 4 = Some 7%nat /\
  (is_Some (connMap c !! 4) \/ 4 ∈ map ConnID (new_conns frames)).
Proof.
  split; [vm_compute; reflexivity|].
  apply (client_table_from_new_conn
           [mkFrame FrameTypeNEW_CONN 4 []; mkFrame FrameTypeDATA 6 []]
           (fun _ : nat => mkAnswers (Ok 7%nat) None true)
           (mkClient "127.0.0.1:80" (Some 9%nat) ∅) 0 4).
  vm_compute. by eexists.
Defined.

End ClientFrames.

Section EndToEnd.
Import GoLib GoRuntime Proto Trace Forwarding FrameLoop.

Lemma frame_loop_concat (frames : list Frame) :
  Forall well_formed frames ->
  frame_loop (concat (map frame_bytes frames)) = (frames, EOF).
Proof.
  intros Hwf. unfold frame_loop. apply frame_loop_fuel_frames; [done|].
  pose proof (length_concat_frame_bytes frames). lia.
Qed.

(** X27.  The configuration the client sends reaches its session.  When
    [sendInitConfig] writes the INIT frame for a positive port, the server
    that has no public address of its own decodes from these bytes the
    same port and local address, stores them in a session without a
    listener, and listens on that port. *)
Theorem init_config_reaches_session (c : Client.Client) (remotePort : Z)
    (controlConn : Sock) (ci : Server.ClientInfo)
    (answers : nat -> ServerFrames.FrameAnswers) :
  0 < remotePort -> in_int remotePort = true ->
  Client.controlConn c = Some controlConn ->
  Z.of_nat (length (EncodeInitConfig
                      (mkInitConfig remotePort (Client.localAddr c))))
    <= 2 ^ 32 - 1 ->
  Server.PublicListener ci = None ->
  exists data,
    ClientTasks.sendInitConfig c remotePort None
    = ([EvWrite controlConn data true], None) /\
    let session := ServerFrames.handleFramesFromClient false ci data answers in
    session.2 = [EvListen (":" +:+ Itoa remotePort)
                   (match ServerFrames.listen (answers 0%nat) with
                    | Some _ => true
                    | None => false
                    end);
                 EvClose (Server.Conn ci)] /\
    Server.RemotePort session.1 = remotePort /\
    Server.LocalAddr session.1 = Client.localAddr c /\
    Server.PublicListener session.1 = ServerFrames.listen (answers 0%nat).
Proof.
  intros Hpos Hint Hcc Hlen Hnone. unfold ClientTasks.sendInitConfig.
  replace (remotePort <=? 0) with false by (symmetry; apply Z.leb_gt; lia).
  rewrite Hcc, frame_bytes_Ok. eexists. split; [reflexivity|].
  set (f := mkFrame FrameTypeINIT 0 _).
  unfold ServerFrames.handleFramesFromClient.
  replace (frame_bytes f) with (concat (map frame_bytes [f]))
    by (cbn; apply app_nil_r).
  rewrite frame_loop_concat by (repeat constructor; cbn; lia).
  cbn [ServerFrames.session_frames]. unfold ServerFrames.session_frame.
  cbn [Type_ f]. change (Byte.eqb FrameTypeINIT FrameTypeINIT) with true.
  cbn match. unfold Server.session_init. cbn [Payload f].
  rewrite EncodeInitConfig_round_trip by done.
  cbn [RemotePort LocalAddr Server.PublicListener].
  replace (0 <? remotePort) with true by (symmetry; apply Z.ltb_lt; lia).
  rewrite Hnone.
  by destruct (ServerFrames.listen (answers 0%nat)).
Qed.

Lemma init_config_reaches_session_witness :
  let c := Client.mkClient "127.0.0.1:80" (Some 9%nat) ∅ in
  let ci := Server.new_session "client-1" 3%nat in
  let answers := fun _ : nat => ServerFrames.mkFrameAnswers true true (Some 5%nat) in
  exists data,
    ClientTasks.sendInitConfig c 8080 None = ([EvWrite 9%nat data true], None) /\
    (ServerFrames.handleFramesFromClient false ci data answers).2
    = [EvListen ":8080" true; EvClose 3%nat].
Proof.
  destruct (init_config_reaches_session
              (Client.mkClient "127.0.0.1:80" (Some 9%nat) ∅) 8080 9%nat
              (Server.new_session "client-1" 3%nat)
              (fun _ : nat => ServerFrames.mkFrameAnswers true true (Some 5%nat)))
    as (data & Hsend & Hevs & _).
  - lia.
  - reflexivity.
  - reflexivity.
  - vm_compute. discriminate.
  - reflexivity.
  - exists data. split; [exact Hsend|exact Hevs].
Defined.

Lemma written_app (conn : Sock) (evs evs' : list Event) :
  written conn (evs ++ evs') = written conn evs ++ written conn evs'.
Proof.
  induction evs as [|e evs IH]; [done|].
  destruct e; cbn [app written]; try done.
  destruct ok; [|done]. destruct (_ =? _)%nat; [|done].
  by rewrite IH, app_assoc.
Qed.

Lemma reader_loop_wire (ci : Server.ClientInfo) (connID : Z) (publicConn : Sock)
    (turns : list Server.Turn) :
  0 <= connID < 2 ^ 32 ->
  exists payloads tail,
    written (Server.Conn ci) (Server.reader_loop ci connID publicConn turns).1
    = concat (map frame_bytes
                (map (mkFrame FrameTypeDATA connID) payloads ++ tail)) /\
    Forall (fun p => (1 <= length p <= 4096)%nat) payloads /\
    concat payloads `prefix_of`
      concat (map (fun t => bytes_read (Server.read t)) turns) /\
    (tail = [] \/ tail = [mkFrame FrameTypeCLOSE connID []]) /\
    ((Server.reader_loop ci connID publicConn turns).2 = false ->
     concat payloads
     = concat (map (fun t => bytes_read (Server.read t)) turns)).
Proof.
  intros Hid.
  assert (forall reads, exists payloads tail : list _,
            @nil byte = concat (map frame_bytes
                     (map (mkFrame FrameTypeDATA connID) payloads ++ tail)) /\
            Forall (fun p => (1 <= length p <= 4096)%nat) payloads /\
            concat payloads `prefix_of` concat reads /\
            (tail = [] \/ tail = [mkFrame FrameTypeCLOSE connID []]) /\
            (true = false -> concat payloads = concat reads)) as Hsilent.
  { intros reads. exists [], []. split_and!; try done; [|by left].
    apply prefix_nil. }
  assert (forall t reads, exists payloads tail : list _,
            written (Server.Conn ci)
              (EvLoad connID true :: EvRead publicConn ::
               Server.sendCloseFrame
                 (if Server.registered t then Some ci else None) connID
                 (Server.write_ok t))
            = concat (map frame_bytes
                     (map (mkFrame FrameTypeDATA connID) payloads ++ tail)) /\
            Forall (fun p => (1 <= length p <= 4096)%nat) payloads /\
            concat payloads `prefix_of` concat reads /\
            (tail = [] \/ tail = [mkFrame FrameTypeCLOSE connID []]) /\
            (true = false -> concat payloads = concat reads)) as Hclose.
  { intros t reads. unfold Server.sendCloseFrame.
    destruct (Server.registered t); [|apply Hsilent].
    rewrite frame_bytes_Ok. cbn [written].
    destruct (Server.write_ok t); [|apply Hsilent].
    rewrite Nat.eqb_refl. exists [], [mkFrame FrameTypeCLOSE connID []].
    split_and!; try done; [apply prefix_nil|by right]. }
  induction turns as [|t turns IH]; cbn [Server.reader_loop map].
  { exists [], []. split_and!; try done. by left. }
  destruct (Server.ctx_done t); [apply Hsilent|].
  destruct (Server.found_before t); cbn [negb]; [|apply Hsilent].
  destruct (Server.read t) as [bs| |msg]; cbn [bytes_read fst snd].
  - assert (length (take 4096 bs) <= 4096)%nat as Hle
      by (rewrite length_take; lia).
    destruct (0 <? length (take 4096 bs))%nat eqn:Hpos.
    + apply Nat.ltb_lt in Hpos.
      destruct (Server.found_after t); cbn [negb]; [|apply Hsilent].
      rewrite frame_bytes_Ok.
      destruct (Server.write_ok t); [|apply Hsilent].
      destruct IH as (payloads & tail & Hw & Hchunks & Hprefix & Htail & Hall).
      destruct (Server.reader_loop ci connID publicConn turns)
        as [rest returned].
      cbn [fst snd app written] in *. rewrite Nat.eqb_refl, Hw.
      exists (take 4096 bs :: payloads), tail. split_and!; try done.
      * constructor; [lia|done].
      * cbn. by apply prefix_app.
      * intros Hret. cbn. by rewrite Hall.
    + apply Nat.ltb_ge in Hpos.
      assert (take 4096 bs = []) as ->.
      { apply nil_length_inv. lia. }
      destruct IH as (payloads & tail & Hw & Hchunks & Hprefix & Htail & Hall).
      destruct (Server.reader_loop ci connID publicConn turns)
        as [rest returned].
      cbn [fst snd app written concat] in *.
      by exists payloads, tail.
  - apply Hclose.
  - destruct (Contains msg _); [apply Hsilent|apply Hclose].
Qed.

Lemma handle_data_frames (c : Client.Client) (connID : Z) (localConn : Sock)
    (answers : nat -> Client.Answers) (tail : list Frame)
    (payloads : list (list byte)) : forall from : nat,
  Client.connMap c !! connID = Some localConn ->
  Client.controlConn c <> Some localConn ->
  (forall i, Client.sock_write (answers i) = None) ->
  Forall (fun p => (1 <= length p <= 4096)%nat) payloads ->
  tail = [] \/ tail = [mkFrame FrameTypeCLOSE connID []] ->
  written localConn
    (ClientTasks.handle_frames c
       (map (mkFrame FrameTypeDATA connID) payloads ++ tail) answers from).2
  = concat payloads.
Proof.
  intros from Hk Hctrl Hok Hchunks Htail. revert from.
  induction Hchunks as [|p payloads Hp _ IH]; intros from.
  - destruct Htail as [->| ->]; [done|].
    cbn [map app ClientTasks.handle_frames]. unfold Client.handleFrame.
    cbn [Type_]. change (Byte.eqb FrameTypeCLOSE FrameTypeNEW_CONN) with false.
    change (Byte.eqb FrameTypeCLOSE FrameTypeDATA) with false.
    change (Byte.eqb FrameTypeCLOSE FrameTypeCLOSE) with true. cbn match.
    unfold Client.handleCloseFrame. cbn [ConnID]. rewrite Hk.
    cbn [fst snd app written]. rewrite app_nil_r.
    unfold Client.sendCloseFrame.
    destruct (Client.controlConn c) as [cc|]; [|done].
    rewrite frame_bytes_Ok. cbn [written].
    destruct (Client.write_ok (answers from)); [|done].
    destruct (cc =? localConn)%nat eqn:Heq; [|done].
    apply Nat.eqb_eq in Heq. by subst cc.
  - cbn [map app ClientTasks.handle_frames]. unfold Client.handleFrame.
    cbn [Type_]. change (Byte.eqb FrameTypeDATA FrameTypeNEW_CONN) with false.
    change (Byte.eqb FrameTypeDATA FrameTypeDATA) with true. cbn match.
    unfold Client.handleDataFrame. cbn [ConnID Payload]. rewrite Hk, Hok.
    cbn beta in Hp.
    replace (0 <? length p)%nat with true by (symmetry; apply Nat.ltb_lt; lia).
    specialize (IH (S from)).
    destruct (ClientTasks.handle_frames c _ answers (S from)) as [c' evs].
    cbn [fst snd app written concat] in *.
    by rewrite Nat.eqb_refl, IH.
Qed.

(** X28.  Bytes travel intact from an external socket to the local
    service.  Take what the reader task of the server writes with success
    to the control connection, let the client decode it with its frame
    loop and handle the frames while the stream is in its table and its
    writes to the local socket succeed: the bytes written to the local
    socket are, in order, a prefix of the bytes the server read from the
    external socket, and all of them while the reader loop has not
    returned. *)
Theorem data_reaches_local_service (ci : Server.ClientInfo) (connID : Z)
    (publicConn : Sock) (turns : list Server.Turn) (found_at_exit : bool)
    (c : Client.Client) (localConn : Sock) (answers : nat -> Client.Answers) :
  0 <= connID < 2 ^ 32 ->
  Client.connMap c !! connID = Some localConn ->
  Client.controlConn c <> Some localConn ->
  (forall i, Client.sock_write (answers i) = None) ->
  let wire := written (Server.Conn ci)
                (Server.reader ci connID publicConn turns found_at_exit) in
  let delivered :=
    written localConn
      (ClientTasks.handle_frames c (frame_loop wire).1 answers 0).2 in
  delivered `prefix_of`
    concat (map (fun t => bytes_read (Server.read t)) turns) /\
  ((Server.reader_loop ci connID publicConn turns).2 = false ->
   delivered = concat (map (fun t => bytes_read (Server.read t)) turns)).
Proof.
  intros Hid Hk Hctrl Hok wire delivered.
  destruct (reader_loop_wire ci connID publicConn turns Hid)
    as (payloads & tail & Hw & Hchunks & Hprefix & Htail & Hall).
  assert (wire = concat (map frame_bytes
                    (map (mkFrame FrameTypeDATA connID) payloads ++ tail)))
    as Hwire.
  { unfold wire, Server.reader.
    destruct (Server.reader_loop ci connID publicConn turns)
      as [evs returned].
    cbn [fst] in Hw. destruct returned; [|done].
    rewrite written_app, Hw. destruct found_at_exit; cbn; apply app_nil_r. }
  assert (delivered = concat payloads) as ->.
  { unfold delivered. rewrite Hwire, frame_loop_concat.
    - by apply handle_data_frames.
    - apply Forall_app. split.
      + apply Forall_map. eapply Forall_impl; [exact Hchunks|].
        intros p Hp. cbn beta in Hp. split; cbn [ConnID Payload]; lia.
      + destruct Htail as [->| ->]; repeat constructor; cbn; lia. }
  done.
Qed.

Lemma data_reaches_local_service_witness :
  let ci := Server.new_session "client-1" 9%nat in
  let turns := [Server.mkTurn false true (ReadOk [Byte.x68; Byte.x69])
                              true true true;
                Server.mkTurn false true ReadEOF true true true] in
  let c := Client.mkClient "127.0.0.1:80" (Some 3%nat) (<[5 := 4%nat]> ∅) in
  let answers := fun _ : nat => Client.mkAnswers (Ok 4%nat) None true in
  written 4%nat
    (ClientTasks.handle_frames c
       (frame_loop (written 9%nat (Server.reader ci 5 7%nat turns true))).1
       answers 0).2 = [Byte.x68; Byte.x69] /\
  written 4%nat
    (ClientTasks.handle_frames c
       (frame_loop (written 9%nat (Server.reader ci 5 7%nat turns true))).1
       answers 0).2 `prefix_of` [Byte.x68; Byte.x69].
Proof.
  split; [vm_compute; reflexivity|].
  apply (data_reaches_local_service (Server.new_session "client-1" 9%nat) 5
           7%nat
           [Server.mkTurn false true (ReadOk [Byte.x68; Byte.x69])
                          true true true;
            Server.mkTurn false true ReadEOF true true true] true
           (Client.mkClient "127.0.0.1:80" (Some 3%nat) (<[5 := 4%nat]> ∅))
           4%nat (fun _ : nat => Client.mkAnswers (Ok 4%nat) None true)).
  - lia.
  - vm_compute. reflexivity.
  - discriminate.
  - intros i. reflexivity.
Defined.

Lemma forward_loop_wire (c : Client.Client) (connID : Z) (localConn : Sock)
    (controlConn : Sock) (turns : list ClientTasks.Turn) :
  0 <= connID < 2 ^ 32 ->
  Forall (fun t => ClientTasks.ctrl t = Some controlConn) turns ->
  exists payloads tail,
    written controlConn (ClientTasks.forward_loop c connID localConn turns).1
    = concat (map frame_bytes
                (map (mkFrame FrameTypeDATA connID) payloads ++ tail)) /\
    Forall (fun p => (1 <= length p <= 4096)%nat) payloads /\
    concat payloads `prefix_of`
      concat (map (fun t => bytes_read (ClientTasks.read t)) turns) /\
    (tail = [] \/ tail = [mkFrame FrameTypeCLOSE connID []]) /\
    ((ClientTasks.forward_loop c connID localConn turns).2 = false ->
     concat payloads
     = concat (map (fun t => bytes_read (ClientTasks.read t)) turns)).
Proof.
  intros Hid Hctrl.
  assert (forall reads, exists payloads tail : list _,
            @nil byte = concat (map frame_bytes
                     (map (mkFrame FrameTypeDATA connID) payloads ++ tail)) /\
            Forall (fun p => (1 <= length p <= 4096)%nat) payloads /\
            concat payloads `prefix_of` concat reads /\
            (tail = [] \/ tail = [mkFrame FrameTypeCLOSE connID []]) /\
            (true = false -> concat payloads = concat reads)) as Hsilent.
  { intros reads. exists [], []. split_and!; try done; [|by left].
    apply prefix_nil. }
  assert (forall ok reads, exists payloads tail : list _,
            written controlConn
              (Client.sendCloseFrame
                 (Client.mkClient (Client.localAddr c) (Some controlConn)
                                  (Client.connMap c)) connID ok)
            = concat (map frame_bytes
                     (map (mkFrame FrameTypeDATA connID) payloads ++ tail)) /\
            Forall (fun p => (1 <= length p <= 4096)%nat) payloads /\
            concat payloads `prefix_of` concat reads /\
            (tail = [] \/ tail = [mkFrame FrameTypeCLOSE connID []]) /\
            (true = false -> concat payloads = concat reads)) as Hclose.
  { intros ok reads. unfold Client.sendCloseFrame. cbn [Client.controlConn].
    rewrite frame_bytes_Ok. cbn [written].
    destruct ok; [|apply Hsilent].
    rewrite Nat.eqb_refl. exists [], [mkFrame FrameTypeCLOSE connID []].
    split_and!; try done; [apply prefix_nil|by right]. }
  induction Hctrl as [|t turns Ht _ IH]; cbn [ClientTasks.forward_loop map].
  { exists [], []. split_and!; try done. by left. }
  cbn beta in Ht. rewrite Ht.
  destruct (ClientTasks.ctx_done t); [apply Hclose|].
  destruct (ClientTasks.read t) as [bs| |msg]; cbn [bytes_read fst snd written];
    [|apply Hclose..].
  assert (length (take 4096 bs) <= 4096)%nat as Hle
    by (rewrite length_take; lia).
  destruct (0 <? length (take 4096 bs))%nat eqn:Hpos.
  - apply Nat.ltb_lt in Hpos. rewrite frame_bytes_Ok.
    destruct (ClientTasks.write_ok t); [|apply Hsilent].
    destruct IH as (payloads & tail & Hw & Hchunks & Hprefix & Htail & Hall).
    destruct (ClientTasks.forward_loop c connID localConn turns)
      as [rest returned].
    cbn [fst snd app written] in *. rewrite Nat.eqb_refl, Hw.
    exists (take 4096 bs :: payloads), tail. split_and!; try done.
    + constructor; [lia|done].
    + cbn. by apply prefix_app.
    + intros Hret. cbn. by rewrite Hall.
  - apply Nat.ltb_ge in Hpos.
    assert (take 4096 bs = []) as ->.
    { apply nil_length_inv. lia. }
    destruct IH as (payloads & tail & Hw & Hchunks & Hprefix & Htail & Hall).
    destruct (ClientTasks.forward_loop c connID localConn turns)
      as [rest returned].
    cbn [fst snd app written concat] in *.
    by exists payloads, tail.
Qed.

Lemma session_data_frames (global : bool) (ci : Server.ClientInfo)
    (connID : Z) (publicConn : Sock)
    (answers : nat -> ServerFrames.FrameAnswers) (tail : list Frame)
    (payloads : list (list byte)) : forall from : nat,
  Server.ConnMap ci !! connID = Some publicConn ->
  (forall i, ServerFrames.sock_write_ok (answers i) = true) ->
  Forall (fun p => (1 <= length p <= 4096)%nat) payloads ->
  tail = [] \/ tail = [mkFrame FrameTypeCLOSE connID []] ->
  written publicConn
    (ServerFrames.session_frames global ci
       (map (mkFrame FrameTypeDATA connID) payloads ++ tail) answers from).2
  = concat payloads.
Proof.
  intros from Hk Hok Hchunks Htail. revert from.
  induction Hchunks as [|p payloads Hp _ IH]; intros from.
  - destruct Htail as [->| ->]; [done|].
    cbn [map app ServerFrames.session_frames].
    unfold ServerFrames.session_frame.
    cbn [Type_]. change (Byte.eqb FrameTypeCLOSE FrameTypeINIT) with false.
    change (Byte.eqb FrameTypeCLOSE FrameTypeDATA) with false.
    change (Byte.eqb FrameTypeCLOSE FrameTypeCLOSE) with true. cbn match.
    unfold Server.session_close. cbn [ConnID]. by rewrite Hk.
  - cbn [map app ServerFrames.session_frames].
    unfold ServerFrames.session_frame.
    cbn [Type_]. change (Byte.eqb FrameTypeDATA FrameTypeINIT) with false.
    change (Byte.eqb FrameTypeDATA FrameTypeDATA) with true. cbn match.
    unfold Server.session_data. cbn [ConnID Payload]. rewrite Hk, Hok.
    cbn beta in Hp.
    replace (0 <? length p)%nat with true by (symmetry; apply Nat.ltb_lt; lia).
    specialize (IH (S from)).
    destruct (ServerFrames.session_frames global ci _ answers (S from))
      as [ci' evs].
    cbn [fst snd app written concat] in *.
    by rewrite Nat.eqb_refl, IH.
Qed.

(** X29.  Bytes travel intact from the local service to an external
    socket.  Take what [forwardLocalToServer] writes with success to the
    control connection it finds in every turn, let the server decode and
    handle it while the stream is in the table of the session and the
    writes to the external socket succeed: the bytes written to the
    external socket are, in order, a prefix of the bytes the client read
    from the local service, and all of them while the loop of the client
    has not returned. *)
Theorem data_reaches_external_socket (c : Client.Client) (connID : Z)
    (localConn controlConn : Sock) (turns : list ClientTasks.Turn)
    (global : bool) (ci : Server.ClientInfo) (publicConn : Sock)
    (answers : nat -> ServerFrames.FrameAnswers) :
  0 <= connID < 2 ^ 32 ->
  Forall (fun t => ClientTasks.ctrl t = Some controlConn) turns ->
  Server.ConnMap ci !! connID = Some publicConn ->
  (forall i, ServerFrames.sock_write_ok (answers i) = true) ->
  let wire := written controlConn
                (ClientTasks.forwardLocalToServer c connID localConn turns) in
  let delivered :=
    written publicConn
      (ServerFrames.handleFramesFromClient global ci wire answers).2 in
  delivered `prefix_of`
    concat (map (fun t => bytes_read (ClientTasks.read t)) turns) /\
  ((ClientTasks.forward_loop c connID localConn turns).2 = false ->
   delivered = concat (map (fun t => bytes_read (ClientTasks.read t)) turns)).
Proof.
  intros Hid Hctrl Hk Hok wire delivered.
  destruct (forward_loop_wire c connID localConn controlConn turns Hid Hctrl)
    as (payloads & tail & Hw & Hchunks & Hprefix & Htail & Hall).
  assert (wire = concat (map frame_bytes
                    (map (mkFrame FrameTypeDATA connID) payloads ++ tail)))
    as Hwire.
  { unfold wire, ClientTasks.forwardLocalToServer.
    destruct (ClientTasks.forward_loop c connID localConn turns)
      as [evs returned].
    cbn [fst] in Hw. destruct returned; [|done].
    rewrite written_app, Hw. cbn. apply app_nil_r. }
  assert (Forall well_formed
            (map (mkFrame FrameTypeDATA connID) payloads ++ tail)) as Hwf.
  { apply Forall_app. split.
    - apply Forall_map. eapply Forall_impl; [exact Hchunks|].
      intros p Hp. cbn beta in Hp. split; cbn [ConnID Payload]; lia.
    - destruct Htail as [->| ->]; repeat constructor; cbn; lia. }
  assert (delivered = concat payloads) as ->.
  { unfold delivered, ServerFrames.handleFramesFromClient.
    rewrite Hwire, frame_loop_concat by done.
    pose proof (session_data_frames global ci connID publicConn answers tail
                  payloads 0 Hk Hok Hchunks Htail) as Hd.
    destruct (ServerFrames.session_frames global ci _ answers 0)
      as [ci' evs].
    cbn [snd] in *. rewrite written_app, Hd. cbn. apply app_nil_r. }
  done.
Qed.

Lemma data_reaches_external_socket_witness :
  let c := Client.mkClient "127.0.0.1:80" (Some 3%nat) (<[5 := 4%nat]> ∅) in
  let turns := [ClientTasks.mkTurn false (ReadOk [Byte.x6f; Byte.x6b])
                                   (Some 3%nat) true;
                ClientTasks.mkTurn false ReadEOF (Some 3%nat) true] in
  let ci := Server.mkClientInfo "client-1" 9%nat (<[5 := 7%nat]> ∅) 5
                                "127.0.0.1:80" 8080 None in
  let answers := fun _ : nat => ServerFrames.mkFrameAnswers true true None in
  written 7%nat
    (ServerFrames.handleFramesFromClient false ci
       (written 3%nat (ClientTasks.forwardLocalToServer c 5 4%nat turns))
       answers).2 = [Byte.x6f; Byte.x6b] /\
  written 7%nat
    (ServerFrames.handleFramesFromClient false ci
       (written 3%nat (ClientTasks.forwardLocalToServer c 5 4%nat turns))
       answers).2 `prefix_of` [Byte.x6f; Byte.x6b].
Proof.
  split; [vm_compute; reflexivity|].
  apply (data_reaches_external_socket
           (Client.mkClient "127.0.0.1:80" (Some 3%nat) (<[5 := 4%nat]> ∅)) 5
           4%nat 3%nat
           [ClientTasks.mkTurn false (ReadOk [Byte.x6f; Byte.x6b])
                               (Some 3%nat) true;
            ClientTasks.mkTurn false ReadEOF (Some 3%nat) true]
           false
           (Server.mkClientInfo "client-1" 9%nat (<[5 := 7%nat]> ∅) 5
                                "127.0.0.1:80" 8080 None)
           7%nat
           (fun _ : nat => ServerFrames.mkFrameAnswers true true None)).
  - lia.
  - repeat constructor.
  - vm_compute. reflexivity.
  - intros i. reflexivity.
Defined.

End EndToEnd.
